(** * ThinkPal UI test helpers: retry/backoff, readiness, content validators,
      layout centering.

    Shallow embedding of the TypeScript helpers of the test suite
    ([tests/helpers/retry-helper.ts], [tests/helpers/readiness-checker.ts],
    [tests/helpers/tooltip-checker.ts], [tests/layout-center.spec.ts]).

    Conventions of the embedding:
    - a JavaScript [number] that holds a count, an index, an HTTP status or
      a clock reading is a [Z] (a [nat] for the number of elements a locator
      matches); the options and the delays of the retry helpers are IEEE 754
      doubles, the primitive [float], with [Math.pow] left to the engine;
      the fixed delays of the readiness checker and the pixel measures of
      the layout tests are exact rationals [Q], with no rounding;
    - a JavaScript string is a [string] whose characters stand for code
      units below 256; [toLowerCase] and [trim] act on that range;
    - an [async] function that talks to the browser is a function of an
      explicit world state [W], returning its result and the next world;
    - a thrown exception is a value: [inl e] in a sum, or [Thrown e]. *)

From Stdlib Require Import Floats ZArith QArith Qminmax Qabs Qpower Qround
  String Ascii List Lia Bool DecimalString.
Import ListNotations.

Open Scope Z_scope.

(* ================================================================== *)
(** * Part I: the program *)
(* ================================================================== *)

(** ** JavaScript numbers *)

Module JsNumber.

(** A [number] is an IEEE 754 double: the primitive [float], whose
    operations round as the processor does and whose [NaN]s are one value. *)
Definition number : Set := float.

(** The number an integer is written as: the nearest double, ties to even. *)
Definition ofZ (z : Z) : number :=
  SF2Prim (binary_normalize prec emax z 0 false).

(** [Math.min(a, b)]: [NaN] when either argument is, and [-0] below [+0]. *)
Definition Math_min (a b : number) : number :=
  if is_nan a || is_nan b then PrimFloat.nan
  else if is_zero a && is_zero b then
    (if get_sign a || get_sign b then PrimFloat.neg_zero else PrimFloat.zero)
  else if (b <? a)%float then b else a.

(** The rational a finite number stands for; [0] for [NaN] and the
    infinities. *)
Definition valueOf (x : number) : Q :=
  match Prim2SF x with
  | S754_finite s m e => (inject_Z (cond_Zopp s (Zpos m)) * Qpower 2 e)%Q
  | _ => 0%Q
  end.

(** The exponent as a natural number, when it is one. *)
Definition toNat (x : number) : option nat :=
  match Prim2SF x with
  | S754_zero _ => Some O
  | S754_finite false m e =>
    if 0 <=? e then Some (Z.to_nat (Zpos m * 2 ^ e))
    else if Zpos m mod 2 ^ (- e) =? 0
         then Some (Z.to_nat (Zpos m / 2 ^ (- e)))
         else None
  | _ => None
  end.

(** A [Math.pow] for the samples: for an exponent that is a natural number,
    the product of that many factors [base], each product rounded; [NaN]
    for any other exponent. It is the power itself wherever the products
    are exact, as they are for the small integers of the samples. *)
Definition productOfFactors (base exponent : number) : number :=
  match toNat exponent with
  | Some n => Nat.iter n (fun p => (p * base)%float) 1%float
  | None => PrimFloat.nan
  end.

End JsNumber.

(** ** tests/helpers/retry-helper.ts *)

Module RetryHelper.
Import JsNumber.

Record RetryOptions : Type := mkRetryOptions {
  maxRetries : Z;
  baseDelay : number;
  maxDelay : number;
  backoffMultiplier : number
}.

Definition DEFAULT_RETRY_OPTIONS : RetryOptions :=
  {| maxRetries := 3;
     baseDelay := 500%float;
     maxDelay := 2000%float;
     backoffMultiplier := 2%float |}.

(** [Partial<RetryOptions>]: every key may be absent. *)
Record PartialRetryOptions : Type := mkPartial {
  optMaxRetries : option Z;
  optBaseDelay : option number;
  optMaxDelay : option number;
  optBackoffMultiplier : option number
}.

Definition noOptions : PartialRetryOptions :=
  {| optMaxRetries := None; optBaseDelay := None;
     optMaxDelay := None; optBackoffMultiplier := None |}.

Definition orDefault {A : Type} (o : option A) (d : A) : A :=
  match o with Some a => a | None => d end.

(** [{ ...DEFAULT_RETRY_OPTIONS, ...options }] *)
Definition mergeOptions (d : RetryOptions) (o : PartialRetryOptions)
  : RetryOptions :=
  {| maxRetries := orDefault (optMaxRetries o) (maxRetries d);
     baseDelay := orDefault (optBaseDelay o) (baseDelay d);
     maxDelay := orDefault (optMaxDelay o) (maxDelay d);
     backoffMultiplier :=
       orDefault (optBackoffMultiplier o) (backoffMultiplier d) |}.

(** [Math.min(baseDelay * Math.pow(backoffMultiplier, attempt - 1), maxDelay)],
    where [Math_pow] is the engine's [Math.pow], whose result ECMAScript
    leaves to the implementation to approximate. *)
Definition backoffDelay (Math_pow : number -> number -> number)
  (config : RetryOptions) (attempt : Z) : number :=
  Math_min (baseDelay config
            * Math_pow (backoffMultiplier config) (ofZ (attempt - 1)))%float
           (maxDelay config).

Section Retry.

(** The engine's [Math.pow]. *)
Variable Math_pow : number -> number -> number.

(** [W]: the world the operation acts on; [E]: thrown errors; [T]: results. *)
Variables W E T : Type.

(** [operation : () => Promise<T>]: one invocation either rejects with an
    error or resolves to a value, and may change the world. *)
Variable operation : W -> (E + T) * W.

(** [await new Promise(resolve => setTimeout(resolve, delay))]: the world
    after [delay] milliseconds have passed. *)
Variable setTimeout : number -> W -> W.

(** The lines written by [console.log]. *)
Inductive LogLine : Type :=
| LogOperationFailedAfter (maxRetries : Z)
| LogAttemptFailedRetryingIn (attempt : Z) (delay : number)
| LogNamedAttempt (operationName : string) (attempt maxRetries : Z)
| LogNamedSucceeded (operationName : string) (attempt : Z)
| LogNamedFailed (operationName : string) (attempt : Z) (error : E)
| LogNamedFailedAfter (operationName : string) (maxRetries : Z)
| LogNamedRetrying (operationName : string) (delay : number).

(** What a run does, in order. *)
Inductive Event : Type :=
| EvAttempt (attempt : Z) (r : E + T)
| EvSleep (delay : number)
| EvLog (l : LogLine).

(** How a call ends: [return v] or [throw lastError], where [lastError] is
    [null] until an attempt has failed. *)
Inductive Outcome : Type :=
| Returned (v : T)
| Thrown (lastError : option E).

Definition Run : Type := Outcome * list Event * W.

Definition andThen (pre : list Event) (r : option Run) : option Run :=
  match r with
  | Some (o, tr, w) => Some (o, pre ++ tr, w)
  | None => None
  end.

(** The [for (let attempt = 1; attempt <= config.maxRetries; attempt++)]
    loop of [retry], one iteration per unit of [fuel]; [None] when the fuel
    runs out before the loop ends. *)
Fixpoint retryLoop (config : RetryOptions) (fuel : nat) (attempt : Z)
  (lastError : option E) (w : W) : option Run :=
  match fuel with
  | O => None
  | S fuel' =>
    if attempt <=? maxRetries config then
      match operation w with
      | (inr v, w1) => Some (Returned v, [EvAttempt attempt (inr v)], w1)
      | (inl error, w1) =>
        if attempt =? maxRetries config then
          Some (Thrown (Some error),
                [EvAttempt attempt (inl error);
                 EvLog (LogOperationFailedAfter (maxRetries config))], w1)
        else
          let delay := backoffDelay Math_pow config attempt in
          andThen [EvAttempt attempt (inl error);
                   EvLog (LogAttemptFailedRetryingIn attempt delay);
                   EvSleep delay]
            (retryLoop config fuel' (attempt + 1) (Some error)
               (setTimeout delay w1))
      end
    else Some (Thrown lastError, [], w)
  end.

(** Iterations the loop can make, plus the final test of its condition. *)
Definition loopFuel (config : RetryOptions) : nat :=
  S (Z.to_nat (maxRetries config)).

Definition retry (options : PartialRetryOptions) (w : W) : option Run :=
  let config := mergeOptions DEFAULT_RETRY_OPTIONS options in
  retryLoop config (loopFuel config) 1 None w.

(** The loop of [retryValidation]: the same control flow, with the
    operation's name in the log. *)
Fixpoint retryValidationLoop (operationName : string) (config : RetryOptions)
  (fuel : nat) (attempt : Z) (lastError : option E) (w : W) : option Run :=
  match fuel with
  | O => None
  | S fuel' =>
    if attempt <=? maxRetries config then
      let announce :=
        EvLog (LogNamedAttempt operationName attempt (maxRetries config)) in
      match operation w with
      | (inr result, w1) =>
        Some (Returned result,
              announce :: EvAttempt attempt (inr result) ::
                (if 1 <? attempt
                 then [EvLog (LogNamedSucceeded operationName attempt)]
                 else []),
              w1)
      | (inl error, w1) =>
        if attempt =? maxRetries config then
          Some (Thrown (Some error),
                [announce; EvAttempt attempt (inl error);
                 EvLog (LogNamedFailed operationName attempt error);
                 EvLog (LogNamedFailedAfter operationName
                          (maxRetries config))], w1)
        else
          let delay := backoffDelay Math_pow config attempt in
          andThen [announce; EvAttempt attempt (inl error);
                   EvLog (LogNamedFailed operationName attempt error);
                   EvLog (LogNamedRetrying operationName delay);
                   EvSleep delay]
            (retryValidationLoop operationName config fuel' (attempt + 1)
               (Some error) (setTimeout delay w1))
      end
    else Some (Thrown lastError, [], w)
  end.

Definition retryValidation (operationName : string)
  (options : PartialRetryOptions) (w : W) : option Run :=
  let config := mergeOptions DEFAULT_RETRY_OPTIONS options in
  retryValidationLoop operationName config (loopFuel config) 1 None w.

(** *** Reading a trace *)

(** The invocations of the operation, with the attempt number of each. *)
Fixpoint attempts (tr : list Event) : list (Z * (E + T)) :=
  match tr with
  | [] => []
  | EvAttempt n r :: tr' => (n, r) :: attempts tr'
  | _ :: tr' => attempts tr'
  end.

(** The suspensions, in order. *)
Fixpoint sleeps (tr : list Event) : list number :=
  match tr with
  | [] => []
  | EvSleep d :: tr' => d :: sleeps tr'
  | _ :: tr' => sleeps tr'
  end.

(** The operation rejects whatever the world is. *)
Definition alwaysFails : Prop :=
  forall w : W, exists e : E, fst (operation w) = inl e.

End Retry.

Arguments EvAttempt {E T} attempt r.
Arguments EvSleep {E T} delay.
Arguments EvLog {E T} l.
Arguments Returned {E T} v.
Arguments Thrown {E T} lastError.
Arguments retry Math_pow {W E T} operation setTimeout options w.
Arguments retryValidation Math_pow {W E T} operation setTimeout operationName
  options w.
Arguments retryLoop Math_pow {W E T} operation setTimeout config fuel attempt
  lastError w.
Arguments retryValidationLoop Math_pow {W E T} operation setTimeout
  operationName config fuel attempt lastError w.
Arguments attempts {E T} tr.
Arguments sleeps {E T} tr.
Arguments alwaysFails {W E T} operation.
Arguments andThen {W E T} pre r.

(** *** A sample operation

    The world is the number of invocations made so far; every invocation
    rejects, with that number as its error. *)

Definition countingFailure (w : nat) : (nat + unit) * nat := (inl w, S w).

Definition timePasses (delay : number) (w : nat) : nat := w.

Definition fiveAttempts : PartialRetryOptions :=
  {| optMaxRetries := Some 5; optBaseDelay := None;
     optMaxDelay := None; optBackoffMultiplier := None |}.

(** A base delay of 0.1 (the double next to it), tripled at each attempt. *)
Definition tenthTripled : RetryOptions :=
  {| maxRetries := 3;
     baseDelay := 0x1.999999999999ap-4%float;
     maxDelay := 2000%float;
     backoffMultiplier := 3%float |}.

(** No base delay, and a multiplier of 1e200 (the double next to it), whose
    square is beyond the doubles. *)
Definition nothingTimesHuge : RetryOptions :=
  {| maxRetries := 3;
     baseDelay := 0%float;
     maxDelay := 2000%float;
     backoffMultiplier := 0x1.4e718d7d7625ap+664%float |}.

End RetryHelper.

(** ** Asynchronous code that may throw *)

Module Async.

(** A thrown value, as [`${error}`] prints it. *)
Definition exn : Type := string.

(** An [async] computation over a state [S]: it ends by throwing or by
    yielding a value, and leaves a state either way. *)
Definition M (S A : Type) : Type := S -> (exn + A) * S.

Definition ret {S A : Type} (a : A) : M S A := fun s => (inr a, s).

Definition bind {S A B : Type} (c : M S A) (k : A -> M S B) : M S B :=
  fun s =>
    match c s with
    | (inr a, s') => k a s'
    | (inl e, s') => (inl e, s')
    end.

Definition throw {S A : Type} (e : exn) : M S A := fun s => (inl e, s).

(** [try { body } catch (error) { handler }]: the handler starts from the
    state the body had reached when it threw. *)
Definition tryCatch {S A : Type} (body : M S A) (handler : exn -> M S A)
  : M S A :=
  fun s =>
    match body s with
    | (inr a, s') => (inr a, s')
    | (inl e, s') => handler e s'
    end.

Definition get {S : Type} : M S S := fun s => (inr s, s).

Definition modify {S : Type} (f : S -> S) : M S unit := fun s => (inr tt, f s).

End Async.

Declare Scope async_scope.
Delimit Scope async_scope with async.
Notation "x <- c ;; k" := (Async.bind c (fun x => k))
  (at level 61, c at next level, right associativity) : async_scope.
Notation "c ;; k" := (Async.bind c (fun _ => k))
  (at level 61, right associativity) : async_scope.

(** ** JavaScript strings *)

Module JsString.

Local Open Scope string_scope.

(** [s.length] *)
Definition jsLength (s : string) : Z := Z.of_nat (String.length s).

(** A string is falsy exactly when it is empty. *)
Definition truthy (s : string) : bool := negb (s =? "").

(** [o || ''], for [o : string | null | undefined]. *)
Definition orEmpty (o : option string) : string :=
  match o with Some s => s | None => "" end.

(** Code units that [trim] removes: TAB, LF, VT, FF, CR, SPACE, NBSP. *)
Definition isWhiteSpace (c : ascii) : bool :=
  let n := nat_of_ascii c in
  ((9 <=? n) && (n <=? 13) || (n =? 32) || (n =? 160))%nat.

Fixpoint trimStart (s : string) : string :=
  match s with
  | EmptyString => EmptyString
  | String c s' => if isWhiteSpace c then trimStart s' else s
  end.

Fixpoint trimEnd (s : string) : string :=
  match s with
  | EmptyString => EmptyString
  | String c s' =>
    match trimEnd s' with
    | EmptyString => if isWhiteSpace c then EmptyString
                     else String c EmptyString
    | t => String c t
    end
  end.

Definition trim (s : string) : string := trimEnd (trimStart s).

(** Upper-case letters: A-Z, and the accented capitals (all of 192..222
    but the multiplication sign). *)
Definition isUpperCase (c : ascii) : bool :=
  let n := nat_of_ascii c in
  ((65 <=? n) && (n <=? 90)
   || (192 <=? n) && (n <=? 222) && negb (n =? 215))%nat.

Definition toLowerCaseChar (c : ascii) : ascii :=
  if isUpperCase c then ascii_of_nat (nat_of_ascii c + 32) else c.

Fixpoint toLowerCase (s : string) : string :=
  match s with
  | EmptyString => EmptyString
  | String c s' => String (toLowerCaseChar c) (toLowerCase s')
  end.

(** [s.includes(searchString)] *)
Fixpoint includes (s searchString : string) : bool :=
  if String.prefix searchString s then true
  else match s with
       | EmptyString => false
       | String _ s' => includes s' searchString
       end.

(** [`${n}`] for an integer. *)
Definition showZ (n : Z) : string := NilZero.string_of_int (Z.to_int n).

End JsString.

(** ** tests/helpers/readiness-checker.ts *)

Module ReadinessChecker.
Import Async JsString.
Local Open Scope string_scope.
Local Open Scope async_scope.

Record ReadinessCheckResult : Type := mkReadiness {
  isReady : bool;
  error : option string;
  responseTime : option Z
}.

(** What a check does to the outside: requests, suspensions, log lines. *)
Inductive Event : Type :=
| EvGet (url : string) (response : exn + Z)
| EvSleep (delay : Q)
| EvLog (line : string).

Fixpoint requests (tr : list Event) : list (exn + Z) :=
  match tr with
  | [] => []
  | EvGet _ r :: tr' => r :: requests tr'
  | _ :: tr' => requests tr'
  end.

Fixpoint sleeps (tr : list Event) : list Q :=
  match tr with
  | [] => []
  | EvSleep d :: tr' => d :: sleeps tr'
  | _ :: tr' => sleeps tr'
  end.

(** The response is the one the code calls success. *)
Definition isOk (response : exn + Z) : bool :=
  match response with
  | inr status => (status =? 200)%Z
  | inl _ => false
  end.

Section Checker.

(** [W]: the application under test and the clock. *)
Variable W : Type.

(** [page.request.get(url)] then [response.status()]: the status code, or
    the thrown error. *)
Variable requestGet : string -> W -> (exn + Z) * W.

(** [Date.now()] *)
Variable dateNow : W -> Z.

(** The world after a [setTimeout] of the given length. *)
Variable setTimeout : Q -> W -> W.

(** The state of a run: the world, and what was done so far. *)
Definition St : Type := W * list Event.

Definition emit (ev : Event) : M St unit :=
  modify (fun s : St => (fst s, (snd s ++ [ev])%list)).

Definition consoleLog (line : string) : M St unit := emit (EvLog line).

Definition now : M St Z := fun s => (inr (dateNow (fst s)), s).

Definition get (url : string) : M St Z :=
  fun s =>
    let '(r, w') := requestGet url (fst s) in
    (r, (w', (snd s ++ [EvGet url r])%list)).

Definition sleep (delay : Q) : M St unit :=
  fun s => (inr tt, (setTimeout delay (fst s), (snd s ++ [EvSleep delay])%list)).

Definition maxRetries : Z := 3.
Definition retryDelay : Z := 1000.

(** The [try] block of one iteration: [Some r] when it executes
    [return r], [None] when control reaches its end. *)
Definition attemptTry (attempt : Z) : M St (option ReadinessCheckResult) :=
  consoleLog ("Checking app readiness (attempt " ++ showZ attempt ++ "/"
              ++ showZ maxRetries ++ ")...") ;;
  startTime <- now ;;
  status <- get "http://localhost:3000" ;;
  endTime <- now ;;
  let responseTime := endTime - startTime in
  if (status =? 200)%Z then
    consoleLog ("App is ready! Response time: " ++ showZ responseTime ++ "ms") ;;
    ret (Some {| isReady := true; error := None;
                 responseTime := Some responseTime |})
  else
    let error := "App responded with status " ++ showZ status in
    consoleLog error ;;
    if (attempt =? maxRetries)%Z then
      ret (Some {| isReady := false; error := Some error;
                   responseTime := Some responseTime |})
    else ret None.

(** The [catch] block of one iteration. *)
Definition attemptCatch (attempt : Z) (error : exn)
  : M St (option ReadinessCheckResult) :=
  let errorMessage := "Connection failed: " ++ error in
  consoleLog errorMessage ;;
  if (attempt =? maxRetries)%Z then
    ret (Some {| isReady := false; error := Some errorMessage;
                 responseTime := None |})
  else ret None.

(** The [for (let attempt = 1; attempt <= maxRetries; attempt++)] loop and
    the [return] after it; [fuel] bounds the iterations. *)
Fixpoint checkLoop (fuel : nat) (attempt : Z)
  : M St (option ReadinessCheckResult) :=
  match fuel with
  | O => ret None
  | S fuel' =>
    if (attempt <=? maxRetries)%Z then
      returned <- tryCatch (attemptTry attempt) (attemptCatch attempt) ;;
      match returned with
      | Some r => ret (Some r)
      | None =>
        (if (attempt <? maxRetries)%Z then
           consoleLog ("Waiting " ++ showZ retryDelay ++ "ms before retry...") ;;
           sleep (inject_Z retryDelay)
         else ret tt) ;;
        checkLoop fuel' (attempt + 1)
      end
    else
      ret (Some {| isReady := false;
                   error := Some "App failed to respond after all retry attempts";
                   responseTime := None |})
  end.

(** [checkAppReadiness(page)]: what it throws or returns, what it did, and
    the world it leaves; [None] would mean the loop ran out of fuel. *)
Definition checkAppReadiness (w : W)
  : option ((exn + ReadinessCheckResult) * list Event * W) :=
  match checkLoop (S (Z.to_nat maxRetries)) 1 (w, []) with
  | (inr (Some r), (w', tr)) => Some (inr r, tr, w')
  | (inr None, _) => None
  | (inl e, (w', tr)) => Some (inl e, tr, w')
  end.

End Checker.

(** *** Sample servers *)

(** A server that answers every request with 204 No Content. *)
Definition noContentServer (url : string) (w : unit) : (exn + Z) * unit :=
  (inr 204, w).

(** A server that refuses the first two connections, then answers 200. *)
Definition slowStartServer (url : string) (w : nat) : (exn + Z) * nat :=
  (if (w <? 2)%nat then inl "Error: connect ECONNREFUSED" else inr 200, S w).

End ReadinessChecker.

(** ** tests/helpers/tooltip-checker.ts *)

Module TooltipChecker.
Import Async JsString.
Local Open Scope string_scope.
Local Open Scope async_scope.

(** The double-quote character, for selectors and messages. *)
Definition dq : string := String (ascii_of_nat 34) EmptyString.

(** *** The page *)

Inductive Locator : Type :=
| PageLocator (selector : string)
| First (l : Locator)
| Nth (l : Locator) (index : nat)
| SubLocator (l : Locator) (selector : string).

(** The part of Playwright's [Page] and [Locator] the validators call.
    Each call may throw, and the page may change between calls. *)
Record Page (W : Type) : Type := mkPage {
  count : Locator -> W -> (exn + nat) * W;
  textContent : Locator -> W -> (exn + option string) * W;
  getAttribute : Locator -> string -> W -> (exn + option string) * W;
  isVisible : Locator -> W -> (exn + bool) * W
}.

Arguments count {W} p l w.
Arguments textContent {W} p l w.
Arguments getAttribute {W} p l name w.
Arguments isVisible {W} p l w.

(** *** Results *)

Module TooltipDetail.
Record t : Type := mk {
  term : string;
  tooltip : string;
  isValid : bool;
  error : option string
}.
End TooltipDetail.

Module TooltipValidationResult.
Record t : Type := mk {
  isValid : bool;
  tooltipCount : nat;
  validTooltips : nat;
  errors : list string;
  details : list TooltipDetail.t
}.
End TooltipValidationResult.

Module SectionValidationResult.
Record t : Type := mk {
  isValid : bool;
  sectionName : string;
  content : option string;
  error : option string;
  characterCount : Z
}.
End SectionValidationResult.

(** *** A validator's state: the page's world and the [result] object it
    mutates *)

Section State.
Variables W R : Type.

(** [await] a call on the page. *)
Definition await {A : Type} (call : W -> (exn + A) * W) : M (W * R) A :=
  fun s => let '(r, w') := call (fst s) in (r, (w', snd s)).

(** Assign to fields of [result]. *)
Definition update (f : R -> R) : M (W * R) unit :=
  modify (fun s => (fst s, f (snd s))).

(** Read [result]. *)
Definition result : M (W * R) R := fun s => (inr (snd s), s).

(** [console.log]: the console is not part of the state. *)
Definition consoleLog (line : string) : M (W * R) unit := ret tt.

(** [try { body } catch (error) { recover } ] where both end in
    [return result]. *)
Definition returningResult (init : R) (body : M (W * R) unit)
  (recover : exn -> M (W * R) unit) (w : W) : (exn + R) * W :=
  match tryCatch body recover (w, init) with
  | (inr _, (w', r)) => (inr r, w')
  | (inl e, (w', _)) => (inl e, w')
  end.

End State.

Arguments await {W R A} call.
Arguments update {W R} f.
Arguments result {W R}.
Arguments consoleLog {W R} line.
Arguments returningResult {W R} init body recover w.

(** *** validateTooltips *)

Section ValidateTooltips.
Import TooltipValidationResult.
Variable W : Type.
Variable page : Page W.

Local Abbreviation St := (W * TooltipValidationResult.t)%type.

Definition initialTooltipResult : TooltipValidationResult.t :=
  {| isValid := false; tooltipCount := 0; validTooltips := 0;
     errors := []; details := [] |}.

Definition setTooltipCount (n : nat) (r : t) : t :=
  {| isValid := isValid r; tooltipCount := n;
     validTooltips := validTooltips r; errors := errors r;
     details := details r |}.

Definition incrValidTooltips (r : t) : t :=
  {| isValid := isValid r; tooltipCount := tooltipCount r;
     validTooltips := S (validTooltips r); errors := errors r;
     details := details r |}.

Definition pushError (e : string) (r : t) : t :=
  {| isValid := isValid r; tooltipCount := tooltipCount r;
     validTooltips := validTooltips r; errors := (errors r ++ [e])%list;
     details := details r |}.

Definition pushDetail (d : TooltipDetail.t) (r : t) : t :=
  {| isValid := isValid r; tooltipCount := tooltipCount r;
     validTooltips := validTooltips r; errors := errors r;
     details := (details r ++ [d])%list |}.

Definition setIsValid (b : bool) (r : t) : t :=
  {| isValid := b; tooltipCount := tooltipCount r;
     validTooltips := validTooltips r; errors := errors r;
     details := details r |}.

Definition tooltipPlaceholderPatterns : list string :=
  [ "No description available";
    "No tooltip available";
    "Click for more info";
    "Hover for details";
    "Loading...";
    "Please wait..." ].

(** [patterns.some(pattern =>
       text.toLowerCase().includes(pattern.toLowerCase()))] *)
Definition somePatternIn (patterns : list string) (text : string) : bool :=
  existsb (fun pattern => includes (toLowerCase text) (toLowerCase pattern))
          patterns.

Definition withError (d : TooltipDetail.t) (e : string) : TooltipDetail.t :=
  {| TooltipDetail.term := TooltipDetail.term d;
     TooltipDetail.tooltip := TooltipDetail.tooltip d;
     TooltipDetail.isValid := TooltipDetail.isValid d;
     TooltipDetail.error := Some e |}.

Definition markValid (d : TooltipDetail.t) : TooltipDetail.t :=
  {| TooltipDetail.term := TooltipDetail.term d;
     TooltipDetail.tooltip := TooltipDetail.tooltip d;
     TooltipDetail.isValid := true;
     TooltipDetail.error := TooltipDetail.error d |}.

(** [a || b || c || ''] over the three attributes, each read only when the
    ones before it are falsy. *)
Definition tooltipTextOf (tooltip : Locator) : M St string :=
  a <- await (getAttribute page tooltip "data-tooltip") ;;
  if truthy (orEmpty a) then ret (orEmpty a) else
  b <- await (getAttribute page tooltip "title") ;;
  if truthy (orEmpty b) then ret (orEmpty b) else
  c <- await (getAttribute page tooltip "aria-label") ;;
  ret (orEmpty c).

(** The body of the [for] loop, for one tooltip. *)
Definition validateOneTooltip (tooltip : Locator) : M St unit :=
  term <- await (textContent page tooltip) ;;
  tooltipText <- tooltipTextOf tooltip ;;
  let detail :=
    {| TooltipDetail.term := trim (orEmpty term);
       TooltipDetail.tooltip := trim tooltipText;
       TooltipDetail.isValid := false;
       TooltipDetail.error := None |} in
  detail <-
    (if negb (truthy (TooltipDetail.term detail)) then
       ret (withError detail "Missing term text")
     else if (jsLength (TooltipDetail.term detail) <? 2)%Z then
       ret (withError detail "Term too short (minimum 2 characters)")
     else if negb (truthy (TooltipDetail.tooltip detail)) then
       ret (withError detail "Missing tooltip content")
     else if (jsLength (TooltipDetail.tooltip detail) <? 15)%Z then
       ret (withError detail
              ("Tooltip too short ("
               ++ showZ (jsLength (TooltipDetail.tooltip detail))
               ++ " chars, minimum 15)"))
     else if somePatternIn tooltipPlaceholderPatterns
               (TooltipDetail.tooltip detail) then
       ret (withError detail
              ("Tooltip contains placeholder text: " ++ dq
               ++ TooltipDetail.tooltip detail ++ dq))
     else
       update incrValidTooltips ;;
       ret (markValid detail)) ;;
  (if negb (TooltipDetail.isValid detail)
      && truthy (orEmpty (TooltipDetail.error detail))
   then update (pushError (TooltipDetail.term detail ++ ": "
                           ++ orEmpty (TooltipDetail.error detail)))
   else ret tt) ;;
  update (pushDetail detail).

(** [for (let i = 0; i < count; i++)], with [remaining = count - i]. *)
Fixpoint validateEachTooltip (tooltips : Locator) (i remaining : nat)
  : M St unit :=
  match remaining with
  | O => ret tt
  | S remaining' =>
    validateOneTooltip (Nth tooltips i) ;;
    validateEachTooltip tooltips (S i) remaining'
  end.

(** The selector fallbacks: class, then [data-tooltip], then [title]. *)
Definition locateTooltips : M St (Locator * nat) :=
  let tooltips := PageLocator ("span[class*=" ++ dq ++ "tooltip" ++ dq ++ "]") in
  n <- await (count page tooltips) ;;
  found <-
    (if (n =? 0)%nat then
       let tooltips := PageLocator "[data-tooltip]" in
       n <- await (count page tooltips) ;;
       ret (tooltips, n)
     else ret (tooltips, n)) ;;
  if (snd found =? 0)%nat then
    let tooltips := PageLocator "[title]" in
    n <- await (count page tooltips) ;;
    ret (tooltips, n)
  else ret found.

(** The [try] block. *)
Definition validateTooltipsTry : M St unit :=
  found <- locateTooltips ;;
  let tooltips := fst found in
  let n := snd found in
  update (setTooltipCount n) ;;
  if (n =? 0)%nat then
    update (pushError "No tooltips found in response")
  else
    consoleLog ("Found " ++ showZ (Z.of_nat n) ++ " tooltip elements") ;;
    validateEachTooltip tooltips 0 n ;;
    r <- result ;;
    update (setIsValid ((0 <? validTooltips r)%nat
                        && (length (errors r) =? 0)%nat)) ;;
    r <- result ;;
    if isValid r then
      consoleLog ("Tooltip validation passed: "
                  ++ showZ (Z.of_nat (validTooltips r)) ++ "/"
                  ++ showZ (Z.of_nat (tooltipCount r)) ++ " valid tooltips")
    else
      consoleLog ("Tooltip validation failed: "
                  ++ showZ (Z.of_nat (length (errors r))) ++ " errors").

(** The [catch] block. *)
Definition validateTooltipsCatch (error : exn) : M St unit :=
  update (pushError ("Error checking tooltips: " ++ error)).

Definition validateTooltips (w : W) : (exn + TooltipValidationResult.t) * W :=
  returningResult initialTooltipResult validateTooltipsTry
    validateTooltipsCatch w.

End ValidateTooltips.

(** *** validateSection *)

Section ValidateSection.
Import SectionValidationResult.
Variable W : Type.
Variable page : Page W.

Local Abbreviation St := (W * SectionValidationResult.t)%type.

Definition initialSectionResult (sectionName : string)
  : SectionValidationResult.t :=
  {| isValid := false; sectionName := sectionName; content := None;
     error := None; characterCount := 0 |}.

Definition setError (e : string) (r : t) : t :=
  {| isValid := isValid r; sectionName := sectionName r;
     content := content r; error := Some e;
     characterCount := characterCount r |}.

Definition setContent (c : string) (r : t) : t :=
  {| isValid := isValid r; sectionName := sectionName r;
     content := Some c; error := error r;
     characterCount := characterCount r |}.

Definition setCharacterCount (n : Z) (r : t) : t :=
  {| isValid := isValid r; sectionName := sectionName r;
     content := content r; error := error r;
     characterCount := n |}.

Definition setSectionValid (b : bool) (r : t) : t :=
  {| isValid := b; sectionName := sectionName r;
     content := content r; error := error r;
     characterCount := characterCount r |}.

Definition sectionPlaceholderPatterns : list string :=
  [ "No answer available";
    "No content available";
    "No strategy available";
    "No story available";
    "No tools available";
    "No prompts available";
    "No concepts available";
    "Loading...";
    "Please wait...";
    "Coming soon...";
    "Under construction" ].

(** [for (const selector of selectors)]: [section] is the locator tried
    last; the loop breaks at the first visible one. *)
Fixpoint findSection (selectors : list string) (section : option Locator)
  : M St (option Locator) :=
  match selectors with
  | [] => ret section
  | selector :: selectors' =>
    let section := First (PageLocator selector) in
    visible <- await (isVisible page section) ;;
    if visible then ret (Some section)
    else findSection selectors' (Some section)
  end.

(** The checks on the extracted text. *)
Definition checkContent (minLength : Z) : M St unit :=
  r <- result ;;
  if negb (truthy (orEmpty (content r))) then
    update (setError "Section has no content")
  else if (characterCount r <? minLength)%Z then
    update (setError ("Section too short (" ++ showZ (characterCount r)
                      ++ " chars, expected " ++ showZ minLength ++ "+)"))
  else if somePatternIn sectionPlaceholderPatterns (orEmpty (content r)) then
    update (setError "Section contains placeholder text")
  else
    update (setSectionValid true).

(** The [try] block. *)
Definition validateSectionTry (selectors : list string) (minLength : Z)
  : M St unit :=
  section <- findSection selectors None ;;
  match section with
  | None => update (setError "Section not found or not visible")
  | Some section =>
    visible <- await (isVisible page section) ;;
    if negb visible then
      update (setError "Section not found or not visible")
    else
      text <- await (textContent page (SubLocator section "..")) ;;
      update (setContent (orEmpty text)) ;;
      r <- result ;;
      update (setCharacterCount (jsLength (orEmpty (content r)))) ;;
      checkContent minLength ;;
      r <- result ;;
      if isValid r then
        consoleLog (sectionName r ++ ": " ++ showZ (characterCount r)
                    ++ " characters")
      else
        consoleLog (sectionName r ++ ": " ++ orEmpty (error r))
  end.

(** The [catch] block. *)
Definition validateSectionCatch (error : exn) : M St unit :=
  update (setError ("Error validating section: " ++ error)).

Definition validateSection (sectionName : string) (selectors : list string)
  (minLength : Z) (w : W) : (exn + SectionValidationResult.t) * W :=
  returningResult (initialSectionResult sectionName)
    (validateSectionTry selectors minLength) validateSectionCatch w.

End ValidateSection.

Arguments validateTooltips {W} page w.
Arguments validateTooltipsTry {W} page.
Arguments validateSection {W} page sectionName selectors minLength w.
Arguments validateSectionTry {W} page selectors minLength.

(** *** The property of a text the validator is meant to reject

    [text] contains [phrase] as a substring, letter case apart. *)
Definition spec_containsIgnoringCase (text phrase : string) : Prop :=
  exists before found after,
    text = before ++ found ++ after /\
    toLowerCase found = toLowerCase phrase.

(** *** Contracts of the validators

    Assertions on the [result] object, used to state what the [try] blocks
    establish. *)

(** [triple P c Q Qe]: started with a [result] satisfying [P], the
    computation [c] either yields [a] and leaves a [result] satisfying
    [Q a], or throws and leaves one satisfying [Qe]. *)
Definition triple {W R A : Type} (P : R -> Prop) (c : M (W * R) A)
  (Q : A -> R -> Prop) (Qe : R -> Prop) : Prop :=
  forall w r, P r ->
    match c (w, r) with
    | (inr a, (_, r')) => Q a r'
    | (inl _, (_, r')) => Qe r'
    end.

(** Every [count] on the page answers 0: no selector locates a tooltip. *)
Definition nothingLocated {W : Type} (page : Page W) : Prop :=
  forall l w, fst (count page l w) = inr 0%nat.

(** [k] of the [n] tooltips have been judged: each one either was counted as
    valid or added an error; [isValid] is still [false]. *)
Definition judged (n k : nat) (r : TooltipValidationResult.t) : Prop :=
  TooltipValidationResult.isValid r = false /\
  TooltipValidationResult.tooltipCount r = n /\
  (TooltipValidationResult.validTooltips r
   + length (TooltipValidationResult.errors r) = k)%nat.

(** The [result] when [validateTooltips] returns from its [try] block. *)
Definition tooltipsPost {W : Type} (page : Page W)
  (r : TooltipValidationResult.t) : Prop :=
  (TooltipValidationResult.tooltipCount r = 0%nat ->
     TooltipValidationResult.isValid r = false) /\
  (TooltipValidationResult.isValid r = true ->
     TooltipValidationResult.validTooltips r
       = TooltipValidationResult.tooltipCount r /\
     TooltipValidationResult.errors r = []) /\
  (nothingLocated page ->
     TooltipValidationResult.tooltipCount r = 0%nat /\
     TooltipValidationResult.isValid r = false).

(** The [result] when the [try] block of [validateTooltips] throws. *)
Definition tooltipsThrown {W : Type} (page : Page W)
  (r : TooltipValidationResult.t) : Prop :=
  TooltipValidationResult.isValid r = false /\
  (nothingLocated page -> TooltipValidationResult.tooltipCount r = 0%nat).

(** The [result] of [validateSection] before any text is extracted. *)
Definition noContentYet (r : SectionValidationResult.t) : Prop :=
  SectionValidationResult.isValid r = false /\
  SectionValidationResult.content r = None.

(** The [result] when [validateSection] returns from its [try] block. *)
Definition sectionPost (minLength : Z) (r : SectionValidationResult.t)
  : Prop :=
  (forall text, SectionValidationResult.content r = Some text ->
     SectionValidationResult.characterCount r = jsLength text) /\
  (SectionValidationResult.isValid r = true ->
     exists text, SectionValidationResult.content r = Some text /\
       (minLength <= jsLength text)%Z /\
       somePatternIn sectionPlaceholderPatterns text = false).

(** *** Sample pages *)

(** A page that does not change: [tips] are its tooltip spans, each a term
    and a [data-tooltip] value; [body] is the text around any section. *)
Definition staticPage (tips : list (string * string)) (body : option string)
  : Page unit :=
  {| count := fun l w =>
       (inr (match l with
             | PageLocator sel =>
               if sel =? "span[class*=" ++ dq ++ "tooltip" ++ dq ++ "]"
               then length tips else 0%nat
             | _ => 0%nat
             end), w);
     textContent := fun l w =>
       (inr (match l with
             | Nth _ i => option_map fst (nth_error tips i)
             | _ => body
             end), w);
     getAttribute := fun l name w =>
       (inr (match l with
             | Nth _ i =>
               if name =? "data-tooltip"
               then option_map snd (nth_error tips i) else None
             | _ => None
             end), w);
     isVisible := fun l w =>
       (inr (match body with Some _ => true | None => false end), w) |}.

(** A page whose browser has gone: every call throws. *)
Definition closedPage : Page unit :=
  {| count := fun l w => (inl "Error: Target closed", w);
     textContent := fun l w => (inl "Error: Target closed", w);
     getAttribute := fun l name w => (inl "Error: Target closed", w);
     isVisible := fun l w => (inl "Error: Target closed", w) |}.

Definition wellFormedTips : list (string * string) :=
  [ ("ROI", "Return on investment measures gain") ].

Definition loadingBody : string :=
  "Strategy: this section is still LOADING... and has enough characters to pass".

Definition shortBody : string := "Too short".

Definition strategySelectors : list string :=
  [ "[data-testid=" ++ dq ++ "strategy-section" ++ dq ++ "]";
    "[data-testid=" ++ dq ++ "strategic-section" ++ dq ++ "]";
    "text=How to Strategize Your Decision";
    "text=Strategic Thinking";
    "text=Strategy" ].

End TooltipChecker.

(** ** tests/layout-center.spec.ts *)

Module LayoutCenter.
Import Async JsString.
Import TooltipChecker(Locator, PageLocator, First, Nth, SubLocator, dq).
Local Open Scope string_scope.
Local Open Scope async_scope.

Module Box.
Record t : Type := mk { x : Q; y : Q; width : Q; height : Q }.
End Box.

Module Viewport.
Record t : Type := mk { width : Z; height : Z }.
End Viewport.

(** The part of Playwright's [Page] and [Locator] the layout tests call. *)
Record Page (W : Type) : Type := mkPage {
  goto : string -> W -> (exn + unit) * W;
  waitForLoadState : string -> W -> (exn + unit) * W;
  isVisible : Locator -> W -> (exn + bool) * W;
  viewportSize : W -> option Viewport.t;
  boundingBox : Locator -> W -> (exn + option Box.t) * W;
  screenshot : string -> W -> (exn + unit) * W;
  fill : Locator -> string -> W -> (exn + unit) * W;
  click : Locator -> W -> (exn + unit) * W;
  waitForSelector : string -> Z -> W -> (exn + unit) * W;
  waitForTimeout : Z -> W -> (exn + unit) * W
}.

Arguments goto {W} p url w.
Arguments waitForLoadState {W} p state w.
Arguments isVisible {W} p l w.
Arguments viewportSize {W} p w.
Arguments boundingBox {W} p l w.
Arguments screenshot {W} p path w.
Arguments fill {W} p l value w.
Arguments click {W} p l w.
Arguments waitForSelector {W} p selector timeout w.
Arguments waitForTimeout {W} p timeout w.

(** [Math.abs((box.x + box.width / 2) - viewport.width / 2)] *)
Definition centeringOffset (box : Box.t) (viewportWidth : Z) : Q :=
  let wrapperCenter := (Box.x box + Box.width box / 2)%Q in
  let viewportCenter := (inject_Z viewportWidth / 2)%Q in
  Qabs (wrapperCenter - viewportCenter).

Definition tolerance : Q := 5.

(** [expect(received).toBeLessThanOrEqual(expected)]: throws unless
    [received <= expected]. Of the message thrown, which goes on with the
    two values, the first line is kept. *)
Definition expectLessThanOrEqual {W : Type} (received expected : Q)
  : M W unit :=
  if Qle_bool received expected then ret tt
  else throw "Error: expect(received).toBeLessThanOrEqual(expected)".

Definition wrapperSelectors : list string :=
  [ ".main-wrapper"; ".main-container"; ".app-wrapper"; ".container";
    "main"; "#root > div" ].

Section Tests.
Variable W : Type.
Variable page : Page W.

(** [console.log]: the console is not part of the state. *)
Definition consoleLog (line : string) : M W unit := ret tt.

(** The first visible wrapper among the selectors, or [null]. *)
Fixpoint findWrapper (selectors : list string) : M W (option Locator) :=
  match selectors with
  | [] => ret None
  | selector :: selectors' =>
    let element := First (PageLocator selector) in
    visible <- isVisible page element ;;
    if visible then ret (Some element) else findWrapper selectors'
  end.

(** The wrapper the tests measure: the one found, or [body]. *)
Definition locateWrapper : M W Locator :=
  found <- findWrapper wrapperSelectors ;;
  match found with
  | Some wrapper => ret wrapper
  | None => ret (PageLocator "body")
  end.

(** *** test('main layout wrapper is horizontally centered') *)

(** Up to the screenshot: the offset measured. *)
Definition measureCentering : M W Q :=
  goto page "/" ;;
  waitForLoadState page "networkidle" ;;
  wrapper <- locateWrapper ;;
  w <- get ;;
  match viewportSize page w with
  | None => throw "Error: Viewport size not available"
  | Some viewport =>
    box <- boundingBox page wrapper ;;
    match box with
    | None => throw "Error: Wrapper bounding box not available"
    | Some box =>
      let offset := centeringOffset box (Viewport.width viewport) in
      screenshot page "tests/artifacts/layout-centering-test.png" ;;
      ret offset
    end
  end.

Definition mainLayoutWrapperIsCentered : M W unit :=
  offset <- measureCentering ;;
  expectLessThanOrEqual offset tolerance.

(** *** test('layout centering works with dynamic content') *)

Definition testQuery : string := "How do I make strategic decisions?".

(** Up to the second screenshot: the viewport, the offset before the query
    is submitted and the offset after its response is rendered. *)
Definition measureDynamicContent : M W (Viewport.t * Q * Q) :=
  goto page "/" ;;
  waitForLoadState page "networkidle" ;;
  wrapper <- locateWrapper ;;
  initialBox <- boundingBox page wrapper ;;
  match initialBox with
  | None => throw "Error: Initial wrapper bounding box not available"
  | Some initialBox =>
    w <- get ;;
    match viewportSize page w with
    | None => throw "Error: Viewport size not available"
    | Some viewport =>
      let initialOffset :=
        centeringOffset initialBox (Viewport.width viewport) in
      fill page
        (First (PageLocator ("textarea[placeholder*=" ++ dq
                             ++ "Ask me anything" ++ dq ++ "]")))
        testQuery ;;
      click page
        (First (PageLocator ("button:has-text(" ++ dq ++ "Ask" ++ dq ++ ")"))) ;;
      waitForSelector page
        ("div:has-text(" ++ dq ++ "Strategic" ++ dq ++ "), "
         ++ "div:has-text(" ++ dq ++ "Story" ++ dq ++ "), "
         ++ "div:has-text(" ++ dq ++ "Reflection" ++ dq ++ "), "
         ++ "div:has-text(" ++ dq ++ "Concepts" ++ dq ++ ")")
        30000 ;;
      waitForTimeout page 3000 ;;
      finalBox <- boundingBox page wrapper ;;
      match finalBox with
      | None => throw "Error: Final wrapper bounding box not available"
      | Some finalBox =>
        let finalOffset :=
          centeringOffset finalBox (Viewport.width viewport) in
        screenshot page
          "tests/artifacts/layout-centering-dynamic-content.png" ;;
        ret (viewport, initialOffset, finalOffset)
      end
    end
  end.

(** The largest change of the offset the test accepts. *)
Definition maxChange (viewport : Viewport.t) : Q :=
  let isMobile := (Viewport.width viewport <=? 768)%Z in
  if isMobile then 5 else 2.

(** The two assertions that end the test. *)
Definition assertDynamicContent (viewport : Viewport.t)
  (initialOffset finalOffset : Q) : M W unit :=
  expectLessThanOrEqual finalOffset tolerance ;;
  let centeringChange := Qabs (finalOffset - initialOffset) in
  expectLessThanOrEqual centeringChange (maxChange viewport) ;;
  consoleLog "Dynamic content centering validated!".

Definition layoutCenteringWorksWithDynamicContent : M W unit :=
  measured <- measureDynamicContent ;;
  let '(viewport, initialOffset, finalOffset) := measured in
  assertDynamicContent viewport initialOffset finalOffset.

End Tests.

Arguments measureCentering {W} page.
Arguments mainLayoutWrapperIsCentered {W} page.
Arguments measureDynamicContent {W} page.
Arguments assertDynamicContent {W} viewport initialOffset finalOffset.
Arguments layoutCenteringWorksWithDynamicContent {W} page.

(** *** A sample page

    The world is the number of queries answered so far. The wrapper is
    [main]; it sits [initialX] from the left edge before the response is
    rendered and [finalX] after. *)
Definition reflowingPage (viewport : Viewport.t) (wrapperWidth : Q)
  (initialX finalX : Q) : Page nat :=
  {| goto := fun _ w => (inr tt, w);
     waitForLoadState := fun _ w => (inr tt, w);
     isVisible := fun l w =>
       (inr (match l with
             | First (PageLocator sel) => sel =? "main"
             | _ => false
             end), w);
     viewportSize := fun _ => Some viewport;
     boundingBox := fun _ w =>
       (inr (Some {| Box.x := match w with O => initialX | S _ => finalX end;
                     Box.y := 0;
                     Box.width := wrapperWidth;
                     Box.height := 600 |}), w);
     screenshot := fun _ w => (inr tt, w);
     fill := fun _ _ w => (inr tt, w);
     click := fun _ w => (inr tt, S w);
     waitForSelector := fun _ _ w => (inr tt, w);
     waitForTimeout := fun _ w => (inr tt, w) |}.

Definition tabletPortrait : Viewport.t :=
  {| Viewport.width := 768; Viewport.height := 1024 |}.

Definition laptop : Viewport.t :=
  {| Viewport.width := 1366; Viewport.height := 768 |}.

End LayoutCenter.

(** ** tests/helpers/retry-helper.ts: retryPageOperation *)

Module RetryPageOperation.
Import Async JsString JsNumber RetryHelper.
Local Open Scope string_scope.

(** [s.replace(/\s+/g, '-')]: every maximal run of white space becomes one
    hyphen. [inRun] tells that the character before was white space. *)
Fixpoint replaceWhiteSpaceRuns (inRun : bool) (s : string) : string :=
  match s with
  | EmptyString => EmptyString
  | String c s' =>
    if isWhiteSpace c then
      if inRun then replaceWhiteSpaceRuns true s'
      else String "-" (replaceWhiteSpaceRuns true s')
    else String c (replaceWhiteSpaceRuns false s')
  end.

(** [operationName.toLowerCase().replace(/\s+/g, '-')] *)
Definition sanitizeName (operationName : string) : string :=
  replaceWhiteSpaceRuns false (toLowerCase operationName).

(** [`test-results/${...}-attempt-${attempt}.png`] *)
Definition screenshotPath (operationName : string) (attempt : Z) : string :=
  "test-results/" ++ sanitizeName operationName ++ "-attempt-"
  ++ showZ attempt ++ ".png".

Section RetryPage.
Variable Math_pow : number -> number -> number.
Variables W E T : Type.
Variable operation : W -> (E + T) * W.
Variable setTimeout : number -> W -> W.

(** [page.screenshot({ path })] *)
Variable screenshot : string -> W -> (exn + unit) * W.

Inductive PageLogLine : Type :=
| Named (l : LogLine E)
| LogScreenshotSaved (screenshotPath : string)
| LogScreenshotFailed (screenshotError : exn).

Inductive PageEvent : Type :=
| PEvAttempt (attempt : Z) (r : E + T)
| PEvScreenshot (path : string) (r : exn + unit)
| PEvSleep (delay : number)
| PEvLog (l : PageLogLine).

Definition PageRun : Type := Outcome E T * list PageEvent * W.

Definition pageAndThen (pre : list PageEvent) (r : option PageRun)
  : option PageRun :=
  match r with
  | Some (o, tr, w) => Some (o, (pre ++ tr)%list, w)
  | None => None
  end.

(** The inner [try]/[catch] around the screenshot: whatever it does, control
    goes on after it. *)
Definition captureScreenshot (operationName : string) (attempt : Z) (w : W)
  : list PageEvent * W :=
  let path := screenshotPath operationName attempt in
  match screenshot path w with
  | (inr tt, w') =>
    ([PEvScreenshot path (inr tt); PEvLog (LogScreenshotSaved path)], w')
  | (inl screenshotError, w') =>
    ([PEvScreenshot path (inl screenshotError);
      PEvLog (LogScreenshotFailed screenshotError)], w')
  end.

Fixpoint retryPageLoop (operationName : string) (config : RetryOptions)
  (fuel : nat) (attempt : Z) (lastError : option E) (w : W)
  : option PageRun :=
  match fuel with
  | O => None
  | S fuel' =>
    if (attempt <=? maxRetries config)%Z then
      let announce :=
        PEvLog (Named (LogNamedAttempt E operationName attempt
                         (maxRetries config))) in
      match operation w with
      | (inr result, w1) =>
        Some (Returned result,
              announce :: PEvAttempt attempt (inr result) ::
                (if (1 <? attempt)%Z
                 then [PEvLog (Named (LogNamedSucceeded E operationName
                                        attempt))]
                 else []),
              w1)
      | (inl error, w1) =>
        let '(shot, w2) := captureScreenshot operationName attempt w1 in
        let failed :=
          ([announce; PEvAttempt attempt (inl error);
            PEvLog (Named (LogNamedFailed E operationName attempt error))]
           ++ shot)%list in
        if (attempt =? maxRetries config)%Z then
          Some (Thrown (Some error),
                (failed ++ [PEvLog (Named (LogNamedFailedAfter E operationName
                                             (maxRetries config)))])%list,
                w2)
        else
          let delay := backoffDelay Math_pow config attempt in
          pageAndThen
            (failed ++ [PEvLog (Named (LogNamedRetrying E operationName delay));
                        PEvSleep delay])%list
            (retryPageLoop operationName config fuel' (attempt + 1)
               (Some error) (setTimeout delay w2))
      end
    else Some (Thrown lastError, [], w)
  end.

Definition retryPageOperation (operationName : string)
  (options : PartialRetryOptions) (w : W) : option PageRun :=
  let config := mergeOptions DEFAULT_RETRY_OPTIONS options in
  retryPageLoop operationName config (loopFuel config) 1 None w.

(** *** Reading a trace *)

Fixpoint pageAttempts (tr : list PageEvent) : list (Z * (E + T)) :=
  match tr with
  | [] => []
  | PEvAttempt n r :: tr' => (n, r) :: pageAttempts tr'
  | _ :: tr' => pageAttempts tr'
  end.

Fixpoint pageSleeps (tr : list PageEvent) : list number :=
  match tr with
  | [] => []
  | PEvSleep d :: tr' => d :: pageSleeps tr'
  | _ :: tr' => pageSleeps tr'
  end.

(** The paths of the screenshots tried, whether or not they were saved. *)
Fixpoint screenshotsTried (tr : list PageEvent) : list string :=
  match tr with
  | [] => []
  | PEvScreenshot path _ :: tr' => path :: screenshotsTried tr'
  | _ :: tr' => screenshotsTried tr'
  end.

End RetryPage.

Arguments PEvAttempt {E T} attempt r.
Arguments PEvScreenshot {E T} path r.
Arguments PEvSleep {E T} delay.
Arguments PEvLog {E T} l.
Arguments retryPageLoop Math_pow {W E T} operation setTimeout screenshot
  operationName config fuel attempt lastError w.
Arguments retryPageOperation Math_pow {W E T} operation setTimeout screenshot
  operationName options w.
Arguments captureScreenshot {W E T} screenshot operationName attempt w.
Arguments pageAttempts {E T} tr.
Arguments pageSleeps {E T} tr.
Arguments screenshotsTried {E T} tr.

(** The attempt numbers [first], [first + 1], ... of [n] attempts. *)
Fixpoint attemptNumbers (first : Z) (n : nat) : list Z :=
  match n with
  | O => []
  | S n' => first :: attemptNumbers (first + 1) n'
  end.

(** The time a run asks to be suspended for: the sum of its delays, a delay
    that is not a finite number counting for nothing. *)
Definition totalDelay (delays : list number) : Q :=
  fold_right (fun d total => (valueOf d + total)%Q) 0%Q delays.

(** [r] is a rejection. *)
Definition isRejected {E T : Type} (r : E + T) : bool :=
  match r with inl _ => true | inr _ => false end.

(** How a call whose last invocation gave [r] ends. *)
Definition outcomeOf {E T : Type} (r : E + T) : Outcome E T :=
  match r with
  | inl e => Thrown (Some e)
  | inr v => Returned v
  end.

(** The form of every run with [maxRetries >= 1]: invocations numbered
    from 1, all rejected but possibly the last; after each rejected one that
    is not the last, the suspension computed from its number; the call ends
    as its last invocation ended, and it throws only once [maxRetries]
    invocations were made. *)
Definition wellShaped {E T : Type} (Math_pow : number -> number -> number)
  (config : RetryOptions)
  (o : Outcome E T) (tried : list (Z * (E + T))) (delays : list number)
  : Prop :=
  exists (fails : list (Z * (E + T))) (last : E + T),
    let n := 1 + Z.of_nat (length fails) in
    tried = (fails ++ [(n, last)])%list /\
    map fst fails = attemptNumbers 1 (length fails) /\
    Forall (fun p => isRejected (snd p) = true) fails /\
    delays = map (backoffDelay Math_pow config) (map fst fails) /\
    (n <= maxRetries config)%Z /\
    o = outcomeOf last /\
    (isRejected last = true -> n = maxRetries config).

(** The screenshots a run should have tried: one per rejected invocation. *)
Definition screenshotsDue {E T : Type} (operationName : string)
  (tried : list (Z * (E + T))) : list string :=
  map (fun p => screenshotPath operationName (fst p))
      (filter (fun p => isRejected (snd p)) tried).

(** *** Samples *)

(** A browser that cannot take screenshots. *)
Definition noScreenshots (path : string) (w : nat) : (exn + unit) * nat :=
  (inl "Error: Target closed", w).

(** An operation that rejects twice and then resolves. *)
Definition thirdTimeLucky (w : nat) : (nat + string) * nat :=
  (if (w <? 2)%nat then inl w else inr "rendered", S w).

Definition noAttempts : PartialRetryOptions :=
  {| optMaxRetries := Some 0; optBaseDelay := None;
     optMaxDelay := None; optBackoffMultiplier := None |}.

End RetryPageOperation.

(** ** tests/helpers/readiness-checker.ts: waitForAppReady *)

Module ReadinessWait.
Import Async JsString ReadinessChecker.
Local Open Scope string_scope.

Section Wait.
Variable W : Type.
Variable requestGet : string -> W -> (exn + Z) * W.
Variable dateNow : W -> Z.
Variable setTimeout : Q -> W -> W.

Definition WaitRun : Type := (exn + bool) * list Event * W.

Definition waitAndThen (pre : list Event) (r : option WaitRun)
  : option WaitRun :=
  match r with
  | Some (x, tr, w) => Some (x, (pre ++ tr)%list, w)
  | None => None
  end.

(** The pause between two checks. *)
Definition checkInterval : Z := 2000.

(** The [while (Date.now() - startTime < timeoutMs)] loop and the [return
    false] after it; [None] when [fuel] iterations were not enough to leave
    the loop. *)
Fixpoint waitLoop (fuel : nat) (startTime timeoutMs : Z) (w : W)
  : option WaitRun :=
  match fuel with
  | O => None
  | S fuel' =>
    if (dateNow w - startTime <? timeoutMs)%Z then
      match checkAppReadiness W requestGet dateNow setTimeout w with
      | None => None
      | Some (inl e, tr, w1) => Some (inl e, tr, w1)
      | Some (inr result, tr, w1) =>
        if isReady result then Some (inr true, tr, w1)
        else
          waitAndThen (tr ++ [EvSleep (inject_Z checkInterval)])%list
            (waitLoop fuel' startTime timeoutMs
               (setTimeout (inject_Z checkInterval) w1))
      end
    else
      Some (inr false,
            [EvLog ("App failed to be ready within " ++ showZ timeoutMs
                    ++ "ms")], w)
  end.

Definition waitForAppReady (fuel : nat) (timeoutMs : Z) (w : W)
  : option WaitRun :=
  waitAndThen
    [EvLog ("Waiting for app to be ready (timeout: " ++ showZ timeoutMs
            ++ "ms)...")]
    (waitLoop fuel (dateNow w) timeoutMs w).

End Wait.

(** The default of [timeoutMs]. *)
Definition defaultTimeoutMs : Z := 30000.

(** The [error] of the result of [checkAppReadiness], read off the last
    response it got. *)
Definition reportedError (last : exn + Z) : option string :=
  match last with
  | inr status =>
    if (status =? 200)%Z then None
    else Some ("App responded with status " ++ showZ status)
  | inl e => Some ("Connection failed: " ++ e)
  end.

(** *** Sample worlds: a clock and a number of requests received *)

(** A server that answers 503 to its first [n] requests and 200 after, on a
    clock that each request advances by 5 ms. *)
Definition warmingServer (n : nat) (url : string) (w : Z * nat)
  : (exn + Z) * (Z * nat) :=
  (inr (if (snd w <? n)%nat then 503 else 200)%Z, (fst w + 5, S (snd w))%Z).

Definition clockOf (w : Z * nat) : Z := fst w.

(** A [setTimeout] that lasts as long as asked (rounded down). *)
Definition elapse (delay : Q) (w : Z * nat) : Z * nat :=
  (fst w + Qfloor delay, snd w)%Z.

(** A [setTimeout] on a clock that stands still. *)
Definition frozen (delay : Q) (w : Z * nat) : Z * nat := w.

(** A server that answers 503 to every request, in no time. *)
Definition stalledServer (url : string) (w : Z * nat)
  : (exn + Z) * (Z * nat) :=
  (inr 503%Z, w).

End ReadinessWait.

(** ** tests/helpers/readiness-checker.ts: validateAppInterface *)

Module AppInterface.
Import Async JsString.
Import TooltipChecker(Locator, PageLocator, First, Nth, SubLocator, dq, Page,
  count, textContent, getAttribute, isVisible, await, update, result,
  consoleLog).
Local Open Scope string_scope.
Local Open Scope async_scope.

Record InterfaceResult : Type := mkInterfaceResult {
  isValid : bool;
  errors : list string
}.

Definition queryInputSelector : string :=
  "[data-testid=" ++ dq ++ "query-input" ++ dq ++ "], input[type=" ++ dq
  ++ "text" ++ dq ++ "], textarea, [contenteditable=" ++ dq ++ "true" ++ dq
  ++ "]".

Definition askButtonSelector : string :=
  "[data-testid=" ++ dq ++ "ask-button" ++ dq ++ "], button:has-text(" ++ dq
  ++ "Ask" ++ dq ++ "), button:has-text(" ++ dq ++ "Submit" ++ dq
  ++ "), button[type=" ++ dq ++ "submit" ++ dq ++ "]".

Definition loadingSelector : string :=
  "[class*=" ++ dq ++ "loading" ++ dq ++ "], [class*=" ++ dq ++ "spinner"
  ++ dq ++ "], [class*=" ++ dq ++ "loader" ++ dq ++ "]".

Definition queryInput : Locator := First (PageLocator queryInputSelector).
Definition askButton : Locator := First (PageLocator askButtonSelector).
Definition loadingIndicators : Locator := PageLocator loadingSelector.

Definition push (e : string) (errors : list string) : list string :=
  (errors ++ [e])%list.

Section Validate.
Variable W : Type.
Variable page : Page W.

(** The state: the page's world and the [errors] array. *)
Local Abbreviation St := (W * list string)%type.

(** The [try] block. *)
Definition validateAppInterfaceTry : M St InterfaceResult :=
  visible <- await (isVisible page queryInput) ;;
  (if negb visible
   then update (push "Query input field not found or not visible")
   else ret tt) ;;
  visible <- await (isVisible page askButton) ;;
  (if negb visible
   then update (push "Ask/Submit button not found or not visible")
   else ret tt) ;;
  loadingCount <- await (count page loadingIndicators) ;;
  (if (0 <? loadingCount)%nat
   then consoleLog ("Found " ++ showZ (Z.of_nat loadingCount)
                    ++ " loading indicators - app may still be starting")
   else ret tt) ;;
  errors <- result ;;
  if (length errors =? 0)%nat then
    consoleLog "App interface validation passed" ;;
    ret {| isValid := true; errors := [] |}
  else
    consoleLog ("App interface validation failed: "
                ++ showZ (Z.of_nat (length errors)) ++ " errors") ;;
    ret {| isValid := false; errors := errors |}.

(** The [catch] block. *)
Definition validateAppInterfaceCatch (error : exn) : M St InterfaceResult :=
  update (push ("Error validating app interface: " ++ error)) ;;
  errors <- result ;;
  ret {| isValid := false; errors := errors |}.

Definition validateAppInterface (w : W) : (exn + InterfaceResult) * W :=
  match tryCatch validateAppInterfaceTry validateAppInterfaceCatch (w, [])
  with
  | (x, (w', _)) => (x, w')
  end.

End Validate.

Arguments validateAppInterface {W} page w.

(** The errors for the controls that are not visible, in the order they are
    looked for. *)
Definition missingControls (hasInput hasButton : bool) : list string :=
  ((if hasInput then []
    else ["Query input field not found or not visible"])
   ++ (if hasButton then []
       else ["Ask/Submit button not found or not visible"]))%list.

(** *** Sample pages *)

(** A page with the given controls, that does not change. *)
Definition controlsPage (hasInput hasButton : bool) (loading : nat)
  : Page unit :=
  {| count := fun l w => (inr loading, w);
     textContent := fun l w => (inr None, w);
     getAttribute := fun l name w => (inr None, w);
     isVisible := fun l w =>
       (inr (match l with
             | First (PageLocator sel) =>
               if sel =? queryInputSelector then hasInput
               else if sel =? askButtonSelector then hasButton
               else false
             | _ => false
             end), w) |}.

End AppInterface.

(** ** tests/helpers/tooltip-checker.ts: validateAllSections *)

Module AllSections.
Import Async JsString TooltipChecker.
Local Open Scope string_scope.

Record AllSectionsResult : Type := mkAllSections {
  isValid : bool;
  results : list SectionValidationResult.t;
  errors : list string
}.

(** The five sections, each with the selectors tried for it. *)
Definition sections : list (string * list string) :=
  [ ("How to Strategize Your Decision",
     [ "[data-testid=" ++ dq ++ "strategy-section" ++ dq ++ "]";
       "[data-testid=" ++ dq ++ "strategic-section" ++ dq ++ "]";
       "text=How to Strategize Your Decision";
       "text=Strategic Thinking";
       "text=Strategy" ]);
    ("Story in Action",
     [ "[data-testid=" ++ dq ++ "story-section" ++ dq ++ "]";
       "text=Story in Action";
       "text=Example";
       "text=Case Study" ]);
    ("Analytical Tools",
     [ "[data-testid=" ++ dq ++ "tools-section" ++ dq ++ "]";
       "[data-testid=" ++ dq ++ "analytical-section" ++ dq ++ "]";
       "text=Analytical Tools";
       "text=Tools";
       "text=Analysis" ]);
    ("Reflection Prompts",
     [ "[data-testid=" ++ dq ++ "prompts-section" ++ dq ++ "]";
       "[data-testid=" ++ dq ++ "reflection-section" ++ dq ++ "]";
       "text=Reflection Prompts";
       "text=Prompts";
       "text=Questions" ]);
    ("Concepts/Tools/Practice Reference",
     [ "[data-testid=" ++ dq ++ "concepts-section" ++ dq ++ "]";
       "[data-testid=" ++ dq ++ "reference-section" ++ dq ++ "]";
       "text=Concepts/Tools/Practice Reference";
       "text=Key Concepts";
       "text=Concepts" ]) ].

(** The default of [minLength] in [validateSection]. *)
Definition defaultMinLength : Z := 50.

(** [`${x}`] for an optional string. *)
Definition showOptional (o : option string) : string :=
  match o with Some s => s | None => "undefined" end.

(** The line [validateAllSections] writes for a section that is not valid. *)
Definition errorLine (name : string) (r : SectionValidationResult.t)
  : string :=
  name ++ ": " ++ showOptional (SectionValidationResult.error r).

Section Validate.
Variable W : Type.
Variable page : Page W.

(** [for (const section of sections)], with the arrays [results] and
    [errors] built so far. *)
Fixpoint validateSectionsLoop (todo : list (string * list string))
  (results : list SectionValidationResult.t) (errors : list string) (w : W)
  : (exn + list SectionValidationResult.t * list string) * W :=
  match todo with
  | [] => (inr (results, errors), w)
  | (name, selectors) :: todo' =>
    match validateSection page name selectors defaultMinLength w with
    | (inl e, w') => (inl e, w')
    | (inr r, w') =>
      validateSectionsLoop todo' (results ++ [r])%list
        (if negb (SectionValidationResult.isValid r)
         then (errors ++ [errorLine name r])%list else errors)
        w'
    end
  end.

Definition validateAllSections (w : W) : (exn + AllSectionsResult) * W :=
  match validateSectionsLoop sections [] [] w with
  | (inl e, w') => (inl e, w')
  | (inr (results, errors), w') =>
    (inr {| isValid := forallb SectionValidationResult.isValid results;
            results := results;
            errors := errors |}, w')
  end.

End Validate.

Arguments validateAllSections {W} page w.
Arguments validateSectionsLoop {W} page todo results errors w.

(** The lines for the results that are not valid, in order. *)
Definition errorLines (rs : list SectionValidationResult.t) : list string :=
  map (fun r => errorLine (SectionValidationResult.sectionName r) r)
      (filter (fun r => negb (SectionValidationResult.isValid r)) rs).

(** The names of the sections, in the order they are validated. *)
Definition sectionNames : list string := map fst sections.

(** The text of a valid section: long enough, free of placeholders. *)
Definition meaningful (minLength : Z) (r : SectionValidationResult.t)
  : Prop :=
  exists text,
    SectionValidationResult.content r = Some text /\
    (minLength <= jsLength text)%Z /\
    forall phrase, In phrase sectionPlaceholderPatterns ->
      ~ spec_containsIgnoringCase text phrase.

(** *** Samples *)

Definition readyBody : string :=
  "Strategy: this section is ready and has enough characters to pass".

End AllSections.

(** ** What [validateTooltips] records of each tooltip *)

Module TooltipRules.
Import Async JsString TooltipChecker.
Local Open Scope string_scope.

(** The quality rules a tooltip is judged by: a term of at least 2
    characters, a text of at least 15, no placeholder phrase. *)
Definition meetsRules (d : TooltipDetail.t) : bool :=
  (2 <=? jsLength (TooltipDetail.term d))%Z
  && (15 <=? jsLength (TooltipDetail.tooltip d))%Z
  && negb (somePatternIn tooltipPlaceholderPatterns (TooltipDetail.tooltip d)).

(** The error recorded for a term and a tooltip text: that of the first
    check they fail, in the order of the checks; none when they pass all. *)
Definition brokenRule (term tooltip : string) : option string :=
  if negb (truthy term) then Some "Missing term text"
  else if (jsLength term <? 2)%Z then
    Some "Term too short (minimum 2 characters)"
  else if negb (truthy tooltip) then Some "Missing tooltip content"
  else if (jsLength tooltip <? 15)%Z then
    Some ("Tooltip too short (" ++ showZ (jsLength tooltip)
          ++ " chars, minimum 15)")
  else if somePatternIn tooltipPlaceholderPatterns tooltip then
    Some ("Tooltip contains placeholder text: " ++ dq ++ tooltip ++ dq)
  else None.

(** A detail is marked and annotated as the rules say of its term and
    text. *)
Definition judgedByRules (d : TooltipDetail.t) : Prop :=
  TooltipDetail.isValid d = meetsRules d /\
  TooltipDetail.error d
    = brokenRule (TooltipDetail.term d) (TooltipDetail.tooltip d).

(** The line written to [errors] for a tooltip that is not valid. *)
Definition tooltipErrorLine (d : TooltipDetail.t) : string :=
  TooltipDetail.term d ++ ": " ++ orEmpty (TooltipDetail.error d).

Definition invalidLines (ds : list TooltipDetail.t) : list string :=
  map tooltipErrorLine (filter (fun d => negb (TooltipDetail.isValid d)) ds).

(** The record kept of the tooltips judged so far is consistent. *)
Definition recorded (n : nat) (r : TooltipValidationResult.t) : Prop :=
  TooltipValidationResult.isValid r = false /\
  TooltipValidationResult.tooltipCount r = n /\
  Forall judgedByRules (TooltipValidationResult.details r) /\
  TooltipValidationResult.validTooltips r
    = length (filter TooltipDetail.isValid (TooltipValidationResult.details r)) /\
  TooltipValidationResult.errors r
    = invalidLines (TooltipValidationResult.details r).

(** The record when [validateTooltips] returns: [extra] is what [errors]
    holds besides the lines of the details. *)
Definition returnedRecord (r : TooltipValidationResult.t)
  (extra : list string) : Prop :=
  Forall judgedByRules (TooltipValidationResult.details r) /\
  TooltipValidationResult.validTooltips r
    = length (filter TooltipDetail.isValid (TooltipValidationResult.details r)) /\
  TooltipValidationResult.errors r
    = (invalidLines (TooltipValidationResult.details r) ++ extra)%list /\
  (length (TooltipValidationResult.details r)
   <= TooltipValidationResult.tooltipCount r)%nat.

(** A sample: one good tooltip, one with a term too short, one placeholder. *)
Definition mixedTips : list (string * string) :=
  [ ("ROI", "Return on investment measures gain");
    ("x", "A variable that is yet to be determined");
    ("Risk", "Loading... please stand by") ].

End TooltipRules.

(** ** Selector fallbacks *)

Module SelectorFallback.
Import JsString TooltipChecker.
Local Open Scope string_scope.

(** The first selector whose first element is visible. *)
Definition firstVisible (vis : Locator -> bool) (selectors : list string)
  : option string :=
  find (fun selector => vis (First (PageLocator selector))) selectors.

(** The count the fallback chain of [validateTooltips] settles on: that of
    the first selector that matches something, or of the last one. *)
Definition locatedCount (cnt : Locator -> nat) : nat :=
  let byClass :=
    cnt (PageLocator ("span[class*=" ++ dq ++ "tooltip" ++ dq ++ "]")) in
  let byData := cnt (PageLocator "[data-tooltip]") in
  let byTitle := cnt (PageLocator "[title]") in
  if (byClass =? 0)%nat
  then if (byData =? 0)%nat then byTitle else byData
  else byClass.

(** A page with no tooltip span and two elements that have a title. *)
Definition titledPage : Page unit :=
  {| count := fun l w =>
       (inr (match l with
             | PageLocator sel => if sel =? "[title]" then 2%nat else 0%nat
             | _ => 0%nat
             end), w);
     textContent := fun l w => (inr (Some "Net present value"), w);
     getAttribute := fun l name w =>
       (inr (if name =? "title"
             then Some "Value today of the cash flows to come"
             else None), w);
     isVisible := fun l w => (inr true, w) |}.

End SelectorFallback.

(** ** What [validateTooltips] reads of each element *)

Module TooltipReading.
Import JsString TooltipChecker TooltipRules SelectorFallback.
Local Open Scope string_scope.

(** The locator the fallback chain of [validateTooltips] settles on. *)
Definition locatedBy (cnt : Locator -> nat) : Locator :=
  let byClass := PageLocator ("span[class*=" ++ dq ++ "tooltip" ++ dq ++ "]") in
  let byData := PageLocator "[data-tooltip]" in
  let byTitle := PageLocator "[title]" in
  if (cnt byClass =? 0)%nat
  then if (cnt byData =? 0)%nat then byTitle else byData
  else byClass.

(** [a || b || c || ''] over the attributes [data-tooltip], [title] and
    [aria-label] of an element. *)
Definition tooltipTextFrom (attr : string -> option string) : string :=
  if truthy (orEmpty (attr "data-tooltip")) then orEmpty (attr "data-tooltip")
  else if truthy (orEmpty (attr "title")) then orEmpty (attr "title")
  else orEmpty (attr "aria-label").

(** The detail recorded for an element whose text content is [text] and
    whose attributes are [attr]. *)
Definition detailOf (text : option string) (attr : string -> option string)
  : TooltipDetail.t :=
  let term := trim (orEmpty text) in
  let tooltip := trim (tooltipTextFrom attr) in
  {| TooltipDetail.term := term;
     TooltipDetail.tooltip := tooltip;
     TooltipDetail.isValid :=
       match brokenRule term tooltip with None => true | Some _ => false end;
     TooltipDetail.error := brokenRule term tooltip |}.

(** The details of the elements located, in order, on a page where the
    locator [l] matches [cnt l] elements, has text content [text l] and has
    attributes [attr l]. *)
Definition detailsRead (cnt : Locator -> nat) (text : Locator -> option string)
  (attr : Locator -> string -> option string) : list TooltipDetail.t :=
  map (fun i => let element := Nth (locatedBy cnt) i in
                detailOf (text element) (attr element))
      (seq 0 (locatedCount cnt)).

(** *** What the sample page [staticPage tips body] answers *)

Definition staticCount (tips : list (string * string)) (l : Locator) : nat :=
  match l with
  | PageLocator sel =>
    if sel =? "span[class*=" ++ dq ++ "tooltip" ++ dq ++ "]"
    then length tips else 0%nat
  | _ => 0%nat
  end.

Definition staticText (tips : list (string * string)) (body : option string)
  (l : Locator) : option string :=
  match l with
  | Nth _ i => option_map fst (nth_error tips i)
  | _ => body
  end.

Definition staticAttr (tips : list (string * string)) (l : Locator)
  (name : string) : option string :=
  match l with
  | Nth _ i =>
    if name =? "data-tooltip"
    then option_map snd (nth_error tips i) else None
  | _ => None
  end.

End TooltipReading.

(* ================================================================== *)
(** * Part II: properties *)
(* ================================================================== *)

(** ** Numbers *)

Module NumberFacts.
Import JsNumber.

Lemma SFcompare_refl (x : spec_float) : SFcompare x x <> Some Lt.
Proof.
  destruct x as [s|s| |s m e]; simpl; try destruct s; try discriminate;
    rewrite Z.compare_refl; change (Pos.compare_cont Eq m m) with (m ?= m)%positive;
    rewrite Pos.compare_refl; discriminate.
Qed.

Lemma ltb_irrefl (x : number) : (x <? x)%float = false.
Proof.
  rewrite FloatAxioms.ltb_spec. unfold SFltb.
  pose proof (SFcompare_refl (Prim2SF x)) as H.
  destruct (SFcompare _ _) as [[]|]; congruence.
Qed.

Lemma ltb_nan_r (x : number) : (x <? PrimFloat.nan)%float = false.
Proof.
  rewrite FloatAxioms.ltb_spec. change (Prim2SF PrimFloat.nan) with S754_nan.
  unfold SFltb. now destruct (Prim2SF x).
Qed.

Lemma is_zero_spec (x : number) :
  is_zero x = true -> exists s, Prim2SF x = S754_zero s.
Proof.
  unfold is_zero. rewrite FloatAxioms.eqb_spec.
  change (Prim2SF PrimFloat.zero) with (S754_zero false).
  unfold SFeqb. destruct (Prim2SF x) as [s|s| |s m e]; simpl; eauto;
    try destruct s; discriminate.
Qed.

Lemma ltb_zero_zero (x y : number) :
  is_zero x = true -> is_zero y = true -> (x <? y)%float = false.
Proof.
  intros Hx Hy. destruct (is_zero_spec x Hx) as [s Hs].
  destruct (is_zero_spec y Hy) as [s' Hs'].
  rewrite FloatAxioms.ltb_spec, Hs, Hs'. reflexivity.
Qed.

(** [Math.min] never gives more than its second argument. *)
Lemma Math_min_le_r (a b : number) : (b <? Math_min a b)%float = false.
Proof.
  unfold Math_min.
  destruct (is_nan a || is_nan b); [apply ltb_nan_r|].
  destruct (is_zero a && is_zero b) eqn:Hz.
  - apply andb_true_iff in Hz. destruct Hz as [_ Hb].
    destruct (get_sign a || get_sign b); apply ltb_zero_zero; auto.
  - destruct (b <? a)%float eqn:Hlt; [apply ltb_irrefl|exact Hlt].
Qed.


Lemma digits2_pos_bounds (m : positive) :
  2 ^ (Zpos (digits2_pos m) - 1) <= Zpos m < 2 ^ Zpos (digits2_pos m).
Proof.
  induction m as [m IH|m IH|]; cbn [digits2_pos].
  - rewrite Pos2Z.inj_succ.
    replace (Z.succ (Zpos (digits2_pos m)) - 1)
      with (Z.succ (Zpos (digits2_pos m) - 1)) by lia.
    rewrite !Z.pow_succ_r by lia. lia.
  - rewrite Pos2Z.inj_succ.
    replace (Z.succ (Zpos (digits2_pos m)) - 1)
      with (Z.succ (Zpos (digits2_pos m) - 1)) by lia.
    rewrite !Z.pow_succ_r by lia. lia.
  - simpl. lia.
Qed.

(** What it is for a mantissa and an exponent to be those of a double. *)
Lemma bounded_spec (m : positive) (e : Z) :
  bounded prec emax m e = true ->
  -1074 <= e /\ Zpos m < 2 ^ 53 /\ (-1074 < e -> 2 ^ 52 <= Zpos m).
Proof.
  unfold bounded, canonical_mantissa, fexp, SpecFloat.emin, prec, emax.
  intro H. apply andb_true_iff in H. destruct H as [H _].
  apply Z.eqb_eq in H.
  pose proof (digits2_pos_bounds m) as [Hlo Hhi].
  set (d := Zpos (digits2_pos m)) in *.
  assert (Hd : d <= 53) by lia.
  split; [lia|]. split.
  - eapply Z.lt_le_trans; [exact Hhi|]. apply Z.pow_le_mono_r; lia.
  - intro He. assert (d = 53) by lia. subst d.
    replace 52 with (Zpos (digits2_pos m) - 1) by lia. exact Hlo.
Qed.

Lemma Qpower_2_pos (e : Z) : (0 < 2 ^ e)%Q.
Proof. apply Qpower_0_lt. reflexivity. Qed.

(** Scaling by a power of two keeps the order. *)
Lemma scaled_le (m1 m2 e1 e2 : Z) :
  e1 <= e2 -> m1 <= m2 * 2 ^ (e2 - e1) ->
  (inject_Z m1 * 2 ^ e1 <= inject_Z m2 * 2 ^ e2)%Q.
Proof.
  intros He Hm.
  replace e2 with ((e2 - e1) + e1) at 1 by lia.
  rewrite Qpower_plus by discriminate.
  rewrite Qmult_assoc.
  apply Qmult_le_compat_r; [|apply Qlt_le_weak, Qpower_2_pos].
  change 2%Q with (inject_Z 2).
  rewrite <- Zpower_Qpower by lia.
  rewrite <- inject_Z_mult. now rewrite <- Zle_Qle.
Qed.

(** Among the doubles that are positive, the order of the exponents, and
    of the mantissas under one exponent, is the order of the values. *)
Lemma magnitude_le (m1 m2 : positive) (e1 e2 : Z) :
  bounded prec emax m1 e1 = true -> bounded prec emax m2 e2 = true ->
  e1 < e2 \/ (e1 = e2 /\ (m1 <= m2)%positive) ->
  (inject_Z (Zpos m1) * 2 ^ e1 <= inject_Z (Zpos m2) * 2 ^ e2)%Q.
Proof.
  intros H1 H2 Hcmp.
  apply bounded_spec in H1, H2.
  destruct H1 as (Hmin1 & Hhi1 & _). destruct H2 as (_ & _ & Hlo2).
  destruct Hcmp as [He|[-> Hm]].
  - apply scaled_le; [lia|].
    assert (2 ^ 1 <= 2 ^ (e2 - e1)) by (apply Z.pow_le_mono_r; lia).
    specialize (Hlo2 ltac:(lia)). change (2 ^ 1) with 2 in *.
    change (2 ^ 53) with 9007199254740992 in *.
    change (2 ^ 52) with 4503599627370496 in *. nia.
  - apply scaled_le; [lia|]. rewrite Z.sub_diag. simpl. lia.
Qed.


Lemma positive_value (m : positive) (e : Z) :
  (0 <= inject_Z (Zpos m) * 2 ^ e)%Q.
Proof.
  apply Qmult_le_0_compat; [|apply Qlt_le_weak, Qpower_2_pos].
  change 0%Q with (inject_Z 0). rewrite <- Zle_Qle. lia.
Qed.

Lemma negative_value (m : positive) (e : Z) :
  (inject_Z (Zneg m) * 2 ^ e <= 0)%Q.
Proof.
  setoid_replace (inject_Z (Zneg m) * 2 ^ e)%Q
    with (- (inject_Z (Zpos m) * 2 ^ e))%Q.
  - apply (Qopp_le_compat 0), positive_value.
  - change (Zneg m) with (- Zpos m). rewrite inject_Z_opp. ring.
Qed.

(** A number that is finite and not below [0] is [0] or a positive
    double. *)
Lemma finite_nonnegative (M : number) :
  is_finite M = true -> (0 <=? M)%float = true ->
  (exists s, Prim2SF M = S754_zero s) \/
  (exists m e, Prim2SF M = S754_finite false m e /\
               bounded prec emax m e = true).
Proof.
  unfold is_finite, is_nan, is_infinity.
  rewrite FloatAxioms.leb_spec, !FloatAxioms.eqb_spec, abs_spec.
  change (Prim2SF 0%float) with (S754_zero false).
  change (Prim2SF infinity) with (S754_infinity false).
  pose proof (Prim2SF_valid M) as Hvalid.
  destruct (Prim2SF M) as [s|[]| |[] m e]; simpl; intros Hfin Hle;
    try discriminate; eauto.
Qed.

Lemma valueOf_nonnegative (M : number) :
  is_finite M = true -> (0 <=? M)%float = true -> (0 <= valueOf M)%Q.
Proof.
  intros Hfin Hle. unfold valueOf.
  destruct (finite_nonnegative M Hfin Hle) as [[s ->]|(m & e & -> & _)].
  - apply Qle_refl.
  - apply positive_value.
Qed.

(** What [Math.min] gives stands for no more than its second argument,
    when that is finite and not below [0]. *)
Lemma Math_min_value (a M : number) :
  is_finite M = true -> (0 <=? M)%float = true ->
  (valueOf (Math_min a M) <= valueOf M)%Q.
Proof.
  intros Hfin Hle.
  pose proof (valueOf_nonnegative M Hfin Hle) as Hpos.
  unfold Math_min.
  destruct (is_nan a || is_nan M); [exact Hpos|].
  destruct (is_zero a && is_zero M);
    [destruct (get_sign a || get_sign M); exact Hpos|].
  destruct (M <? a)%float eqn:Hlt; [apply Qle_refl|].
  rewrite FloatAxioms.ltb_spec in Hlt.
  unfold valueOf in *.
  pose proof (Prim2SF_valid a) as Hvalid.
  destruct (Prim2SF a) as [s|s| |s m e]; try exact Hpos.
  cbn [valid_binary] in Hvalid.
  destruct (finite_nonnegative M Hfin Hle)
    as [[s' HM]|(m' & e' & HM & Hvalid')]; rewrite HM in *.
  - destruct s; [apply negative_value|discriminate].
  - destruct s; cbn [cond_Zopp].
    + eapply Qle_trans; [apply negative_value|apply positive_value].
    + apply magnitude_le; auto.
      unfold SFltb, SFcompare in Hlt.
      change (Pos.compare_cont Eq m' m) with (m' ?= m)%positive in Hlt.
      destruct (Z.compare_spec e' e) as [->|He|He]; [|discriminate|lia].
      right. split; [reflexivity|].
      destruct (Pos.compare_spec m' m); [lia|discriminate|lia].
Qed.


(** A finite number is a zero or a double with a mantissa and an
    exponent. *)
Lemma finite_cases (x : number) :
  is_finite x = true ->
  (exists s, Prim2SF x = S754_zero s) \/
  (exists s m e, Prim2SF x = S754_finite s m e /\
                 bounded prec emax m e = true).
Proof.
  unfold is_finite, is_nan, is_infinity.
  rewrite !FloatAxioms.eqb_spec, abs_spec.
  change (Prim2SF infinity) with (S754_infinity false).
  pose proof (Prim2SF_valid x) as Hvalid.
  destruct (Prim2SF x) as [s|[]| |s m e]; intros Hfin;
    try discriminate; [left; eauto|].
  right. exists s, m, e. split; [reflexivity|exact Hvalid].
Qed.

Lemma finite_not_nan (x : number) : is_finite x = true -> is_nan x = false.
Proof.
  unfold is_finite. intro H. apply negb_true_iff in H.
  now apply orb_false_iff in H.
Qed.

Lemma valueOf_zero (x : number) : is_zero x = true -> valueOf x = 0%Q.
Proof.
  intro H. destruct (is_zero_spec x H) as [s Hs].
  unfold valueOf. now rewrite Hs.
Qed.

Lemma negative_value_opp (m : positive) (e : Z) :
  (inject_Z (Zneg m) * 2 ^ e == - (inject_Z (Zpos m) * 2 ^ e))%Q.
Proof. change (Zneg m) with (- Zpos m). rewrite inject_Z_opp. ring. Qed.

Lemma negated_magnitude_le (m1 m2 : positive) (e1 e2 : Z) :
  bounded prec emax m1 e1 = true -> bounded prec emax m2 e2 = true ->
  e1 < e2 \/ (e1 = e2 /\ (m1 <= m2)%positive) ->
  (inject_Z (Zneg m2) * 2 ^ e2 <= inject_Z (Zneg m1) * 2 ^ e1)%Q.
Proof.
  intros H1 H2 Hcmp. rewrite !negative_value_opp.
  apply Qopp_le_compat, magnitude_le; assumption.
Qed.

(** Among the finite numbers, the order of the doubles is the order of
    the rationals they stand for. *)
Lemma ltb_valueOf (x y : number) :
  is_finite x = true -> is_finite y = true ->
  if (x <? y)%float then (valueOf x <= valueOf y)%Q
  else (valueOf y <= valueOf x)%Q.
Proof.
  intros Hx Hy. rewrite FloatAxioms.ltb_spec. unfold valueOf.
  destruct (finite_cases x Hx) as [[sx ->]|(sx & mx & ex & -> & Hbx)];
    destruct (finite_cases y Hy) as [[sy ->]|(sy & my & ey & -> & Hby)].
  - apply Qle_refl.
  - destruct sy; cbn [SFltb SFcompare cond_Zopp];
      [apply negative_value|apply positive_value].
  - destruct sx; cbn [SFltb SFcompare cond_Zopp];
      [apply negative_value|apply positive_value].
  - unfold SFltb, SFcompare.
    change (Pos.compare_cont Eq mx my) with (mx ?= my)%positive.
    destruct sx, sy; cbn [cond_Zopp];
      try (eapply Qle_trans; [apply negative_value|apply positive_value]).
    + destruct (Z.compare_spec ex ey) as [He|He|He];
        [destruct (Pos.compare_spec mx my) as [Hm|Hm|Hm]| |];
        cbn [CompOpp]; apply negated_magnitude_le; auto;
        first [ left; assumption
              | right; split;
                [ congruence
                | first [ subst; apply Pos.le_refl
                        | now apply Pos.lt_le_incl ] ] ].
    + destruct (Z.compare_spec ex ey) as [He|He|He];
        [destruct (Pos.compare_spec mx my) as [Hm|Hm|Hm]| |];
        apply magnitude_le; auto;
        first [ left; assumption
              | right; split;
                [ congruence
                | first [ subst; apply Pos.le_refl
                        | now apply Pos.lt_le_incl ] ] ].
Qed.

(** On finite numbers [Math.min] is the minimum of the rationals. *)
Lemma Math_min_valueOf (a b : number) :
  is_finite a = true -> is_finite b = true ->
  (valueOf (Math_min a b) == Qmin (valueOf a) (valueOf b))%Q.
Proof.
  intros Ha Hb. unfold Math_min.
  rewrite (finite_not_nan a Ha), (finite_not_nan b Hb). cbn [orb].
  destruct (is_zero a && is_zero b) eqn:Hz.
  - apply andb_true_iff in Hz. destruct Hz as [Hza Hzb].
    rewrite (valueOf_zero a Hza), (valueOf_zero b Hzb).
    destruct (get_sign a || get_sign b); reflexivity.
  - pose proof (ltb_valueOf b a Hb Ha) as Hcmp.
    destruct (b <? a)%float.
    + symmetry. apply Q.min_r. exact Hcmp.
    + symmetry. apply Q.min_l. exact Hcmp.
Qed.


Lemma scaled_lt (m1 m2 e1 e2 : Z) :
  e1 <= e2 -> m1 < m2 * 2 ^ (e2 - e1) ->
  (inject_Z m1 * 2 ^ e1 < inject_Z m2 * 2 ^ e2)%Q.
Proof.
  intros He Hm.
  replace e2 with ((e2 - e1) + e1) at 1 by lia.
  rewrite Qpower_plus by discriminate.
  rewrite Qmult_assoc.
  apply Qmult_lt_compat_r; [apply Qpower_2_pos|].
  change 2%Q with (inject_Z 2).
  rewrite <- Zpower_Qpower by lia.
  rewrite <- inject_Z_mult. now rewrite <- Zlt_Qlt.
Qed.

Lemma magnitude_lt (m1 m2 : positive) (e1 e2 : Z) :
  bounded prec emax m1 e1 = true -> bounded prec emax m2 e2 = true ->
  e1 < e2 \/ (e1 = e2 /\ (m1 < m2)%positive) ->
  (inject_Z (Zpos m1) * 2 ^ e1 < inject_Z (Zpos m2) * 2 ^ e2)%Q.
Proof.
  intros H1 H2 Hcmp.
  apply bounded_spec in H1, H2.
  destruct H1 as (Hmin1 & Hhi1 & _). destruct H2 as (_ & _ & Hlo2).
  destruct Hcmp as [He|[-> Hm]].
  - apply scaled_lt; [lia|].
    assert (2 ^ 1 <= 2 ^ (e2 - e1)) by (apply Z.pow_le_mono_r; lia).
    specialize (Hlo2 ltac:(lia)). change (2 ^ 1) with 2 in *.
    change (2 ^ 53) with 9007199254740992 in *.
    change (2 ^ 52) with 4503599627370496 in *. nia.
  - apply scaled_lt; [lia|]. rewrite Z.sub_diag. simpl.
    apply Pos2Z.pos_lt_pos in Hm. lia.
Qed.

Lemma negated_magnitude_lt (m1 m2 : positive) (e1 e2 : Z) :
  bounded prec emax m1 e1 = true -> bounded prec emax m2 e2 = true ->
  e1 < e2 \/ (e1 = e2 /\ (m1 < m2)%positive) ->
  (inject_Z (Zneg m2) * 2 ^ e2 < inject_Z (Zneg m1) * 2 ^ e1)%Q.
Proof.
  intros H1 H2 Hcmp. rewrite !negative_value_opp.
  apply Qopp_lt_compat, magnitude_lt; assumption.
Qed.

Lemma positive_value_lt (m : positive) (e : Z) :
  (0 < inject_Z (Zpos m) * 2 ^ e)%Q.
Proof.
  apply Qmult_lt_0_compat; [|apply Qpower_2_pos].
  change 0%Q with (inject_Z 0). rewrite <- Zlt_Qlt. lia.
Qed.

Lemma negative_value_lt (m : positive) (e : Z) :
  (inject_Z (Zneg m) * 2 ^ e < 0)%Q.
Proof.
  rewrite negative_value_opp.
  apply (Qopp_lt_compat 0), positive_value_lt.
Qed.

(** A finite number below another stands for a smaller rational. *)
Lemma ltb_valueOf_lt (x y : number) :
  is_finite x = true -> is_finite y = true ->
  (x <? y)%float = true -> (valueOf x < valueOf y)%Q.
Proof.
  intros Hx Hy. rewrite FloatAxioms.ltb_spec. unfold valueOf.
  destruct (finite_cases x Hx) as [[sx ->]|(sx & mx & ex & -> & Hbx)];
    destruct (finite_cases y Hy) as [[sy ->]|(sy & my & ey & -> & Hby)].
  - discriminate.
  - destruct sy; cbn [SFltb SFcompare cond_Zopp]; [discriminate|].
    intros _. apply positive_value_lt.
  - destruct sx; cbn [SFltb SFcompare cond_Zopp]; [|discriminate].
    intros _. apply negative_value_lt.
  - unfold SFltb, SFcompare.
    change (Pos.compare_cont Eq mx my) with (mx ?= my)%positive.
    destruct sx, sy; cbn [cond_Zopp].
    + destruct (Z.compare_spec ex ey) as [He|He|He];
        [destruct (Pos.compare_spec mx my) as [Hm|Hm|Hm]| |];
        cbn [CompOpp]; try discriminate; intros _;
        apply negated_magnitude_lt; auto;
        first [ left; assumption
              | right; split; [congruence|assumption] ].
    + intros _.
      eapply Qlt_trans; [apply negative_value_lt|apply positive_value_lt].
    + discriminate.
    + destruct (Z.compare_spec ex ey) as [He|He|He];
        [destruct (Pos.compare_spec mx my) as [Hm|Hm|Hm]| |];
        try discriminate; intros _;
        apply magnitude_lt; auto;
        first [ left; assumption
              | right; split; [congruence|assumption] ].
Qed.

(** [Math.min] of finite numbers is finite. *)
Lemma Math_min_finite (a b : number) :
  is_finite a = true -> is_finite b = true ->
  is_finite (Math_min a b) = true.
Proof.
  intros Ha Hb. unfold Math_min.
  rewrite (finite_not_nan a Ha), (finite_not_nan b Hb). cbn [orb].
  destruct (is_zero a && is_zero b);
    [destruct (get_sign a || get_sign b); reflexivity|].
  now destruct (b <? a)%float.
Qed.

(** Finite numbers are ordered as the rationals they stand for. *)
Lemma valueOf_le_not_ltb (x y : number) :
  is_finite x = true -> is_finite y = true ->
  (valueOf x <= valueOf y)%Q -> (y <? x)%float = false.
Proof.
  intros Hx Hy Hle.
  destruct (y <? x)%float eqn:Hlt; [|reflexivity].
  apply (ltb_valueOf_lt y x Hy Hx) in Hlt.
  exfalso. exact (Qlt_not_le _ _ Hlt Hle).
Qed.


(** Of two finite numbers, one is at most the other exactly when the
    other is not below it. *)
Lemma leb_not_ltb (x y : number) :
  is_finite x = true -> is_finite y = true ->
  (x <=? y)%float = negb (y <? x)%float.
Proof.
  intros Hx Hy. rewrite FloatAxioms.leb_spec, FloatAxioms.ltb_spec.
  destruct (finite_cases x Hx) as [[sx ->]|(sx & mx & ex & -> & Hbx)];
    destruct (finite_cases y Hy) as [[sy ->]|(sy & my & ey & -> & Hby)].
  - reflexivity.
  - now destruct sy.
  - now destruct sx.
  - unfold SFleb, SFltb, SFcompare.
    change (Pos.compare_cont Eq mx my) with (mx ?= my)%positive.
    change (Pos.compare_cont Eq my mx) with (my ?= mx)%positive.
    rewrite (Z.compare_antisym ex ey), (Pos.compare_antisym mx my).
    destruct sx, sy; try reflexivity;
      destruct (ex ?= ey); cbn [CompOpp]; try reflexivity;
      now destruct (mx ?= my)%positive.
Qed.

Lemma valueOf_le_leb (x y : number) :
  is_finite x = true -> is_finite y = true ->
  (valueOf x <= valueOf y)%Q -> (x <=? y)%float = true.
Proof.
  intros Hx Hy Hle. rewrite (leb_not_ltb x y Hx Hy).
  now rewrite (valueOf_le_not_ltb x y Hx Hy Hle).
Qed.

End NumberFacts.

(** ** Retry and backoff *)

Module RetryFacts.
Import JsNumber RetryHelper NumberFacts.

Section Traces.
Variables E T : Type.

Lemma attempts_app (tr1 tr2 : list (Event E T)) :
  attempts (tr1 ++ tr2) = attempts tr1 ++ attempts tr2.
Proof.
  induction tr1 as [|ev tr1 IH]; simpl; [reflexivity|].
  destruct ev; simpl; now rewrite IH.
Qed.

Lemma sleeps_app (tr1 tr2 : list (Event E T)) :
  sleeps (tr1 ++ tr2) = sleeps tr1 ++ sleeps tr2.
Proof.
  induction tr1 as [|ev tr1 IH]; simpl; [reflexivity|].
  destruct ev; simpl; now rewrite IH.
Qed.

End Traces.

(** The delay is never greater than [maxDelay]. *)
Lemma backoffDelay_le_max (Math_pow : number -> number -> number)
  (config : RetryOptions) (attempt : Z) :
  (maxDelay config <? backoffDelay Math_pow config attempt)%float = false.
Proof. unfold backoffDelay. apply Math_min_le_r. Qed.

Section Loops.
Variable Math_pow : number -> number -> number.
Variables W E T : Type.
Variable operation : W -> (E + T) * W.
Variable setTimeout : number -> W -> W.
Variable config : RetryOptions.

Local Abbreviation loop := (retryLoop Math_pow operation setTimeout config).
Local Abbreviation vloop :=
  (fun name => retryValidationLoop Math_pow operation setTimeout name config).

(** Destructs the result of a recursive call of a loop. *)
Ltac split_run H :=
  match type of H with
  | andThen _ ?r = Some _ =>
    let o := fresh "o" in let tr := fresh "tr" in let w := fresh "w" in
    let Hr := fresh "Hrec" in
    destruct r as [[[o tr] w]|] eqn:Hr; simpl in H; [|discriminate H]
  end.

(** [retryValidation] differs from [retry] by its log lines only. *)
Lemma retryValidationLoop_retryLoop (name : string) (fuel : nat) :
  forall attempt lastError w,
  match vloop name fuel attempt lastError w, loop fuel attempt lastError w with
  | Some (o1, tr1, w1), Some (o2, tr2, w2) =>
    o1 = o2 /\ attempts tr1 = attempts tr2 /\ sleeps tr1 = sleeps tr2 /\ w1 = w2
  | None, None => True
  | _, _ => False
  end.
Proof.
  induction fuel as [|fuel IH]; intros attempt lastError w; simpl; [exact I|].
  destruct (attempt <=? maxRetries config); [|now repeat split].
  destruct (operation w) as [[error|v] w1].
  - destruct (attempt =? maxRetries config); [now repeat split|].
    specialize (IH (attempt + 1) (Some error)
                  (setTimeout (backoffDelay Math_pow config attempt) w1)).
    destruct (retryValidationLoop _ _ _ _ _ _ _ _) as [[[o1 tr1] w1']|];
      destruct (retryLoop _ _ _ _ _ _ _) as [[[o2 tr2] w2']|];
      simpl; try contradiction; [|exact I].
    destruct IH as (-> & Ha & Hs & ->).
    now rewrite Ha, Hs.
  - destruct (1 <? attempt); now repeat split.
Qed.

(** The loop ends: fuel for the remaining iterations is enough. *)
Lemma retryLoop_total (fuel : nat) :
  forall attempt lastError w,
  (Z.to_nat (maxRetries config - attempt + 1) < fuel)%nat ->
  exists run, loop fuel attempt lastError w = Some run.
Proof.
  induction fuel as [|fuel IH]; intros attempt lastError w Hfuel; [lia|].
  simpl. destruct (attempt <=? maxRetries config) eqn:Hle; [|eauto].
  apply Z.leb_le in Hle.
  destruct (operation w) as [[error|v] w1]; [|eauto].
  destruct (attempt =? maxRetries config) eqn:Heq; [eauto|].
  apply Z.eqb_neq in Heq.
  destruct (IH (attempt + 1) (Some error)
              (setTimeout (backoffDelay Math_pow config attempt) w1)) as [[[o
                tr] w'] Hrun];
    [lia|].
  rewrite Hrun. simpl. eauto.
Qed.

(** A permanently failing operation is tried at every attempt number from
    [attempt] to [maxRetries], and the error of the last try is thrown. *)
Lemma retryLoop_alwaysFails (n : nat) :
  alwaysFails operation ->
  forall fuel attempt lastError w,
  attempt + Z.of_nat n = maxRetries config ->
  (n < fuel)%nat ->
  exists e tr w',
    loop fuel attempt lastError w = Some (Thrown (Some e), tr, w') /\
    length (attempts tr) = S n /\
    nth_error (attempts tr) n = Some (maxRetries config, inl e).
Proof.
  intros Hfail.
  induction n as [|n IH]; intros fuel attempt lastError w Hmax Hfuel;
    (destruct fuel as [|fuel]; [lia|]); simpl;
    (replace (attempt <=? maxRetries config) with true
      by (symmetry; apply Z.leb_le; lia));
    destruct (Hfail w) as [e He];
    destruct (operation w) as [r w1]; simpl in He; subst r.
  - replace (attempt =? maxRetries config) with true
      by (symmetry; apply Z.eqb_eq; lia).
    exists e. do 2 eexists. split; [reflexivity|].
    simpl. split; [reflexivity|]. do 2 f_equal. lia.
  - replace (attempt =? maxRetries config) with false
      by (symmetry; apply Z.eqb_neq; lia).
    destruct (IH fuel (attempt + 1) (Some e)
                (setTimeout (backoffDelay Math_pow config attempt) w1))
      as (e' & tr & w' & Hrun & Hlen & Hlast); [lia|lia|].
    rewrite Hrun. simpl.
    exists e', (EvAttempt attempt (inl e)
                :: EvLog (LogAttemptFailedRetryingIn E attempt
                            (backoffDelay Math_pow config attempt))
                :: EvSleep (backoffDelay Math_pow config attempt) :: tr), w'.
    split; [reflexivity|]. simpl. now rewrite Hlen.
Qed.

(** A run that enters the loop body starts by invoking the operation. *)
Lemma retryLoop_first_attempt (fuel : nat) :
  forall attempt lastError w o tr w',
  loop fuel attempt lastError w = Some (o, tr, w') ->
  attempt <= maxRetries config ->
  exists r, In (attempt, r) (attempts tr).
Proof.
  destruct fuel as [|fuel]; intros attempt lastError w o tr w' Hrun Hle;
    [discriminate|].
  simpl in Hrun.
  replace (attempt <=? maxRetries config) with true in Hrun
    by (symmetry; apply Z.leb_le; lia).
  destruct (operation w) as [[error|v] w1].
  2:{ injection Hrun as <- <- <-. exists (inr v). simpl. auto. }
  destruct (attempt =? maxRetries config).
  { injection Hrun as <- <- <-. exists (inl error). simpl. auto. }
  split_run Hrun. injection Hrun as <- <- <-.
  exists (inl error). simpl. auto.
Qed.

(** Every failed attempt before the last is followed by the suspension
    computed from its own attempt number, and then by the next attempt. *)
Lemma retryLoop_sleeps (fuel : nat) :
  forall attempt lastError w o tr w',
  loop fuel attempt lastError w = Some (o, tr, w') ->
  Forall (fun d => (maxDelay config <? d)%float = false) (sleeps tr) /\
  forall k e, In (k, inl e) (attempts tr) -> k < maxRetries config ->
    attempt <= k /\
    nth_error (sleeps tr) (Z.to_nat (k - attempt))
      = Some (backoffDelay Math_pow config k) /\
    exists r, In (k + 1, r) (attempts tr).
Proof.
  induction fuel as [|fuel IH]; intros attempt lastError w o tr w' Hrun;
    [discriminate|].
  simpl in Hrun.
  destruct (attempt <=? maxRetries config) eqn:Hle.
  2:{ injection Hrun as <- <- <-. simpl. split; [constructor|]. intros k e []. }
  destruct (operation w) as [[error|v] w1].
  2:{ injection Hrun as <- <- <-. simpl. split; [constructor|].
      intros k e [H|[]]. discriminate. }
  destruct (attempt =? maxRetries config) eqn:Heq.
  { injection Hrun as <- <- <-. simpl. split; [constructor|].
    apply Z.eqb_eq in Heq.
    intros k e [H|[]] Hk. injection H as <- _. lia. }
  split_run Hrun. injection Hrun as <- <- <-.
  destruct (IH _ _ _ _ _ _ Hrec) as [Hall Hnth].
  simpl. split.
  - constructor; [apply backoffDelay_le_max|exact Hall].
  - intros k e [H|H] Hk.
    + injection H as <- _. split; [lia|]. split.
      * now replace (attempt - attempt) with 0 by lia.
      * destruct (retryLoop_first_attempt _ _ _ _ _ _ _ Hrec) as [r Hr];
          [lia|]. eauto.
    + destruct (Hnth k e H Hk) as (Hge & Hk' & r & Hr).
      split; [lia|]. split; [|eauto].
      replace (Z.to_nat (k - attempt)) with (S (Z.to_nat (k - (attempt + 1))))
        by lia.
      exact Hk'.
Qed.

(** [retry] returns or throws on every input, and [retryValidation] does the
    same with the same invocations and suspensions. *)
Lemma retryValidation_as_retry (name : string) (w : W) :
  exists o tr tr' w',
    loop (loopFuel config) 1 None w = Some (o, tr, w') /\
    vloop name (loopFuel config) 1 None w = Some (o, tr', w') /\
    attempts tr' = attempts tr /\ sleeps tr' = sleeps tr.
Proof.
  destruct (retryLoop_total (loopFuel config) 1 None w) as [[[o tr] w'] Hrun];
    [unfold loopFuel; lia|].
  pose proof (retryValidationLoop_retryLoop name (loopFuel config) 1 None w)
    as Hsim.
  cbv beta in Hsim. rewrite Hrun in Hsim. cbv beta.
  destruct (retryValidationLoop _ _ _ _ _ _ _ _) as [[[o1 tr1] w1]|];
    [|contradiction].
  destruct Hsim as (-> & Ha & Hs & ->).
  exists o, tr, tr1, w'. auto.
Qed.

End Loops.

(** C1. With [maxRetries = N >= 1], an operation that fails on every attempt
    is invoked exactly [N] times by [retry] and by [retryValidation], and the
    error thrown to the caller is the error of the [N]-th invocation. *)
Theorem retry_permanent_failure
  (Math_pow : number -> number -> number)
  (W E T : Type) (operation : W -> (E + T) * W)
  (setTimeout : number -> W -> W)
  (operationName : string) (options : PartialRetryOptions) (N : Z) (w : W) :
  optMaxRetries options = Some N ->
  1 <= N ->
  alwaysFails operation ->
  (exists e tr w',
     retry Math_pow operation setTimeout options w
       = Some (Thrown (Some e), tr, w') /\
     Z.of_nat (length (attempts tr)) = N /\
     nth_error (attempts tr) (Z.to_nat (N - 1)) = Some (N, inl e)) /\
  (exists e tr w',
     retryValidation Math_pow operation setTimeout operationName options w
       = Some (Thrown (Some e), tr, w') /\
     Z.of_nat (length (attempts tr)) = N /\
     nth_error (attempts tr) (Z.to_nat (N - 1)) = Some (N, inl e)).
Proof.
  intros Hopt HN Hfail.
  set (config := mergeOptions DEFAULT_RETRY_OPTIONS options).
  assert (Hmax : maxRetries config = N)
    by (unfold config, mergeOptions; simpl; now rewrite Hopt).
  destruct (retryLoop_alwaysFails Math_pow W E T operation setTimeout config
              (Z.to_nat (N - 1)) Hfail (loopFuel config) 1 None w)
    as (e & tr & w' & Hrun & Hlen & Hlast);
    [lia | unfold loopFuel; lia |].
  assert (Hretry : exists e tr w',
     retry Math_pow operation setTimeout options w
       = Some (Thrown (Some e), tr, w') /\
     Z.of_nat (length (attempts tr)) = N /\
     nth_error (attempts tr) (Z.to_nat (N - 1)) = Some (N, inl e)).
  { exists e, tr, w'. unfold retry. fold config. rewrite Hrun, Hlen.
    split; [reflexivity|]. split; [lia|]. now rewrite Hlast, Hmax. }
  split; [exact Hretry|].
  pose proof (retryValidationLoop_retryLoop Math_pow W E T operation setTimeout
    config operationName (loopFuel config) 1 None w) as Hsim.
  cbv beta in Hsim. rewrite Hrun in Hsim.
  unfold retryValidation. fold config.
  destruct (retryValidationLoop _ _ _ _ _ _ _ _) as [[[o1 tr1] w1]|];
    [|contradiction].
  destruct Hsim as (-> & Ha & _ & ->).
  exists e, tr1, w'. rewrite Ha, Hlen.
  split; [reflexivity|]. split; [lia|]. now rewrite Hlast, Hmax.
Qed.

Lemma retry_permanent_failure_witness :
  (exists e tr w',
     retry productOfFactors countingFailure timePasses fiveAttempts 0%nat
       = Some (Thrown (Some e), tr, w') /\
     Z.of_nat (length (attempts tr)) = 5 /\
     nth_error (attempts tr) (Z.to_nat (5 - 1)) = Some (5, inl e)) /\
  (exists e tr w',
     retryValidation productOfFactors countingFailure timePasses
       "Section validation" fiveAttempts 0%nat
       = Some (Thrown (Some e), tr, w') /\
     Z.of_nat (length (attempts tr)) = 5 /\
     nth_error (attempts tr) (Z.to_nat (5 - 1)) = Some (5, inl e)).
Proof.
  apply (retry_permanent_failure productOfFactors nat nat unit countingFailure
    timePasses "Section validation" fiveAttempts 5 0%nat).
  - reflexivity.
  - lia.
  - intro w. exists w. reflexivity.
Defined.

(** C2. Whatever the options, when attempt [k] fails and [k < maxRetries]
    the [k]-th suspension of the run lasts
    [Math.min(baseDelay * Math.pow(backoffMultiplier, k - 1), maxDelay)] and
    attempt [k + 1] follows. The product and the minimum are those of IEEE
    754 doubles, and [Math.pow] is the engine's, whatever it returns. No
    suspension, and no value of the formula at any attempt index, is greater
    than [maxDelay]: a delay that is [NaN] is not either. Wherever the
    product is finite and stands for the rational
    [baseDelay * backoffMultiplier ^ (k - 1)], the power and the product
    having lost nothing to rounding, and [maxDelay] is finite, the delay
    stands for the rational [min (baseDelay * backoffMultiplier ^ (k - 1))
    maxDelay]. This holds for [retry] and for [retryValidation]. *)
Theorem retry_backoff_delay
  (Math_pow : number -> number -> number)
  (W E T : Type) (operation : W -> (E + T) * W)
  (setTimeout : number -> W -> W)
  (operationName : string) (options : PartialRetryOptions) (w : W) :
  let config := mergeOptions DEFAULT_RETRY_OPTIONS options in
  let b := baseDelay config in
  let m := backoffMultiplier config in
  let M := maxDelay config in
  let product := fun k : Z => (b * Math_pow m (ofZ (k - 1)))%float in
  let delay := fun k : Z => Math_min (product k) M in
  (exists o tr w',
     retry Math_pow operation setTimeout options w = Some (o, tr, w') /\
     Forall (fun d => (M <? d)%float = false) (sleeps tr) /\
     forall k e, In (k, inl e) (attempts tr) -> k < maxRetries config ->
       nth_error (sleeps tr) (Z.to_nat (k - 1)) = Some (delay k) /\
       exists r, In (k + 1, r) (attempts tr)) /\
  (exists o tr w',
     retryValidation Math_pow operation setTimeout operationName options w
       = Some (o, tr, w') /\
     Forall (fun d => (M <? d)%float = false) (sleeps tr) /\
     forall k e, In (k, inl e) (attempts tr) -> k < maxRetries config ->
       nth_error (sleeps tr) (Z.to_nat (k - 1)) = Some (delay k) /\
       exists r, In (k + 1, r) (attempts tr)) /\
  (forall k, (M <? delay k)%float = false) /\
  (forall k,
     is_finite (product k) = true -> is_finite M = true ->
     (valueOf (product k) == valueOf b * Qpower (valueOf m) (k - 1))%Q ->
     (valueOf (delay k)
      == Qmin (valueOf b * Qpower (valueOf m) (k - 1)) (valueOf M))%Q).
Proof.
  intros config b m M product delay.
  destruct (retryValidation_as_retry Math_pow W E T operation setTimeout config
              operationName w) as (o & tr & tr' & w' & Hrun & Hrun' & Ha & Hs).
  destruct (retryLoop_sleeps Math_pow W E T operation setTimeout config
              _ _ _ _ _ _ _ Hrun) as [Hall Hnth].
  split; [|split; [|split]].
  - exists o, tr, w'. split; [exact Hrun|]. split; [exact Hall|].
    intros k e Hin Hk. now destruct (Hnth k e Hin Hk).
  - exists o, tr', w'. split; [exact Hrun'|]. rewrite Ha, Hs.
    split; [exact Hall|].
    intros k e Hin Hk. now destruct (Hnth k e Hin Hk).
  - intro k. apply (backoffDelay_le_max Math_pow config k).
  - intros k Hproduct HM Hexact. unfold delay.
    rewrite (Math_min_valueOf (product k) M Hproduct HM).
    destruct (Qlt_le_dec (valueOf M) (valueOf (product k))) as [Hlt|Hle].
    + rewrite Q.min_r by now apply Qlt_le_weak.
      rewrite Q.min_r by (rewrite <- Hexact; now apply Qlt_le_weak).
      reflexivity.
    + rewrite Q.min_l by exact Hle.
      rewrite Q.min_l by (rewrite <- Hexact; exact Hle).
      exact Hexact.
Qed.

Lemma retry_backoff_delay_witness :
  (exists o tr w',
     retry productOfFactors countingFailure timePasses fiveAttempts 0%nat
       = Some (o, tr, w') /\
     Forall (fun d => (2000 <? d)%float = false) (sleeps tr) /\
     forall k e, In (k, inl e) (attempts tr) -> k < 5 ->
       nth_error (sleeps tr) (Z.to_nat (k - 1))
         = Some (Math_min (500 * productOfFactors 2 (ofZ (k - 1)))%float
                   2000%float) /\
       exists r, In (k + 1, r) (attempts tr)) /\
  (valueOf (Math_min (500 * productOfFactors 2 (ofZ (2 - 1)))%float
              2000%float)
   == Qmin (valueOf 500%float * Qpower (valueOf 2%float) (2 - 1))
        (valueOf 2000%float))%Q.
Proof.
  pose proof (retry_backoff_delay productOfFactors nat nat unit
                countingFailure timePasses "Section validation"
                fiveAttempts 0%nat) as (Hretry & _ & _ & Hexact).
  split; [exact Hretry|].
  apply (Hexact 2); reflexivity.
Defined.

(** With the default options, and a [Math.pow] that is exact on the powers
    of two, a permanently failing operation is tried three times, 500 ms and
    then 1000 ms apart; with five attempts the third and fourth suspensions
    are capped at 2000 ms. *)
Example default_backoff_schedule :
  option_map (fun run => sleeps (snd (fst run)))
    (retry productOfFactors countingFailure timePasses noOptions 0%nat)
    = Some [500%float; 1000%float] /\
  option_map (fun run => sleeps (snd (fst run)))
    (retry productOfFactors countingFailure timePasses fiveAttempts 0%nat)
    = Some [500%float; 1000%float; 2000%float; 2000%float].
Proof. split; vm_compute; reflexivity. Qed.

(** The delay is the double the engine computes, not the rational the
    formula names. A base delay of 0.1 tripled is 0.30000000000000004; and
    a base delay of 0 times a power that overflows is [NaN], which
    [Math.min] keeps: the timer is then set with [NaN]. *)
Example backoff_delay_is_rounded (Math_pow : number -> number -> number) :
  (Math_pow 3%float 1%float = 3%float ->
   backoffDelay Math_pow tenthTripled 2 = 0x1.3333333333334p-2%float) /\
  (Math_pow 0x1.4e718d7d7625ap+664%float 2%float = infinity ->
   backoffDelay Math_pow nothingTimesHuge 3 = PrimFloat.nan).
Proof.
  unfold backoffDelay, tenthTripled, nothingTimesHuge.
  cbn [baseDelay maxDelay backoffMultiplier].
  change (ofZ (2 - 1)) with 1%float. change (ofZ (3 - 1)) with 2%float.
  split; intros ->; reflexivity.
Qed.

(** C9. With [maxRetries = 1], [retry] invokes the operation once, never
    suspends (the world it leaves is the one the operation left), and when
    that invocation fails its error is thrown. *)
Theorem retry_single_attempt
  (Math_pow : number -> number -> number)
  (W E T : Type) (operation : W -> (E + T) * W)
  (setTimeout : number -> W -> W)
  (b M m : option number) (w : W) :
  exists tr,
    retry Math_pow operation setTimeout
      {| optMaxRetries := Some 1; optBaseDelay := b;
         optMaxDelay := M; optBackoffMultiplier := m |} w
      = Some (match fst (operation w) with
              | inl e => Thrown (Some e)
              | inr v => Returned v
              end, tr, snd (operation w)) /\
    attempts tr = [(1, fst (operation w))] /\
    sleeps tr = [].
Proof.
  unfold retry. simpl.
  destruct (operation w) as [[e|v] w1]; simpl; eexists; repeat split.
Qed.

End RetryFacts.

(** ** Readiness *)

Module ReadinessFacts.
Import Async JsString ReadinessChecker.

(** C6, as the code has it. [checkAppReadiness] never throws and always
    returns; it reports ready exactly when a response had status 200; it
    sends at most [maxRetries = 3] requests; and when it reports failure it
    has sent all three, [retryDelay] apart, and the result carries an error
    message. *)
Theorem checkAppReadiness_status_200
  (W : Type) (requestGet : string -> W -> (exn + Z) * W) (dateNow : W -> Z)
  (setTimeout : Q -> W -> W) (w : W) :
  exists r tr w',
    checkAppReadiness W requestGet dateNow setTimeout w
      = Some (inr r, tr, w') /\
    isReady r = existsb isOk (requests tr) /\
    (length (requests tr) <= Z.to_nat maxRetries)%nat /\
    (isReady r = false ->
       length (requests tr) = Z.to_nat maxRetries /\
       sleeps tr = [inject_Z retryDelay; inject_Z retryDelay] /\
       error r <> None).
Proof.
  unfold checkAppReadiness. simpl.
  unfold tryCatch, attemptTry, attemptCatch, bind, consoleLog, emit, modify,
    now, get, sleep, ret. simpl.
  destruct (requestGet _ w) as [[e1|s1] w1]; simpl;
    [|destruct (s1 =? 200) eqn:H1; simpl].
  2:{ do 3 eexists. split; [reflexivity|]. simpl. rewrite H1. simpl.
      repeat split; try lia; discriminate. }
  all: destruct (requestGet _ _) as [[e2|s2] w2]; simpl;
    [|destruct (s2 =? 200) eqn:H2; simpl].
  all: try (destruct (requestGet _ _) as [[e3|s3] w3]; simpl;
    [|destruct (s3 =? 200) eqn:H3; simpl]).
  all: do 3 eexists; (split; [reflexivity|]); simpl;
       rewrite ?H1, ?H2, ?H3; simpl.
  all: repeat split; try lia; try discriminate.
Qed.

Lemma checkAppReadiness_status_200_witness :
  exists r tr w',
    checkAppReadiness nat slowStartServer (fun w => 7 * Z.of_nat w)
      (fun _ w => w) 0%nat = Some (inr r, tr, w') /\
    isReady r = existsb isOk (requests tr) /\
    (length (requests tr) <= Z.to_nat maxRetries)%nat /\
    (isReady r = false ->
       length (requests tr) = Z.to_nat maxRetries /\
       sleeps tr = [inject_Z retryDelay; inject_Z retryDelay] /\
       error r <> None).
Proof.
  exact (checkAppReadiness_status_200 nat slowStartServer
           (fun w => 7 * Z.of_nat w) (fun _ w => w) 0%nat).
Defined.

(** C6, as the spec has it, fails: 204 is a 2xx status, and a server that
    answers 204 to each of the three requests is reported as not ready. *)
Lemma checkAppReadiness_204_not_ready :
  (200 <=? 204) && (204 <=? 299) = true /\
  exists tr,
    checkAppReadiness unit noContentServer (fun _ => 0) (fun _ w => w) tt
      = Some (inr {| isReady := false;
                     error := Some "App responded with status 204"%string;
                     responseTime := Some 0 |}, tr, tt) /\
    requests tr = [inr 204; inr 204; inr 204].
Proof.
  split; [reflexivity|].
  eexists. split; reflexivity.
Qed.

End ReadinessFacts.

(** ** Strings *)

Module StringFacts.
Import JsString TooltipChecker.

Lemma prefix_app (p s : string) : String.prefix p (p ++ s) = true.
Proof.
  induction p as [|c p IH]; simpl; [now destruct s|].
  destruct (ascii_dec c c) as [_|Hne]; [exact IH|now elim Hne].
Qed.

Lemma includes_unfold (s searchString : string) :
  includes s searchString =
  if String.prefix searchString s then true
  else match s with
       | EmptyString => false
       | String _ s' => includes s' searchString
       end.
Proof. destruct s; reflexivity. Qed.

Lemma includes_app (before found after : string) :
  includes (before ++ found ++ after) found = true.
Proof.
  induction before as [|c before IH]; simpl.
  - now rewrite includes_unfold, prefix_app.
  - rewrite IH.
    match goal with |- (if ?b then _ else _) = _ => now destruct b end.
Qed.

Lemma toLowerCase_app (s1 s2 : string) :
  toLowerCase (s1 ++ s2) = (toLowerCase s1 ++ toLowerCase s2)%string.
Proof. induction s1 as [|c s1 IH]; simpl; [reflexivity|now rewrite IH]. Qed.

Lemma prefix_toLowerCase (phrase : string) :
  forall text,
  String.prefix (toLowerCase phrase) (toLowerCase text) = true ->
  exists found after,
    text = (found ++ after)%string /\ toLowerCase found = toLowerCase phrase.
Proof.
  induction phrase as [|a phrase IH]; intros text Hpre.
  - exists EmptyString, text. split; reflexivity.
  - destruct text as [|b text]; simpl in Hpre; [discriminate|].
    destruct (ascii_dec _ _) as [Heq|_]; [|discriminate].
    destruct (IH text Hpre) as (found & after & -> & Hlow).
    exists (String b found), after. simpl. now rewrite Hlow, Heq.
Qed.

(** [includes] on the lower-cased strings decides the containment the spec
    speaks of. *)
Lemma includes_ignoring_case (text phrase : string) :
  includes (toLowerCase text) (toLowerCase phrase) = true <->
  spec_containsIgnoringCase text phrase.
Proof.
  split.
  - induction text as [|c text IH]; rewrite includes_unfold;
      match goal with
      | |- (if String.prefix ?p ?t then _ else _) = _ -> _ =>
        destruct (String.prefix p t) eqn:Hpre
      end;
      try (intros _;
           destruct (prefix_toLowerCase phrase _ Hpre)
             as (found & after & Htext & Hlow);
           exists EmptyString, found, after; now auto).
    + discriminate.
    + simpl. intro Hinc.
      destruct (IH Hinc) as (before & found & after & -> & Hlow).
      exists (String c before), found, after. auto.
  - intros (before & found & after & -> & Hlow).
    rewrite !toLowerCase_app, Hlow. apply includes_app.
Qed.

Lemma somePatternIn_spec (patterns : list string) (text : string) :
  somePatternIn patterns text = true <->
  exists phrase, In phrase patterns /\ spec_containsIgnoringCase text phrase.
Proof.
  unfold somePatternIn. rewrite existsb_exists.
  split; intros (phrase & Hin & H); exists phrase; split; auto;
    now apply includes_ignoring_case.
Qed.

End StringFacts.

(** ** Rules for the contracts of the validators *)

Module AsyncLogic.
Import Async TooltipChecker.

Section Triples.
Variables W R : Type.

Lemma triple_ret {A : Type} (a : A) (P : R -> Prop) (Q : A -> R -> Prop)
  (Qe : R -> Prop) :
  (forall r, P r -> Q a r) -> triple (W := W) P (ret a) Q Qe.
Proof. intros H w r HP. simpl. auto. Qed.

Lemma triple_bind {A B : Type} (c : M (W * R) A) (k : A -> M (W * R) B)
  (P : R -> Prop) (Mid : A -> R -> Prop) (Q : B -> R -> Prop)
  (Qe : R -> Prop) :
  triple P c Mid Qe ->
  (forall a, triple (Mid a) (k a) Q Qe) ->
  triple P (bind c k) Q Qe.
Proof.
  intros Hc Hk w r HP. unfold bind.
  specialize (Hc w r HP).
  destruct (c (w, r)) as [[e|a] [w1 r1]]; [exact Hc|].
  apply (Hk a w1 r1 Hc).
Qed.

Lemma triple_weaken {A : Type} (c : M (W * R) A) (P P' : R -> Prop)
  (Q Q' : A -> R -> Prop) (Qe Qe' : R -> Prop) :
  triple P' c Q' Qe' ->
  (forall r, P r -> P' r) ->
  (forall a r, Q' a r -> Q a r) ->
  (forall r, Qe' r -> Qe r) ->
  triple P c Q Qe.
Proof.
  intros Hc HP HQ HQe w r Hr.
  specialize (Hc w r (HP r Hr)).
  destruct (c (w, r)) as [[e|a] [w1 r1]]; auto.
Qed.

(** A fact that does not depend on [result] can be taken out of the
    precondition. *)
Lemma triple_assume {A : Type} (c : M (W * R) A) (fact : Prop)
  (P : R -> Prop) (Q : A -> R -> Prop) (Qe : R -> Prop) :
  (fact -> triple P c Q Qe) ->
  triple (fun r => fact /\ P r) c Q Qe.
Proof. intros H w r [Hf HP]. exact (H Hf w r HP). Qed.

(** A call on the page leaves [result] as it is. *)
Lemma triple_await {A : Type} (call : W -> (exn + A) * W) (P : R -> Prop) :
  triple P (await call) (fun _ => P) P.
Proof.
  intros w r HP. unfold await. simpl.
  destruct (call w) as [[e|a] w1]; exact HP.
Qed.

(** The same, knowing something of what the call answers. *)
Lemma triple_await_result {A : Type} (call : W -> (exn + A) * W)
  (good : A -> Prop) (P : R -> Prop) (Q : A -> R -> Prop) (Qe : R -> Prop) :
  (forall w, match fst (call w) with inr a => good a | inl _ => True end) ->
  (forall a r, P r -> good a -> Q a r) ->
  (forall r, P r -> Qe r) ->
  triple P (await call) Q Qe.
Proof.
  intros Hcall HQ HQe w r HP. unfold await. simpl.
  specialize (Hcall w).
  destruct (call w) as [[e|a] w1]; simpl in *; auto.
Qed.

Lemma triple_update (f : R -> R) (P : R -> Prop) (Q : unit -> R -> Prop)
  (Qe : R -> Prop) :
  (forall r, P r -> Q tt (f r)) -> triple (W := W) P (update f) Q Qe.
Proof. intros H w r HP. simpl. auto. Qed.

Lemma triple_result (P : R -> Prop) (Qe : R -> Prop) :
  triple (W := W) P result (fun a r => a = r /\ P r) Qe.
Proof. intros w r HP. simpl. auto. Qed.

Lemma triple_consoleLog (line : string) (P : R -> Prop)
  (Q : unit -> R -> Prop) (Qe : R -> Prop) :
  (forall r, P r -> Q tt r) -> triple (W := W) P (consoleLog line) Q Qe.
Proof. intros H w r HP. simpl. auto. Qed.

(** A function built from [try]/[catch] around [return result] never throws;
    it returns what the [try] block left, or what the [catch] block made
    of it. *)
Lemma returningResult_returns (init : R) (body : M (W * R) unit)
  (recover : exn -> R -> R) (P : R -> Prop) (Q Qe : R -> Prop) (w : W) :
  P init ->
  triple P body (fun _ => Q) Qe ->
  exists r w',
    returningResult init body (fun e => update (recover e)) w = (inr r, w') /\
    match body (w, init) with
    | (inr _, (_, r0)) => r = r0 /\ Q r
    | (inl e, (_, r0)) => r = recover e r0 /\ Qe r0
    end.
Proof.
  intros Hinit Hbody. specialize (Hbody w init Hinit).
  unfold returningResult, tryCatch.
  destruct (body (w, init)) as [[e|[]] [w1 r1]]; simpl; eauto.
Qed.

End Triples.

End AsyncLogic.

(** ** The tooltip validator *)

Module TooltipFacts.
Import Async JsString TooltipChecker AsyncLogic.
Import TooltipValidationResult.

Section Tooltips.
Variable W : Type.
Variable page : Page W.

Local Abbreviation R := TooltipValidationResult.t.

(** Reading the attributes does not touch [result]. *)
Lemma tooltipTextOf_preserves (tooltip : Locator) (P : R -> Prop) :
  triple P (tooltipTextOf W page tooltip) (fun _ => P) P.
Proof.
  unfold tooltipTextOf.
  eapply triple_bind; [apply triple_await|]. intro a. cbv beta.
  destruct (truthy (orEmpty a)); [now apply triple_ret|].
  eapply triple_bind; [apply triple_await|]. intro b. cbv beta.
  destruct (truthy (orEmpty b)); [now apply triple_ret|].
  eapply triple_bind; [apply triple_await|]. intro c. cbv beta.
  now apply triple_ret.
Qed.

(** One turn of the loop judges one tooltip: it counts it as valid or it
    adds an error, never both and never neither. *)
Lemma validateOneTooltip_judges (tooltip : Locator) (n k : nat) :
  triple (judged n k) (validateOneTooltip W page tooltip)
    (fun _ => judged n (S k)) (fun r => isValid r = false).
Proof.
  unfold validateOneTooltip.
  assert (Hexn : forall r, judged n k r -> isValid r = false)
    by (intros r H; exact (proj1 H)).
  eapply triple_bind with (Mid := fun _ => judged n k).
  { eapply triple_weaken; [apply triple_await with (P := judged n k)| | |];
      auto. }
  intro term. cbv beta.
  eapply triple_bind with (Mid := fun _ => judged n k).
  { eapply triple_weaken;
      [apply tooltipTextOf_preserves with (P := judged n k)| | |]; auto. }
  intro tooltipText. cbv beta.
  set (detail := {| TooltipDetail.term := trim (orEmpty term);
                    TooltipDetail.tooltip := trim tooltipText;
                    TooltipDetail.isValid := false;
                    TooltipDetail.error := None |}).
  eapply triple_bind with
    (Mid := fun d r =>
       (TooltipDetail.isValid d = true /\ judged n (S k) r) \/
       (TooltipDetail.isValid d = false /\
        truthy (orEmpty (TooltipDetail.error d)) = true /\ judged n k r)).
  { repeat match goal with
           | |- triple _ (if ?b then _ else _) _ _ => destruct b
           end;
      try (apply triple_ret; intros r H; right; repeat split; apply H).
    eapply triple_bind with (Mid := fun _ => judged n (S k)).
    - apply triple_update. intros r (Hv & Hn & Hk).
      unfold judged; simpl. repeat split; auto; lia.
    - intros _. apply triple_ret. intros r H. left.
      split; [reflexivity|exact H]. }
  intro d. cbv beta.
  eapply triple_bind with (Mid := fun _ => judged n (S k)).
  { destruct (TooltipDetail.isValid d) eqn:Hd; simpl.
    - apply triple_ret. intros r [[_ H]|[H _]]; [exact H|discriminate].
    - destruct (truthy (orEmpty (TooltipDetail.error d))) eqn:He.
      + apply triple_update. intros r [[H _]|(_ & _ & Hv & Hn & Hk)];
          [discriminate|].
        unfold judged; simpl. rewrite length_app. simpl.
        repeat split; auto; lia.
      + apply triple_ret. intros r [[H _]|(_ & H & _)]; discriminate. }
  intros _. apply triple_update. intros r (Hv & Hn & Hk).
  unfold judged; simpl. auto.
Qed.

Lemma validateEachTooltip_judges (tooltips : Locator) (n remaining : nat) :
  forall i k,
  triple (judged n k) (validateEachTooltip W page tooltips i remaining)
    (fun _ => judged n (k + remaining)) (fun r => isValid r = false).
Proof.
  induction remaining as [|remaining IH]; intros i k; simpl.
  - apply triple_ret. intros r H. now rewrite Nat.add_0_r.
  - eapply triple_bind; [apply validateOneTooltip_judges|].
    intros []. replace (k + S remaining)%nat with (S k + remaining)%nat by lia.
    apply IH.
Qed.

Lemma count_result (l : Locator) (w : W) :
  match fst (count page l w) with
  | inr n => nothingLocated page -> n = 0%nat
  | inl _ => True
  end.
Proof.
  destruct (fst (count page l w)) as [e|n] eqn:Hc; [exact I|].
  intro H. rewrite (H l w) in Hc. congruence.
Qed.

(** The fallbacks do not touch [result]; on a page where every [count]
    answers 0 they find nothing. *)
Lemma locateTooltips_result (P : R -> Prop) :
  triple P (locateTooltips W page)
    (fun found r => (nothingLocated page -> snd found = 0%nat) /\ P r) P.
Proof.
  set (good := fun n : nat => nothingLocated page -> n = 0%nat).
  assert (Hcount : forall (pre : R -> Prop) l,
            (forall r, pre r -> P r) ->
            triple pre (await (count page l)) (fun n r => good n /\ P r) P).
  { intros pre l Hpre.
    apply triple_await_result with (good := good); auto.
    intro w. apply count_result. }
  unfold locateTooltips.
  eapply triple_bind; [apply Hcount; auto|].
  intro n1. cbv beta.
  eapply triple_bind with (Mid := fun found r => good (snd found) /\ P r).
  { destruct (n1 =? 0)%nat.
    - eapply triple_bind; [apply Hcount; tauto|].
      intro n2. cbv beta. apply triple_ret. auto.
    - apply triple_ret. auto. }
  intro found. cbv beta.
  destruct (snd found =? 0)%nat.
  - eapply triple_bind; [apply Hcount; tauto|].
    intro n3. cbv beta. apply triple_ret. auto.
  - apply triple_ret. auto.
Qed.

Lemma validateTooltipsTry_post :
  triple (fun r => r = initialTooltipResult) (validateTooltipsTry page)
    (fun _ => tooltipsPost page) (tooltipsThrown page).
Proof.
  unfold validateTooltipsTry.
  eapply triple_bind with
    (Mid := fun found r => (nothingLocated page -> snd found = 0%nat) /\
                           r = initialTooltipResult).
  { eapply triple_weaken;
      [apply locateTooltips_result with (P := fun r => r = initialTooltipResult)
      | auto | auto | intros r ->; split; reflexivity]. }
  intro found. cbv beta. apply triple_assume. intro Hfound.
  set (n := snd found) in *.
  eapply triple_bind with (Mid := fun _ => judged n 0).
  { apply triple_update. intros r ->. unfold judged; simpl. auto. }
  intros []. destruct (n =? 0)%nat eqn:Hn.
  - apply Nat.eqb_eq in Hn.
    apply triple_update. intros r (Hv & Hc & _).
    unfold tooltipsPost; simpl. rewrite Hv, Hc.
    repeat split; auto; discriminate.
  - apply Nat.eqb_neq in Hn.
    assert (Hsome : ~ nothingLocated page) by tauto.
    assert (Hexn : forall r, isValid r = false -> tooltipsThrown page r)
      by (intros r H; split; [exact H|intro; contradiction]).
    eapply triple_bind with (Mid := fun _ => judged n 0).
    { apply triple_consoleLog. auto. }
    intros []. eapply triple_bind with (Mid := fun _ => judged n (0 + n)).
    { eapply triple_weaken;
        [apply (validateEachTooltip_judges (fst found) n n 0%nat 0%nat)| | |];
        auto. }
    intros []. eapply triple_bind; [apply triple_result|].
    intro r0. cbv beta.
    eapply triple_bind with (Mid := fun _ => tooltipsPost page).
    { apply triple_update. intros r [-> (Hv & Hc & Hk)].
      unfold tooltipsPost; simpl. rewrite Hc.
      split; [intro; contradiction|]. split; [|intro; contradiction].
      intro Hb. apply andb_true_iff in Hb. destruct Hb as [_ Hlen].
      apply Nat.eqb_eq in Hlen.
      split; [lia|]. now apply length_zero_iff_nil. }
    intros []. eapply triple_bind; [apply triple_result|].
    intro r1. cbv beta.
    destruct (isValid r1); apply triple_consoleLog;
      intros r H; exact (proj2 H).
Qed.

(** [validateTooltips] returns: the [result] of its [try] block, or that
    [result] with the thrown error added to [errors]. *)
Lemma validateTooltips_returns (w : W) :
  exists r w',
    validateTooltips page w = (inr r, w') /\
    match validateTooltipsTry page (w, initialTooltipResult) with
    | (inr _, (_, r0)) => r = r0 /\ tooltipsPost page r
    | (inl e, (_, r0)) =>
      r = pushError ("Error checking tooltips: " ++ e) r0 /\
      tooltipsThrown page r0
    end.
Proof.
  apply (returningResult_returns W _ initialTooltipResult
           (validateTooltipsTry page)
           (fun e => pushError ("Error checking tooltips: " ++ e))
           (fun r => r = initialTooltipResult)
           (tooltipsPost page) (tooltipsThrown page) w eq_refl).
  apply validateTooltipsTry_post.
Qed.

End Tooltips.

(** C3. [validateTooltips] returns a result that is invalid whenever its
    [tooltipCount] is 0, in particular on every page where no selector of
    the fallback chain locates an element; and a valid result has
    [validTooltips = tooltipCount] and no errors. *)
Theorem validateTooltips_validity (W : Type) (page : Page W) (w : W) :
  exists r w',
    validateTooltips page w = (inr r, w') /\
    (tooltipCount r = 0%nat -> isValid r = false) /\
    (isValid r = true ->
       validTooltips r = tooltipCount r /\ errors r = []) /\
    ((forall l w0, fst (count page l w0) = inr 0%nat) ->
       tooltipCount r = 0%nat /\ isValid r = false).
Proof.
  destruct (validateTooltips_returns W page w) as (r & w' & Hrun & Hbody).
  exists r, w'. split; [exact Hrun|].
  destruct (validateTooltipsTry _ _) as [[e|[]] [w1 r1]].
  - destruct Hbody as [-> [Hv Hc]]. simpl. rewrite Hv.
    repeat split; auto; discriminate.
  - apply Hbody.
Qed.

(** A page with one well-formed tooltip is valid. *)
Example validateTooltips_accepts_well_formed :
  fst (validateTooltips (staticPage wellFormedTips None) tt)
  = inr {| isValid := true; tooltipCount := 1; validTooltips := 1;
           errors := [];
           details :=
             [ {| TooltipDetail.term := "ROI";
                  TooltipDetail.tooltip := "Return on investment measures gain";
                  TooltipDetail.isValid := true;
                  TooltipDetail.error := None |} ] |}.
Proof. vm_compute. reflexivity. Qed.

Lemma validateTooltips_validity_witness :
  exists r w',
    validateTooltips (staticPage [] None) tt = (inr r, w') /\
    (tooltipCount r = 0%nat -> isValid r = false) /\
    (isValid r = true ->
       validTooltips r = tooltipCount r /\ errors r = []) /\
    ((forall l w0, fst (count (staticPage [] None) l w0) = inr 0%nat) ->
       tooltipCount r = 0%nat /\ isValid r = false).
Proof.
  exact (validateTooltips_validity unit (staticPage [] None) tt).
Defined.

End TooltipFacts.

(** ** The section validator *)

Module SectionFacts.
Import Async JsString TooltipChecker AsyncLogic StringFacts.
Import SectionValidationResult.

Section Sections.
Variable W : Type.
Variable page : Page W.

Local Abbreviation R := SectionValidationResult.t.

Lemma noContentYet_sectionPost (minLength : Z) (r : R) :
  noContentYet r -> sectionPost minLength r.
Proof.
  intros [Hv Hc]. split.
  - intros text H. congruence.
  - intro H. congruence.
Qed.

(** Looking for the section does not touch [result]. *)
Lemma findSection_preserves (selectors : list string) (P : R -> Prop) :
  forall section,
  triple P (findSection W page selectors section) (fun _ => P) P.
Proof.
  induction selectors as [|selector selectors IH]; intro section; simpl.
  - now apply triple_ret.
  - eapply triple_bind; [apply triple_await|].
    intros [|]; [now apply triple_ret|apply IH].
Qed.

(** Only a text that is not empty, not shorter than [minLength] and free of
    placeholder phrases makes the result valid. *)
Lemma checkContent_post (minLength : Z) (text : string) :
  triple (fun r => isValid r = false /\ content r = Some text /\
                   characterCount r = jsLength text)
    (checkContent W minLength) (fun _ => sectionPost minLength)
    noContentYet.
Proof.
  unfold checkContent.
  eapply triple_bind; [apply triple_result|].
  intro r0. cbv beta.
  repeat match goal with
         | |- triple _ (if ?b then _ else _) _ _ => destruct b eqn:?
         end;
    apply triple_update; intros r [-> (Hv & Hc & Hn)];
    split; simpl; try congruence.
  intros _. exists text. rewrite Hc in *. simpl in *.
  repeat split; auto. lia.
Qed.

Lemma validateSectionTry_post (selectors : list string) (minLength : Z)
  (name : string) :
  triple (fun r => r = initialSectionResult name)
    (validateSectionTry page selectors minLength)
    (fun _ => sectionPost minLength) noContentYet.
Proof.
  unfold validateSectionTry.
  eapply triple_bind with (Mid := fun _ => noContentYet).
  { eapply triple_weaken;
      [apply findSection_preserves with (P := noContentYet)
      | intros r ->; split; reflexivity | auto | auto]. }
  assert (Hfail : forall msg,
            triple noContentYet (update (W := W) (setError msg))
              (fun _ => sectionPost minLength) noContentYet).
  { intro msg. apply triple_update. intros r H.
    apply noContentYet_sectionPost. exact H. }
  intros [section|]; [|apply Hfail].
  eapply triple_bind; [apply triple_await|].
  intros [|]; simpl; [|apply Hfail].
  eapply triple_bind; [apply triple_await|].
  intro text. cbv beta.
  eapply triple_bind with
    (Mid := fun _ r => isValid r = false /\ content r = Some (orEmpty text)).
  { apply triple_update. intros r [Hv _]. simpl. auto. }
  intros []. eapply triple_bind; [apply triple_result|].
  intro r0. cbv beta.
  eapply triple_bind with
    (Mid := fun _ r => isValid r = false /\ content r = Some (orEmpty text) /\
                       characterCount r = jsLength (orEmpty text)).
  { apply triple_update. intros r [-> [Hv Hc]]. simpl. rewrite Hc. auto. }
  intros []. eapply triple_bind; [apply checkContent_post|].
  intros []. eapply triple_bind; [apply triple_result|].
  intro r1. cbv beta.
  destruct (isValid r1); apply triple_consoleLog;
    intros r H; exact (proj2 H).
Qed.

(** [validateSection] returns: the [result] of its [try] block, or that
    [result] with the thrown error in [error]. *)
Lemma validateSection_returns (name : string) (selectors : list string)
  (minLength : Z) (w : W) :
  exists r w',
    validateSection page name selectors minLength w = (inr r, w') /\
    match validateSectionTry page selectors minLength
            (w, initialSectionResult name) with
    | (inr _, (_, r0)) => r = r0 /\ sectionPost minLength r
    | (inl e, (_, r0)) =>
      r = setError ("Error validating section: " ++ e) r0 /\ noContentYet r0
    end.
Proof.
  apply (returningResult_returns W _ (initialSectionResult name)
           (validateSectionTry page selectors minLength)
           (fun e => setError ("Error validating section: " ++ e))
           (fun r => r = initialSectionResult name)
           (sectionPost minLength) noContentYet w eq_refl).
  apply validateSectionTry_post.
Qed.

Lemma validateSection_post (name : string) (selectors : list string)
  (minLength : Z) (w : W) :
  exists r w',
    validateSection page name selectors minLength w = (inr r, w') /\
    sectionPost minLength r.
Proof.
  destruct (validateSection_returns name selectors minLength w)
    as (r & w' & Hrun & Hbody).
  exists r, w'. split; [exact Hrun|].
  destruct (validateSectionTry _ _ _ _) as [[e|[]] [w1 r1]].
  - destruct Hbody as [-> [Hv Hc]]. apply noContentYet_sectionPost.
    split; simpl; assumption.
  - apply Hbody.
Qed.

End Sections.

(** C4. When the text [validateSection] extracted contains a phrase of the
    placeholder list as a substring, letter case apart, the result it
    returns is not valid. *)
Theorem validateSection_rejects_placeholder
  (W : Type) (page : Page W) (name : string) (selectors : list string)
  (minLength : Z) (w : W) (text phrase : string) :
  In phrase sectionPlaceholderPatterns ->
  spec_containsIgnoringCase text phrase ->
  exists r w',
    validateSection page name selectors minLength w = (inr r, w') /\
    (content r = Some text -> isValid r = false).
Proof.
  intros Hin Hsub.
  destruct (validateSection_post W page name selectors minLength w)
    as (r & w' & Hrun & _ & Hvalid).
  exists r, w'. split; [exact Hrun|]. intro Hc.
  destruct (isValid r); [|reflexivity].
  destruct (Hvalid eq_refl) as (text' & Hc' & _ & Hnone).
  assert (text' = text) by congruence. subst text'.
  assert (Hsome : somePatternIn sectionPlaceholderPatterns text = true)
    by (apply somePatternIn_spec; eauto).
  congruence.
Qed.

(** The placeholder is what rejects [loadingBody]: it is long enough, and
    with the phrase taken out it is accepted. *)
Example validateSection_placeholder_decides :
  (50 <= jsLength loadingBody) /\
  option_map isValid
    (match fst (validateSection (staticPage [] (Some loadingBody))
                  "Strategy" strategySelectors 50 tt) with
     | inr r => Some r | inl _ => None end) = Some false /\
  option_map isValid
    (match fst (validateSection
                  (staticPage []
                     (Some "Strategy: this section is ready and has enough characters to pass"%string))
                  "Strategy" strategySelectors 50 tt) with
     | inr r => Some r | inl _ => None end) = Some true.
Proof. repeat split; vm_compute; try reflexivity; discriminate. Qed.

Lemma validateSection_rejects_placeholder_witness :
  exists r w',
    validateSection (staticPage [] (Some loadingBody)) "Strategy"
      strategySelectors 50 tt = (inr r, w') /\
    (content r = Some loadingBody -> isValid r = false).
Proof.
  apply (validateSection_rejects_placeholder unit
           (staticPage [] (Some loadingBody)) "Strategy" strategySelectors
           50 tt loadingBody "Loading...").
  - simpl. tauto.
  - exists "Strategy: this section is still "%string, "LOADING..."%string,
      " and has enough characters to pass"%string.
    split; reflexivity.
Defined.

(** C5. When the text [validateSection] extracted is shorter than
    [minLength], the result it returns is not valid, and its
    [characterCount] is the length of that text. *)
Theorem validateSection_rejects_short
  (W : Type) (page : Page W) (name : string) (selectors : list string)
  (minLength : Z) (w : W) (text : string) :
  0 <= minLength ->
  jsLength text < minLength ->
  exists r w',
    validateSection page name selectors minLength w = (inr r, w') /\
    (content r = Some text ->
       isValid r = false /\ characterCount r = jsLength text).
Proof.
  intros _ Hshort.
  destruct (validateSection_post W page name selectors minLength w)
    as (r & w' & Hrun & Hcount & Hvalid).
  exists r, w'. split; [exact Hrun|]. intro Hc.
  split; [|exact (Hcount text Hc)].
  destruct (isValid r); [|reflexivity].
  destruct (Hvalid eq_refl) as (text' & Hc' & Hlen & _).
  assert (text' = text) by congruence. subst text'. lia.
Qed.

Lemma validateSection_rejects_short_witness :
  exists r w',
    validateSection (staticPage [] (Some shortBody)) "Strategy"
      strategySelectors 50 tt = (inr r, w') /\
    (content r = Some shortBody ->
       isValid r = false /\ characterCount r = jsLength shortBody).
Proof.
  apply (validateSection_rejects_short unit
           (staticPage [] (Some shortBody)) "Strategy" strategySelectors
           50 tt shortBody).
  - lia.
  - vm_compute. reflexivity.
Defined.

(** C10. Neither validator throws. When the [try] block of
    [validateSection] throws [e], the result returned is not valid and its
    [error] is the text of [e] behind a fixed prefix; when the [try] block
    of [validateTooltips] throws [e], the result returned is not valid and
    that text is appended to the [errors] there were. *)
Theorem validators_never_throw
  (W : Type) (page : Page W) (name : string) (selectors : list string)
  (minLength : Z) (w : W) :
  (exists r w',
     validateSection page name selectors minLength w = (inr r, w') /\
     forall e s,
       validateSectionTry page selectors minLength
         (w, initialSectionResult name) = (inl e, s) ->
       isValid r = false /\
       error r = Some ("Error validating section: " ++ e)%string) /\
  (exists r w',
     validateTooltips page w = (inr r, w') /\
     forall e s,
       validateTooltipsTry page (w, initialTooltipResult) = (inl e, s) ->
       TooltipValidationResult.isValid r = false /\
       TooltipValidationResult.errors r
         = TooltipValidationResult.errors (snd s)
           ++ [("Error checking tooltips: " ++ e)%string]).
Proof.
  split.
  - destruct (validateSection_returns W page name selectors minLength w)
      as (r & w' & Hrun & Hbody).
    exists r, w'. split; [exact Hrun|].
    intros e s Htry. rewrite Htry in Hbody. destruct s as [w1 r1].
    destruct Hbody as [-> [Hv _]]. simpl. auto.
  - destruct (TooltipFacts.validateTooltips_returns W page w)
      as (r & w' & Hrun & Hbody).
    exists r, w'. split; [exact Hrun|].
    intros e s Htry. rewrite Htry in Hbody. destruct s as [w1 r1].
    destruct Hbody as [-> [Hv _]]. simpl. auto.
Qed.

Lemma validators_never_throw_witness :
  (exists r w',
     validateSection closedPage "Strategy" strategySelectors 50 tt
       = (inr r, w') /\
     forall e s,
       validateSectionTry closedPage strategySelectors 50
         (tt, initialSectionResult "Strategy") = (inl e, s) ->
       isValid r = false /\
       error r = Some ("Error validating section: " ++ e)%string) /\
  (exists r w',
     validateTooltips closedPage tt = (inr r, w') /\
     forall e s,
       validateTooltipsTry closedPage (tt, initialTooltipResult)
         = (inl e, s) ->
       TooltipValidationResult.isValid r = false /\
       TooltipValidationResult.errors r
         = TooltipValidationResult.errors (snd s)
           ++ [("Error checking tooltips: " ++ e)%string]).
Proof.
  exact (validators_never_throw unit closedPage "Strategy" strategySelectors
           50 tt).
Defined.

End SectionFacts.

(** ** Layout centering *)

Module LayoutFacts.
Import Async LayoutCenter.

Lemma expectLessThanOrEqual_passes (W : Type) (received expected : Q)
  (w w' : W) :
  expectLessThanOrEqual received expected w = (inr tt, w') <->
  (received <= expected)%Q /\ w' = w.
Proof.
  unfold expectLessThanOrEqual.
  destruct (Qle_bool received expected) eqn:Hle.
  - apply Qle_bool_iff in Hle. unfold ret. split.
    + intro H. injection H as <-. auto.
    + intros [_ ->]. reflexivity.
  - unfold throw. split; [discriminate|].
    intros [H _]. apply Qle_bool_iff in H. congruence.
Qed.

(** C7. The dynamic-content test passes exactly when its measurements
    succeed, the offset measured after the response is rendered is at most
    5, and its distance from the offset measured before is at most 5 on a
    viewport at most 768 wide and at most 2 on a wider one. *)
Theorem dynamic_content_tolerances (W : Type) (page : Page W) (w w' : W) :
  layoutCenteringWorksWithDynamicContent page w = (inr tt, w') <->
  exists viewport initialOffset finalOffset,
    measureDynamicContent page w
      = (inr (viewport, initialOffset, finalOffset), w') /\
    (finalOffset <= 5)%Q /\
    (Qabs (finalOffset - initialOffset)
     <= if (Viewport.width viewport <=? 768)%Z then 5 else 2)%Q.
Proof.
  unfold layoutCenteringWorksWithDynamicContent, bind.
  destruct (measureDynamicContent page w) as [[e|[[viewport i] f]] w1].
  - split; [discriminate|]. intros (? & ? & ? & H & _). discriminate.
  - unfold assertDynamicContent, bind, consoleLog, ret.
    assert (Hmax : maxChange viewport
                   = if Viewport.width viewport <=? 768 then 5%Q else 2%Q)
      by reflexivity.
    split.
    + destruct (expectLessThanOrEqual f tolerance w1) as [[e1|[]] w2] eqn:H1;
        [discriminate|].
      destruct (expectLessThanOrEqual (Qabs (f - i)) (maxChange viewport) w2)
        as [[e2|[]] w3] eqn:H2; [discriminate|].
      intro H. injection H as <-.
      apply expectLessThanOrEqual_passes in H1, H2.
      destruct H1 as [H1 ->], H2 as [H2 ->].
      exists viewport, i, f. rewrite <- Hmax. auto.
    + intros (viewport' & i' & f' & Hm & Hf & Hc).
      injection Hm as <- <- <- <-.
      rewrite <- Hmax in Hc.
      rewrite (proj2 (expectLessThanOrEqual_passes W f tolerance w1 w1)
                 (conj Hf eq_refl)).
      rewrite (proj2 (expectLessThanOrEqual_passes W _ _ w1 w1)
                 (conj Hc eq_refl)).
      reflexivity.
Qed.

Lemma dynamic_content_tolerances_witness :
  layoutCenteringWorksWithDynamicContent
    (reflowingPage tabletPortrait 768 0 4) 0%nat = (inr tt, 1%nat).
Proof.
  apply (proj2 (dynamic_content_tolerances nat
                  (reflowingPage tabletPortrait 768 0 4) 0%nat 1%nat)).
  do 3 eexists. split; [vm_compute; reflexivity|].
  split; vm_compute; discriminate.
Defined.

(** On a laptop viewport the same reflow of 4 pixels fails the test: the
    change allowed there is 2. *)
Example dynamic_content_desktop_reflow_fails :
  fst (layoutCenteringWorksWithDynamicContent
         (reflowingPage laptop 1366 0 4) 0%nat)
  = inl "Error: expect(received).toBeLessThanOrEqual(expected)"%string.
Proof. vm_compute. reflexivity. Qed.

(** C8. For a wrapper at [x = 0] as wide as the viewport the offset
    [|(x + width / 2) - viewportWidth / 2|] is 0, and the assertion
    [offset <= 5] passes. *)
Theorem centered_wrapper_offset_zero (viewportWidth : Z) (y height : Q) :
  let box := {| Box.x := 0; Box.y := y;
                Box.width := inject_Z viewportWidth;
                Box.height := height |} in
  (centeringOffset box viewportWidth == 0)%Q /\
  forall (W : Type) (w : W),
    expectLessThanOrEqual (centeringOffset box viewportWidth) tolerance w
      = (inr tt, w).
Proof.
  intro box.
  assert (Hzero : (centeringOffset box viewportWidth == 0)%Q).
  { unfold centeringOffset, box. cbn [Box.x Box.width].
    transitivity (Qabs 0); [|reflexivity].
    apply Qabs_wd. unfold Qdiv. ring. }
  split; [exact Hzero|].
  intros W w. apply expectLessThanOrEqual_passes.
  split; [|reflexivity].
  rewrite Hzero. unfold tolerance. discriminate.
Qed.

End LayoutFacts.

(** ** More on retrying *)

Module RetryMoreFacts.
Import Async JsString JsNumber RetryHelper RetryPageOperation NumberFacts
  RetryFacts.

Section Loops.
Variable Math_pow : number -> number -> number.
Variables W E T : Type.
Variable operation : W -> (E + T) * W.
Variable setTimeout : number -> W -> W.
Variable config : RetryOptions.

Local Abbreviation loop := (retryLoop Math_pow operation setTimeout config).

(** The form of a run of the loop entered at [attempt]. *)
Lemma retryLoop_shape (fuel : nat) :
  forall attempt lastError w o tr w',
  loop fuel attempt lastError w = Some (o, tr, w') ->
  attempt <= maxRetries config ->
  exists fails last,
    attempts tr = fails ++ [(attempt + Z.of_nat (length fails), last)] /\
    map fst fails = attemptNumbers attempt (length fails) /\
    Forall (fun p => isRejected (snd p) = true) fails /\
    sleeps tr = map (backoffDelay Math_pow config) (map fst fails) /\
    attempt + Z.of_nat (length fails) <= maxRetries config /\
    o = outcomeOf last /\
    (isRejected last = true ->
     attempt + Z.of_nat (length fails) = maxRetries config).
Proof.
  induction fuel as [|fuel IH]; intros attempt lastError w o tr w' Hrun Hle;
    [discriminate|].
  simpl in Hrun.
  replace (attempt <=? maxRetries config) with true in Hrun
    by (symmetry; apply Z.leb_le; lia).
  destruct (operation w) as [[error|v] w1].
  2:{ injection Hrun as <- <- <-. exists [], (inr v). simpl.
      rewrite Z.add_0_r. repeat split; auto; discriminate. }
  destruct (attempt =? maxRetries config) eqn:Heq.
  { apply Z.eqb_eq in Heq. injection Hrun as <- <- <-.
    exists [], (inl error). simpl. rewrite Z.add_0_r. repeat split; auto; lia. }
  apply Z.eqb_neq in Heq.
  destruct (retryLoop _ _ _ _ _ _ _) as [[[o1 tr1] w2]|] eqn:Hrec;
    simpl in Hrun; [|discriminate].
  injection Hrun as <- <- <-.
  destruct (IH _ _ _ _ _ _ Hrec) as (fails & last & Ha & Hn & Hf & Hs & Hb & Ho & Hl);
    [lia|].
  exists ((attempt, inl error) :: fails), last. simpl.
  replace (attempt + Z.pos (Pos.of_succ_nat (length fails)))
    with (attempt + 1 + Z.of_nat (length fails)) by lia.
  rewrite Ha, Hs. repeat split; auto. now rewrite Hn.
Qed.

End Loops.

Section PageLoops.
Variable Math_pow : number -> number -> number.
Variables W E T : Type.
Variable operation : W -> (E + T) * W.
Variable setTimeout : number -> W -> W.
Variable screenshot : string -> W -> (exn + unit) * W.
Variable operationName : string.
Variable config : RetryOptions.

Local Abbreviation ploop :=
  (retryPageLoop Math_pow operation setTimeout screenshot operationName config).

Lemma pageAttempts_app (tr1 tr2 : list (PageEvent E T)) :
  pageAttempts (tr1 ++ tr2) = pageAttempts tr1 ++ pageAttempts tr2.
Proof.
  induction tr1 as [|ev tr1 IH]; simpl; [reflexivity|].
  destruct ev; simpl; now rewrite IH.
Qed.

Lemma pageSleeps_app (tr1 tr2 : list (PageEvent E T)) :
  pageSleeps (tr1 ++ tr2) = pageSleeps tr1 ++ pageSleeps tr2.
Proof.
  induction tr1 as [|ev tr1 IH]; simpl; [reflexivity|].
  destruct ev; simpl; now rewrite IH.
Qed.

Lemma screenshotsTried_app (tr1 tr2 : list (PageEvent E T)) :
  screenshotsTried (tr1 ++ tr2) = screenshotsTried tr1 ++ screenshotsTried tr2.
Proof.
  induction tr1 as [|ev tr1 IH]; simpl; [reflexivity|].
  destruct ev; simpl; now rewrite IH.
Qed.

(** Saved or not, a screenshot is one try at the path of the attempt, and
    nothing else the trace readers see. *)
Lemma captureScreenshot_events (attempt : Z) (w : W) :
  let shot := fst (captureScreenshot (E := E) (T := T) screenshot
                     operationName attempt w) in
  pageAttempts shot = [] /\ pageSleeps shot = [] /\
  screenshotsTried shot = [screenshotPath operationName attempt].
Proof.
  unfold captureScreenshot.
  destruct (screenshot _ w) as [[e|[]] w']; simpl; auto.
Qed.

Lemma retryPageLoop_total (fuel : nat) :
  forall attempt lastError w,
  (Z.to_nat (maxRetries config - attempt + 1) < fuel)%nat ->
  exists run, ploop fuel attempt lastError w = Some run.
Proof.
  induction fuel as [|fuel IH]; intros attempt lastError w Hfuel; [lia|].
  simpl. destruct (attempt <=? maxRetries config) eqn:Hle; [|eauto].
  apply Z.leb_le in Hle.
  destruct (operation w) as [[error|v] w1]; [|eauto].
  destruct (captureScreenshot _ _ _ w1) as [shot w2].
  destruct (attempt =? maxRetries config) eqn:Heq; [eauto|].
  apply Z.eqb_neq in Heq.
  destruct (IH (attempt + 1) (Some error)
              (setTimeout (backoffDelay Math_pow config attempt) w2))
    as [[[o tr] w'] Hrun]; [lia|].
  rewrite Hrun. simpl. eauto.
Qed.

Lemma retryPageLoop_shape (fuel : nat) :
  forall attempt lastError w o tr w',
  ploop fuel attempt lastError w = Some (o, tr, w') ->
  attempt <= maxRetries config ->
  screenshotsTried tr = screenshotsDue operationName (pageAttempts tr) /\
  exists fails last,
    pageAttempts tr
      = fails ++ [(attempt + Z.of_nat (length fails), last)] /\
    map fst fails = attemptNumbers attempt (length fails) /\
    Forall (fun p => isRejected (snd p) = true) fails /\
    pageSleeps tr = map (backoffDelay Math_pow config) (map fst fails) /\
    attempt + Z.of_nat (length fails) <= maxRetries config /\
    o = outcomeOf last /\
    (isRejected last = true ->
     attempt + Z.of_nat (length fails) = maxRetries config).
Proof.
  induction fuel as [|fuel IH]; intros attempt lastError w o tr w' Hrun Hle;
    [discriminate|].
  simpl in Hrun.
  replace (attempt <=? maxRetries config) with true in Hrun
    by (symmetry; apply Z.leb_le; lia).
  destruct (operation w) as [[error|v] w1].
  2:{ injection Hrun as <- <- <-.
      split.
      - simpl. now destruct (1 <? attempt).
      - exists [], (inr v). simpl. rewrite Z.add_0_r.
        repeat split; auto; try discriminate;
          now destruct (1 <? attempt). }
  pose proof (captureScreenshot_events attempt w1) as Hshot.
  destruct (captureScreenshot _ _ _ w1) as [shot w2].
  simpl in Hshot. destruct Hshot as (Hsa & Hss & Hst).
  destruct (attempt =? maxRetries config) eqn:Heq.
  { apply Z.eqb_eq in Heq. injection Hrun as <- <- <-.
    simpl. rewrite pageAttempts_app, pageSleeps_app, screenshotsTried_app.
    rewrite Hsa, Hss, Hst. simpl. split; [reflexivity|].
    exists [], (inl error). simpl. rewrite Z.add_0_r.
    repeat split; auto; lia. }
  apply Z.eqb_neq in Heq.
  destruct (retryPageLoop _ _ _ _ _ _ _ _ _) as [[[o1 tr1] w3]|] eqn:Hrec;
    simpl in Hrun; [|discriminate].
  injection Hrun as <- <- <-.
  destruct (IH _ _ _ _ _ _ Hrec)
    as (Hshots & fails & last & Ha & Hn & Hf & Hs & Hb & Ho & Hl); [lia|].
  simpl. rewrite !pageAttempts_app, !pageSleeps_app, !screenshotsTried_app.
  rewrite Hsa, Hss, Hst. simpl. split.
  - unfold screenshotsDue in *. simpl. now rewrite Hshots.
  - exists ((attempt, inl error) :: fails), last. simpl.
    replace (attempt + Z.pos (Pos.of_succ_nat (length fails)))
      with (attempt + 1 + Z.of_nat (length fails)) by lia.
    rewrite Ha, Hs. repeat split; auto. now rewrite Hn.
Qed.

End PageLoops.

Lemma attemptNumbers_length (first : Z) (n : nat) :
  length (attemptNumbers first n) = n.
Proof.
  revert first. induction n as [|n IH]; intro first; simpl; auto.
Qed.

(** X1. With [maxRetries >= 1], a run of [retry] or [retryValidation]
    invokes the operation at attempts 1, 2, ..., n with [n <= maxRetries];
    every invocation but possibly the last is rejected; after each rejected
    one that is not the last it suspends for the backoff delay of that
    attempt; it ends as the last invocation ended, and it throws only when
    [n = maxRetries]. *)
Theorem retry_run_shape
  (Math_pow : number -> number -> number)
  (W E T : Type) (operation : W -> (E + T) * W)
  (setTimeout : number -> W -> W)
  (operationName : string) (options : PartialRetryOptions) (w : W) :
  let config := mergeOptions DEFAULT_RETRY_OPTIONS options in
  1 <= maxRetries config ->
  (exists o tr w',
     retry Math_pow operation setTimeout options w = Some (o, tr, w') /\
     wellShaped Math_pow config o (attempts tr) (sleeps tr)) /\
  (exists o tr w',
     retryValidation Math_pow operation setTimeout operationName options w
       = Some (o, tr, w') /\
     wellShaped Math_pow config o (attempts tr) (sleeps tr)).
Proof.
  intros config HN.
  destruct (retryValidation_as_retry Math_pow W E T operation setTimeout config
              operationName w) as (o & tr & tr' & w' & Hrun & Hrun' & Ha & Hs).
  destruct (retryLoop_shape Math_pow W E T operation setTimeout config _ _ _ _ _
    _ _ Hrun HN) as (fails & last & H).
  assert (Hshape : wellShaped Math_pow config o (attempts tr) (sleeps tr))
    by (exists fails, last; exact H).
  split; exists o; [exists tr|exists tr']; exists w'; split; auto.
  now rewrite Ha, Hs.
Qed.

Lemma retry_run_shape_witness :
  (exists o tr w',
     retry productOfFactors thirdTimeLucky timePasses noOptions 0%nat
       = Some (o, tr, w') /\
     wellShaped productOfFactors DEFAULT_RETRY_OPTIONS o (attempts tr)
       (sleeps tr)) /\
  (exists o tr w',
     retryValidation productOfFactors thirdTimeLucky timePasses
       "Response rendering" noOptions 0%nat
       = Some (o, tr, w') /\
     wellShaped productOfFactors DEFAULT_RETRY_OPTIONS o (attempts tr)
       (sleeps tr)).
Proof.
  apply (retry_run_shape productOfFactors nat nat string thirdTimeLucky
    timePasses "Response rendering" noOptions 0%nat).
  vm_compute. discriminate.
Defined.

(** X2. With [maxRetries <= 0] the three retry functions never invoke the
    operation: they throw [lastError], which is still [null], at once. *)
Theorem retry_no_attempts
  (Math_pow : number -> number -> number)
  (W E T : Type) (operation : W -> (E + T) * W)
  (setTimeout : number -> W -> W)
  (screenshot : string -> W -> (exn + unit) * W)
  (operationName : string) (options : PartialRetryOptions) (w : W) :
  maxRetries (mergeOptions DEFAULT_RETRY_OPTIONS options) <= 0 ->
  retry Math_pow operation setTimeout options w = Some (Thrown None, [], w) /\
  retryValidation Math_pow operation setTimeout operationName options w
    = Some (Thrown None, [], w) /\
  retryPageOperation Math_pow operation setTimeout screenshot operationName
    options w
    = Some (Thrown None, [], w).
Proof.
  intro HN.
  unfold retry, retryValidation, retryPageOperation. cbv zeta.
  set (config := mergeOptions DEFAULT_RETRY_OPTIONS options) in *.
  unfold loopFuel.
  cbn [retryLoop retryValidationLoop retryPageLoop].
  replace (1 <=? maxRetries config) with false
    by (symmetry; apply Z.leb_gt; lia).
  auto.
Qed.

Lemma retry_no_attempts_witness :
  retry productOfFactors countingFailure timePasses noAttempts 0%nat
    = Some (Thrown None, [], 0%nat) /\
  retryValidation productOfFactors countingFailure timePasses "Query input"
    noAttempts 0%nat
    = Some (Thrown None, [], 0%nat) /\
  retryPageOperation productOfFactors countingFailure timePasses noScreenshots
    "Query input" noAttempts 0%nat
    = Some (Thrown None, [], 0%nat).
Proof.
  apply (retry_no_attempts productOfFactors nat nat unit countingFailure
    timePasses noScreenshots "Query input" noAttempts 0%nat).
  vm_compute. discriminate.
Defined.

(** X4. Where nothing is lost to rounding, the delay does not decrease from
    one attempt to a later one: with a base delay that is not negative, a
    multiplier of at least 1 and a finite [maxDelay], if at both attempts
    the product [baseDelay * Math.pow(backoffMultiplier, attempt - 1)] is
    finite and stands for the rational it names, the earlier delay is at
    most the later one, as doubles and as rationals. *)
Theorem backoffDelay_monotone
  (Math_pow : number -> number -> number) (config : RetryOptions)
  (k k' : Z) :
  let b := baseDelay config in
  let m := backoffMultiplier config in
  let M := maxDelay config in
  let product := fun j : Z => (b * Math_pow m (ofZ (j - 1)))%float in
  (0 <= valueOf b)%Q ->
  (1 <= valueOf m)%Q ->
  is_finite M = true ->
  k <= k' ->
  is_finite (product k) = true ->
  is_finite (product k') = true ->
  (valueOf (product k) == valueOf b * Qpower (valueOf m) (k - 1))%Q ->
  (valueOf (product k') == valueOf b * Qpower (valueOf m) (k' - 1))%Q ->
  (backoffDelay Math_pow config k <=? backoffDelay Math_pow config k')%float
    = true /\
  (valueOf (backoffDelay Math_pow config k)
   <= valueOf (backoffDelay Math_pow config k'))%Q.
Proof.
  intros b m M product Hb Hm HM Hk Hfin Hfin' Hexact Hexact'.
  assert (Hvalues : (valueOf (backoffDelay Math_pow config k)
                     <= valueOf (backoffDelay Math_pow config k'))%Q).
  { unfold backoffDelay. fold b m M. fold (product k) (product k').
    rewrite (Math_min_valueOf (product k) M Hfin HM).
    rewrite (Math_min_valueOf (product k') M Hfin' HM).
    apply Q.min_le_compat_r. rewrite Hexact, Hexact'.
    rewrite !(Qmult_comm (valueOf b)).
    apply Qmult_le_compat_r; [|exact Hb].
    apply Qpower_le_compat_l; [lia|exact Hm]. }
  split; [|exact Hvalues].
  apply valueOf_le_leb; [| |exact Hvalues];
    unfold backoffDelay; apply Math_min_finite; assumption.
Qed.

Lemma backoffDelay_monotone_witness :
  (backoffDelay productOfFactors DEFAULT_RETRY_OPTIONS 2
   <=? backoffDelay productOfFactors DEFAULT_RETRY_OPTIONS 4)%float = true /\
  (valueOf (backoffDelay productOfFactors DEFAULT_RETRY_OPTIONS 2)
   <= valueOf (backoffDelay productOfFactors DEFAULT_RETRY_OPTIONS 4))%Q.
Proof.
  apply (backoffDelay_monotone productOfFactors DEFAULT_RETRY_OPTIONS 2 4).
  - vm_compute. discriminate.
  - vm_compute. discriminate.
  - reflexivity.
  - lia.
  - reflexivity.
  - reflexivity.
  - reflexivity.
  - reflexivity.
Defined.

(** Rounding can undo it: with no base delay and a multiplier whose square
    is beyond the doubles, the delays asked after attempts 2 and 3 are 0
    and [NaN], and 0 is not at most [NaN]. *)
Example backoff_delay_can_decrease
  (Math_pow : number -> number -> number) :
  Math_pow 0x1.4e718d7d7625ap+664%float 1%float
    = 0x1.4e718d7d7625ap+664%float ->
  Math_pow 0x1.4e718d7d7625ap+664%float 2%float = infinity ->
  backoffDelay Math_pow nothingTimesHuge 2 = 0%float /\
  backoffDelay Math_pow nothingTimesHuge 3 = PrimFloat.nan /\
  (backoffDelay Math_pow nothingTimesHuge 2
   <=? backoffDelay Math_pow nothingTimesHuge 3)%float = false.
Proof.
  unfold backoffDelay, nothingTimesHuge.
  cbn [baseDelay maxDelay backoffMultiplier].
  change (ofZ (2 - 1)) with 1%float. change (ofZ (3 - 1)) with 2%float.
  intros -> ->. repeat split.
Qed.

Lemma totalDelay_bound (M : number) (delays : list number) :
  Forall (fun d => (valueOf d <= valueOf M)%Q) delays ->
  (totalDelay delays <= inject_Z (Z.of_nat (length delays)) * valueOf M)%Q.
Proof.
  induction 1 as [|d delays Hd _ IH].
  - unfold Qle. simpl. lia.
  - change (totalDelay (d :: delays))
      with (valueOf d + totalDelay delays)%Q.
    change (length (d :: delays)) with (S (length delays)).
    rewrite Nat2Z.inj_succ. unfold Z.succ. rewrite inject_Z_plus.
    setoid_replace
      ((inject_Z (Z.of_nat (length delays)) + inject_Z 1) * valueOf M)%Q
      with (valueOf M + inject_Z (Z.of_nat (length delays)) * valueOf M)%Q
      by ring.
    apply Qplus_le_compat; assumption.
Qed.

(** X5. With [maxRetries >= 1] and a [maxDelay] that is a finite number and
    not negative, a run of [retry] or [retryValidation] is suspended at
    most [maxRetries - 1] times, never for more than [maxDelay], and for at
    most [(maxRetries - 1) * maxDelay] in total, a delay that is not a
    finite number counting for nothing. *)
Theorem retry_total_delay_bound
  (Math_pow : number -> number -> number)
  (W E T : Type) (operation : W -> (E + T) * W)
  (setTimeout : number -> W -> W)
  (operationName : string) (options : PartialRetryOptions) (w : W) :
  let config := mergeOptions DEFAULT_RETRY_OPTIONS options in
  1 <= maxRetries config ->
  is_finite (maxDelay config) = true ->
  (0 <=? maxDelay config)%float = true ->
  (exists o tr w',
     retry Math_pow operation setTimeout options w = Some (o, tr, w') /\
     Z.of_nat (length (sleeps tr)) <= maxRetries config - 1 /\
     Forall (fun d => (maxDelay config <? d)%float = false) (sleeps tr) /\
     (totalDelay (sleeps tr)
      <= inject_Z (maxRetries config - 1) * valueOf (maxDelay config))%Q) /\
  (exists o tr w',
     retryValidation Math_pow operation setTimeout operationName options w
       = Some (o, tr, w') /\
     Z.of_nat (length (sleeps tr)) <= maxRetries config - 1 /\
     Forall (fun d => (maxDelay config <? d)%float = false) (sleeps tr) /\
     (totalDelay (sleeps tr)
      <= inject_Z (maxRetries config - 1) * valueOf (maxDelay config))%Q).
Proof.
  intros config HN Hfin HM.
  destruct (retryValidation_as_retry Math_pow W E T operation setTimeout config
              operationName w) as (o & tr & tr' & w' & Hrun & Hrun' & Ha & Hs).
  destruct (retryLoop_shape Math_pow W E T operation setTimeout config
              _ _ _ _ _ _ _ Hrun HN) as (fails & last & _ & _ & _ & Hsl & Hb &
                _).
  destruct (retryLoop_sleeps Math_pow W E T operation setTimeout config
              _ _ _ _ _ _ _ Hrun) as [Hall _].
  assert (Hcount : Z.of_nat (length (sleeps tr)) <= maxRetries config - 1)
    by (rewrite Hsl, !length_map; lia).
  assert (Hvalues : Forall (fun d => (valueOf d <= valueOf (maxDelay config))%Q)
                      (sleeps tr)).
  { rewrite Hsl. apply Forall_forall. intros d Hin.
    apply in_map_iff in Hin. destruct Hin as (k & <- & _).
    unfold backoffDelay. apply Math_min_value; assumption. }
  assert (Hbound : (totalDelay (sleeps tr)
                    <= inject_Z (maxRetries config - 1)
                       * valueOf (maxDelay config))%Q).
  { eapply Qle_trans; [apply totalDelay_bound; exact Hvalues|].
    apply Qmult_le_compat_r; [|apply valueOf_nonnegative; assumption].
    now rewrite <- Zle_Qle. }
  split; exists o; [exists tr|exists tr']; exists w'; split; auto.
  now rewrite Hs.
Qed.

Lemma retry_total_delay_bound_witness :
  (exists o tr w',
     retry productOfFactors countingFailure timePasses fiveAttempts 0%nat
       = Some (o, tr, w') /\
     Z.of_nat (length (sleeps tr)) <= 5 - 1 /\
     Forall (fun d => (2000 <? d)%float = false) (sleeps tr) /\
     (totalDelay (sleeps tr) <= inject_Z (5 - 1) * valueOf 2000%float)%Q) /\
  (exists o tr w',
     retryValidation productOfFactors countingFailure timePasses
       "Tooltip validation" fiveAttempts 0%nat
       = Some (o, tr, w') /\
     Z.of_nat (length (sleeps tr)) <= 5 - 1 /\
     Forall (fun d => (2000 <? d)%float = false) (sleeps tr) /\
     (totalDelay (sleeps tr) <= inject_Z (5 - 1) * valueOf 2000%float)%Q).
Proof.
  apply (retry_total_delay_bound productOfFactors nat nat unit
           countingFailure timePasses "Tooltip validation" fiveAttempts
           0%nat).
  - vm_compute. discriminate.
  - reflexivity.
  - reflexivity.
Defined.

Section PageFailure.
Variable Math_pow : number -> number -> number.
Variables W E T : Type.
Variable operation : W -> (E + T) * W.
Variable setTimeout : number -> W -> W.
Variable screenshot : string -> W -> (exn + unit) * W.
Variable operationName : string.
Variable config : RetryOptions.

Lemma retryPageLoop_alwaysFails (n : nat) :
  alwaysFails operation ->
  forall fuel attempt lastError w,
  attempt + Z.of_nat n = maxRetries config ->
  (n < fuel)%nat ->
  exists e tr w',
    retryPageLoop Math_pow operation setTimeout screenshot operationName config
      fuel attempt lastError w = Some (Thrown (Some e), tr, w') /\
    map fst (pageAttempts tr) = attemptNumbers attempt (S n) /\
    nth_error (pageAttempts tr) n = Some (maxRetries config, inl e) /\
    screenshotsTried tr
      = map (screenshotPath operationName) (attemptNumbers attempt (S n)).
Proof.
  intros Hfail.
  induction n as [|n IH]; intros fuel attempt lastError w Hmax Hfuel;
    (destruct fuel as [|fuel]; [lia|]); simpl;
    (replace (attempt <=? maxRetries config) with true
      by (symmetry; apply Z.leb_le; lia));
    destruct (Hfail w) as [e He];
    destruct (operation w) as [r w1]; simpl in He; subst r;
    pose proof (captureScreenshot_events W E T screenshot operationName
                  attempt w1) as Hshot;
    destruct (captureScreenshot _ _ _ w1) as [shot w2];
    simpl in Hshot; destruct Hshot as (Hsa & Hss & Hst).
  - replace (attempt =? maxRetries config) with true
      by (symmetry; apply Z.eqb_eq; lia).
    exists e. do 2 eexists. split; [reflexivity|].
    simpl. rewrite !pageAttempts_app, !screenshotsTried_app, Hsa, Hst.
    simpl. repeat split. do 2 f_equal. lia.
  - replace (attempt =? maxRetries config) with false
      by (symmetry; apply Z.eqb_neq; lia).
    destruct (IH fuel (attempt + 1) (Some e)
                (setTimeout (backoffDelay Math_pow config attempt) w2))
      as (e' & tr & w' & Hrun & Hnum & Hlast & Hshots); [lia|lia|].
    rewrite Hrun. simpl.
    exists e'. do 2 eexists. split; [reflexivity|].
    simpl. rewrite !pageAttempts_app, !screenshotsTried_app, Hsa, Hst.
    simpl. rewrite Hnum, Hlast, Hshots. auto.
Qed.

End PageFailure.

(** X7. With [maxRetries = N >= 1], [retryPageOperation] invokes a
    permanently failing operation at attempts 1 to [N], tries one screenshot
    after each, at the path of that attempt, and throws the error of the
    [N]-th invocation, whether the screenshots are saved or fail. *)
Theorem retryPageOperation_permanent_failure
  (Math_pow : number -> number -> number)
  (W E T : Type) (operation : W -> (E + T) * W)
  (setTimeout : number -> W -> W)
  (screenshot : string -> W -> (exn + unit) * W)
  (operationName : string) (options : PartialRetryOptions) (N : Z) (w : W) :
  optMaxRetries options = Some N ->
  1 <= N ->
  alwaysFails operation ->
  exists e tr w',
    retryPageOperation Math_pow operation setTimeout screenshot operationName
      options w = Some (Thrown (Some e), tr, w') /\
    map fst (pageAttempts tr) = attemptNumbers 1 (Z.to_nat N) /\
    nth_error (pageAttempts tr) (Z.to_nat (N - 1)) = Some (N, inl e) /\
    screenshotsTried tr
      = map (screenshotPath operationName) (attemptNumbers 1 (Z.to_nat N)).
Proof.
  intros Hopt HN Hfail.
  set (config := mergeOptions DEFAULT_RETRY_OPTIONS options).
  assert (Hmax : maxRetries config = N)
    by (unfold config, mergeOptions; simpl; now rewrite Hopt).
  destruct (retryPageLoop_alwaysFails Math_pow W E T operation setTimeout
              screenshot operationName config (Z.to_nat (N - 1)) Hfail
              (loopFuel config) 1 None w)
    as (e & tr & w' & Hrun & Hnum & Hlast & Hshots);
    [lia | unfold loopFuel; lia |].
  exists e, tr, w'. unfold retryPageOperation. fold config.
  replace (Z.to_nat N) with (S (Z.to_nat (N - 1))) by lia.
  rewrite Hrun, Hnum, Hlast, Hshots, Hmax. auto.
Qed.

Lemma retryPageOperation_permanent_failure_witness :
  exists e tr w',
    retryPageOperation productOfFactors countingFailure timePasses noScreenshots
      "Ask button click" fiveAttempts 0%nat
      = Some (Thrown (Some e), tr, w') /\
    map fst (pageAttempts tr) = attemptNumbers 1 (Z.to_nat 5) /\
    nth_error (pageAttempts tr) (Z.to_nat (5 - 1)) = Some (5, inl e) /\
    screenshotsTried tr
      = map (screenshotPath "Ask button click")
          (attemptNumbers 1 (Z.to_nat 5)).
Proof.
  apply (retryPageOperation_permanent_failure productOfFactors nat nat unit
    countingFailure timePasses noScreenshots "Ask button click" fiveAttempts 5
    0%nat).
  - reflexivity.
  - lia.
  - intro w. exists w. reflexivity.
Defined.

(** Runs of white space give one hyphen each, capitals are lowered. *)
Example screenshot_paths :
  map (screenshotPath "Ask  Button click") (attemptNumbers 1 2)
  = ["test-results/ask-button-click-attempt-1.png";
     "test-results/ask-button-click-attempt-2.png"]%string.
Proof. vm_compute. reflexivity. Qed.

(** X6. With [maxRetries >= 1], a run of [retryPageOperation] has the form
    of a run of [retry], and the screenshots it tries are one per rejected
    invocation, in order; what the screenshots do changes neither the
    invocations, nor the suspensions, nor how the call ends. *)
Theorem retryPageOperation_run_shape
  (Math_pow : number -> number -> number)
  (W E T : Type) (operation : W -> (E + T) * W)
  (setTimeout : number -> W -> W)
  (screenshot : string -> W -> (exn + unit) * W)
  (operationName : string) (options : PartialRetryOptions) (w : W) :
  let config := mergeOptions DEFAULT_RETRY_OPTIONS options in
  1 <= maxRetries config ->
  exists o tr w',
    retryPageOperation Math_pow operation setTimeout screenshot operationName
      options w = Some (o, tr, w') /\
    wellShaped Math_pow config o (pageAttempts tr) (pageSleeps tr) /\
    screenshotsTried tr = screenshotsDue operationName (pageAttempts tr).
Proof.
  intros config HN.
  destruct (retryPageLoop_total Math_pow W E T operation setTimeout screenshot
              operationName config (loopFuel config) 1 None w)
    as [[[o tr] w'] Hrun]; [unfold loopFuel; lia|].
  destruct (retryPageLoop_shape Math_pow W E T operation setTimeout screenshot
              operationName config _ _ _ _ _ _ _ Hrun HN)
    as (Hshots & fails & last & H).
  exists o, tr, w'. split; [exact Hrun|]. split; [|exact Hshots].
  exists fails, last. exact H.
Qed.

Lemma retryPageOperation_run_shape_witness :
  exists o tr w',
    retryPageOperation productOfFactors thirdTimeLucky timePasses noScreenshots
      "Response rendering" noOptions 0%nat = Some (o, tr, w') /\
    wellShaped productOfFactors DEFAULT_RETRY_OPTIONS o (pageAttempts tr)
      (pageSleeps tr) /\
    screenshotsTried tr
      = screenshotsDue "Response rendering" (pageAttempts tr).
Proof.
  apply (retryPageOperation_run_shape productOfFactors nat nat string
    thirdTimeLucky timePasses noScreenshots "Response rendering" noOptions
    0%nat).
  vm_compute. discriminate.
Defined.

(** X3. When the first invocation resolves, each of the three retry
    functions returns its value after that single invocation, without
    suspending and without a screenshot. *)
Theorem retry_first_try
  (Math_pow : number -> number -> number)
  (W E T : Type) (operation : W -> (E + T) * W)
  (setTimeout : number -> W -> W)
  (screenshot : string -> W -> (exn + unit) * W)
  (operationName : string) (options : PartialRetryOptions) (w : W) (v : T) :
  1 <= maxRetries (mergeOptions DEFAULT_RETRY_OPTIONS options) ->
  fst (operation w) = inr v ->
  retry Math_pow operation setTimeout options w
    = Some (Returned v, [EvAttempt 1 (inr v)], snd (operation w)) /\
  (exists tr,
     retryValidation Math_pow operation setTimeout operationName options w
       = Some (Returned v, tr, snd (operation w)) /\
     attempts tr = [(1, inr v)] /\ sleeps tr = []) /\
  (exists tr,
     retryPageOperation Math_pow operation setTimeout screenshot operationName
       options w = Some (Returned v, tr, snd (operation w)) /\
     pageAttempts tr = [(1, inr v)] /\ pageSleeps tr = [] /\
     screenshotsTried tr = []).
Proof.
  intros HN Hv.
  unfold retry, retryValidation, retryPageOperation. cbv zeta.
  set (config := mergeOptions DEFAULT_RETRY_OPTIONS options) in *.
  unfold loopFuel.
  cbn [retryLoop retryValidationLoop retryPageLoop].
  replace (1 <=? maxRetries config) with true
    by (symmetry; apply Z.leb_le; lia).
  destruct (operation w) as [r w1]. simpl in Hv. subst r. simpl.
  split; [reflexivity|]. split; eexists; repeat split.
Qed.

Lemma retry_first_try_witness :
  retry productOfFactors thirdTimeLucky timePasses noOptions 2%nat
    = Some (Returned "rendered"%string,
            [EvAttempt 1 (inr "rendered"%string)],
            snd (thirdTimeLucky 2%nat)) /\
  (exists tr,
     retryValidation productOfFactors thirdTimeLucky timePasses
       "Response rendering" noOptions 2%nat
       = Some (Returned "rendered"%string, tr, snd (thirdTimeLucky 2%nat)) /\
     attempts tr = [(1, inr "rendered"%string)] /\ sleeps tr = []) /\
  (exists tr,
     retryPageOperation productOfFactors thirdTimeLucky timePasses noScreenshots
       "Response rendering" noOptions 2%nat
       = Some (Returned "rendered"%string, tr, snd (thirdTimeLucky 2%nat)) /\
     pageAttempts tr = [(1, inr "rendered"%string)] /\ pageSleeps tr = [] /\
     screenshotsTried tr = []).
Proof.
  apply (retry_first_try productOfFactors nat nat string thirdTimeLucky
    timePasses noScreenshots "Response rendering" noOptions 2%nat
    "rendered"%string).
  - vm_compute. discriminate.
  - reflexivity.
Defined.

End RetryMoreFacts.

(** ** Screenshot paths *)

Module SanitizeFacts.
Import JsString RetryPageOperation.

Lemma toLowerCaseChar_not_upper (c : ascii) :
  isUpperCase (toLowerCaseChar c) = false.
Proof. destruct c as [[] [] [] [] [] [] [] []]; reflexivity. Qed.

Lemma toLowerCase_not_upper (s : string) (c : ascii) :
  In c (list_ascii_of_string (toLowerCase s)) -> isUpperCase c = false.
Proof.
  induction s as [|a s IH]; simpl; [intros []|].
  intros [<-|H]; [apply toLowerCaseChar_not_upper|auto].
Qed.

Lemma replaceWhiteSpaceRuns_chars (s : string) :
  forall inRun c,
  In c (list_ascii_of_string (replaceWhiteSpaceRuns inRun s)) ->
  isWhiteSpace c = false /\
  (c = "-"%char \/ In c (list_ascii_of_string s)).
Proof.
  induction s as [|a s IH]; intros inRun c; simpl; [intros []|].
  destruct (isWhiteSpace a) eqn:Ha.
  - destruct inRun; simpl.
    + intro H. destruct (IH _ _ H) as [Hw [Hc|Hc]]; auto.
    + intros [<-|H]; [auto|].
      destruct (IH _ _ H) as [Hw [Hc|Hc]]; auto.
  - simpl. intros [<-|H]; [auto|].
    destruct (IH _ _ H) as [Hw [Hc|Hc]]; auto.
Qed.

(** X8. The operation name as it appears in a screenshot path holds no
    white space and no upper-case letter. *)
Theorem sanitizeName_safe (operationName : string) (c : ascii) :
  In c (list_ascii_of_string (sanitizeName operationName)) ->
  isWhiteSpace c = false /\ isUpperCase c = false.
Proof.
  unfold sanitizeName. intro H.
  destruct (replaceWhiteSpaceRuns_chars _ _ _ H) as [Hw [->|Hc]].
  - split; [exact Hw|reflexivity].
  - split; [exact Hw|]. exact (toLowerCase_not_upper _ _ Hc).
Qed.

Lemma sanitizeName_safe_witness :
  isWhiteSpace "-" = false /\ isUpperCase "-" = false.
Proof.
  apply (sanitizeName_safe "Ask Button" "-").
  vm_compute. tauto.
Defined.

End SanitizeFacts.

(** ** More on readiness *)

Module ReadinessMoreFacts.
Import Async JsString ReadinessChecker ReadinessWait.

Section Checker.
Variable W : Type.
Variable requestGet : string -> W -> (exn + Z) * W.
Variable dateNow : W -> Z.
Variable setTimeout : Q -> W -> W.

Local Abbreviation check := (checkAppReadiness W requestGet dateNow setTimeout).

Ltac run_check :=
  unfold checkAppReadiness; simpl;
  unfold tryCatch, attemptTry, attemptCatch, bind, consoleLog, emit, modify,
    now, get, sleep, ret; simpl.

Lemma checkAppReadiness_run (w : W) :
  exists r tr w' earlier last,
    check w = Some (inr r, tr, w') /\
    requests tr = earlier ++ [last] /\
    forallb (fun x => negb (isOk x)) earlier = true /\
    isReady r = isOk last /\
    sleeps tr = repeat (inject_Z retryDelay) (length earlier) /\
    error r = reportedError last /\
    (responseTime r = None <-> exists e, last = inl e).
Proof.
  assert (Hexn : forall e : exn,
            (@None Z = None <-> exists e0, @inl exn Z e = inl e0))
    by (intro e; split; eauto).
  assert (Hsta : forall (t s : Z),
            (Some t = None <-> exists e0, @inr exn Z s = inl e0))
    by (intros t s; split; [discriminate|intros [? ?]; discriminate]).
  run_check.
  destruct (requestGet _ w) as [[e1|s1] w1]; simpl;
    [|destruct (s1 =? 200) eqn:H1; simpl].
  2:{ do 3 eexists. exists [], (inr s1). split; [reflexivity|]. simpl.
      rewrite H1. repeat split; auto; apply Hsta. }
  all: destruct (requestGet _ _) as [[e2|s2] w2]; simpl;
    [|destruct (s2 =? 200) eqn:H2; simpl].
  all: try (destruct (requestGet _ _) as [[e3|s3] w3]; simpl;
    [|destruct (s3 =? 200) eqn:H3; simpl]).
  all: do 3 eexists.
  all: match goal with
       | |- exists earlier last, Some (_, ?tr, _) = _ /\ _ =>
         let rs := eval simpl in (requests tr) in
         match rs with
         | [?a] => exists [], a
         | [?a; ?b] => exists [a], b
         | [?a; ?b; ?c] => exists [a; b], c
         end
       end.
  all: (split; [reflexivity|]); simpl; rewrite ?H1, ?H2, ?H3; simpl.
  all: repeat split; auto; try apply Hsta; try apply Hexn.
Qed.

(** A measure of the world that no request and no pause of the checker
    lowers is not lowered by a check. *)
Lemma checkAppReadiness_measure (f : W -> Z) (w : W) :
  (forall url w0, f w0 <= f (snd (requestGet url w0))) ->
  (forall w0, f w0 <= f (setTimeout (inject_Z retryDelay) w0)) ->
  forall r tr w', check w = Some (r, tr, w') -> f w <= f w'.
Proof.
  intros Hget Hsleep r tr w'.
  run_check.
  pose proof (Hget "http://localhost:3000"%string w) as G1.
  destruct (requestGet _ w) as [[e1|s1] w1]; simpl in *;
    [|destruct (s1 =? 200) eqn:H1; simpl].
  2:{ intro H. injection H as <- <- <-. exact G1. }
  all: pose proof (Hsleep w1) as S1;
    pose proof (Hget "http://localhost:3000"%string
                  (setTimeout (inject_Z retryDelay) w1)) as G2;
    destruct (requestGet _ _) as [[e2|s2] w2]; simpl in *;
    [|destruct (s2 =? 200) eqn:H2; simpl].
  all: try (pose proof (Hsleep w2) as S2;
    pose proof (Hget "http://localhost:3000"%string
                  (setTimeout (inject_Z retryDelay) w2)) as G3;
    destruct (requestGet _ _) as [[e3|s3] w3]; simpl in *;
    [|destruct (s3 =? 200) eqn:H3; simpl]).
  all: intro H; injection H as <- <- <-; lia.
Qed.

(** Every response in the trace of a check is one the application gave. *)
Lemma checkAppReadiness_responses (P : exn + Z -> Prop) (w : W) :
  (forall url w0, P (fst (requestGet url w0))) ->
  forall r tr w', check w = Some (r, tr, w') -> Forall P (requests tr).
Proof.
  intros HP r tr w'.
  run_check.
  pose proof (HP "http://localhost:3000"%string w) as P1.
  destruct (requestGet _ w) as [[e1|s1] w1]; simpl in *;
    [|destruct (s1 =? 200) eqn:H1; simpl].
  2:{ intro H. injection H as <- <- <-. simpl. auto. }
  all: pose proof (HP "http://localhost:3000"%string
                     (setTimeout (inject_Z retryDelay) w1)) as P2;
    destruct (requestGet _ _) as [[e2|s2] w2]; simpl in *;
    [|destruct (s2 =? 200) eqn:H2; simpl].
  all: try (pose proof (HP "http://localhost:3000"%string
                          (setTimeout (inject_Z retryDelay) w2)) as P3;
    destruct (requestGet _ _) as [[e3|s3] w3]; simpl in *;
    [|destruct (s3 =? 200) eqn:H3; simpl]).
  all: intro H; injection H as <- <- <-; simpl; auto.
Qed.

Local Abbreviation wloop := (waitLoop W requestGet dateNow setTimeout).

Lemma requests_app (tr1 tr2 : list Event) :
  requests (tr1 ++ tr2) = requests tr1 ++ requests tr2.
Proof.
  induction tr1 as [|ev tr1 IH]; simpl; [reflexivity|].
  destruct ev; simpl; now rewrite IH.
Qed.

(** A wait that returns says whether a response with status 200 was seen. *)
Lemma waitLoop_result (fuel : nat) :
  forall startTime timeoutMs w x tr w',
  wloop fuel startTime timeoutMs w = Some (x, tr, w') ->
  x = inr (existsb isOk (requests tr)).
Proof.
  induction fuel as [|fuel IH]; intros startTime timeoutMs w x tr w' Hrun;
    [discriminate|].
  simpl in Hrun.
  destruct (dateNow w - startTime <? timeoutMs).
  2:{ injection Hrun as <- <- <-. reflexivity. }
  destruct (checkAppReadiness_run w)
    as (r & tr1 & w1 & earlier & last & Hcheck & Hreq & Hearlier & Hready & _).
  rewrite Hcheck in Hrun.
  assert (Hseen : existsb isOk (requests tr1) = isOk last).
  { rewrite Hreq, existsb_app. simpl. rewrite orb_false_r.
    replace (existsb isOk earlier) with false; [reflexivity|].
    symmetry. clear - Hearlier.
    induction earlier as [|a earlier IHe]; simpl in *; [reflexivity|].
    apply andb_true_iff in Hearlier. destruct Hearlier as [Ha He].
    rewrite (IHe He). now destruct (isOk a). }
  destruct (isReady r) eqn:Hr.
  - injection Hrun as <- <- <-. now rewrite Hseen, <- Hready.
  - destruct (waitLoop _ _ _ _ _ _ _ _) as [[[x2 tr2] w2]|] eqn:Hrec;
      simpl in Hrun; [|discriminate].
    injection Hrun as <- <- <-.
    rewrite (IH _ _ _ _ _ _ Hrec).
    rewrite !requests_app, !existsb_app. simpl.
    now rewrite Hseen, <- Hready.
Qed.

(** With a clock that pauses advance and nothing sets back, the loop is left
    within [timeoutMs / checkInterval] iterations. *)
Lemma waitLoop_total (fuel : nat) :
  (forall url w0, dateNow w0 <= dateNow (snd (requestGet url w0))) ->
  (forall ms w0, 0 <= ms ->
     dateNow w0 + ms <= dateNow (setTimeout (inject_Z ms) w0)) ->
  forall startTime timeoutMs w,
  (1 <= fuel)%nat ->
  timeoutMs - (dateNow w - startTime) <= checkInterval * (Z.of_nat fuel - 1) ->
  exists run, wloop fuel startTime timeoutMs w = Some run.
Proof.
  intros Hget Hsleep.
  induction fuel as [|fuel IH]; intros startTime timeoutMs w Hfuel Hleft;
    [lia|].
  simpl. destruct (dateNow w - startTime <? timeoutMs) eqn:Hin; [|eauto].
  apply Z.ltb_lt in Hin.
  destruct (checkAppReadiness_run w)
    as (r & tr1 & w1 & earlier & last & Hcheck & _).
  rewrite Hcheck.
  destruct (isReady r); [eauto|].
  assert (Hmono : dateNow w <= dateNow w1).
  { apply (checkAppReadiness_measure dateNow w Hget) with (r := inr r)
                                                           (tr := tr1);
      [|exact Hcheck].
    intro w0. specialize (Hsleep retryDelay w0). unfold retryDelay in *. lia. }
  pose proof (Hsleep checkInterval w1) as Hpause.
  unfold checkInterval in *.
  destruct (IH startTime timeoutMs (setTimeout (inject_Z 2000) w1))
    as [[[x tr] w'] Hrun]; [lia|lia|].
  rewrite Hrun. simpl. eauto.
Qed.

(** On a clock that stands still, facing an application that never answers
    200, the loop is never left. *)
Lemma waitLoop_frozen (fuel : nat) :
  (forall url w0, isOk (fst (requestGet url w0)) = false) ->
  (forall url w0, dateNow (snd (requestGet url w0)) = dateNow w0) ->
  (forall d w0, dateNow (setTimeout d w0) = dateNow w0) ->
  forall startTime timeoutMs w,
  dateNow w - startTime < timeoutMs ->
  wloop fuel startTime timeoutMs w = None.
Proof.
  intros Hdown Hget Hsleep.
  induction fuel as [|fuel IH]; intros startTime timeoutMs w Hin;
    [reflexivity|].
  simpl. replace (dateNow w - startTime <? timeoutMs) with true
    by (symmetry; apply Z.ltb_lt; exact Hin).
  destruct (checkAppReadiness_run w)
    as (r & tr1 & w1 & earlier & last & Hcheck & Hreq & _ & Hready & _).
  rewrite Hcheck.
  assert (Hlast : isOk last = false).
  { pose proof (checkAppReadiness_responses (fun x => isOk x = false) w
                  Hdown _ _ _ Hcheck) as Hall.
    rewrite Hreq in Hall. apply Forall_app in Hall.
    destruct Hall as [_ Hall]. now inversion Hall. }
  rewrite Hready, Hlast.
  assert (Hsame : dateNow w1 = dateNow w).
  { apply Z.le_antisymm.
    - pose proof (checkAppReadiness_measure (fun x => - dateNow x) w) as H.
      cbv beta in H. specialize (H (fun url w0 => ltac:(rewrite Hget; lia))
                                   (fun w0 => ltac:(rewrite Hsleep; lia))
                                   _ _ _ Hcheck). lia.
    - apply (checkAppReadiness_measure dateNow w) with (r := inr r)
                                                       (tr := tr1);
        [intros; rewrite Hget; lia|intros; rewrite Hsleep; lia|exact Hcheck]. }
  rewrite IH; [reflexivity|]. rewrite Hsleep, Hsame. exact Hin.
Qed.

End Checker.

(** X9. A check sends its requests one after the other, [retryDelay]
    apart, and stops at the first response with status 200: every response
    before the last is a failure, and the result reports the last one. Its
    [error] is absent for a 200, names the status for another status, and
    carries the thrown error for a failed connection, in which case alone
    there is no [responseTime]. *)
Theorem checkAppReadiness_stops_at_first_200
  (W : Type) (requestGet : string -> W -> (exn + Z) * W) (dateNow : W -> Z)
  (setTimeout : Q -> W -> W) (w : W) :
  exists r tr w' earlier last,
    checkAppReadiness W requestGet dateNow setTimeout w
      = Some (inr r, tr, w') /\
    requests tr = earlier ++ [last] /\
    forallb (fun x => negb (isOk x)) earlier = true /\
    isReady r = isOk last /\
    sleeps tr = repeat (inject_Z retryDelay) (length earlier) /\
    error r = reportedError last /\
    (responseTime r = None <-> exists e, last = inl e).
Proof. apply checkAppReadiness_run. Qed.

(** X10. With [timeoutMs <= 0], [waitForAppReady] returns [false] at once:
    it sends no request and does not pause. *)
Theorem waitForAppReady_no_time
  (W : Type) (requestGet : string -> W -> (exn + Z) * W) (dateNow : W -> Z)
  (setTimeout : Q -> W -> W) (fuel : nat) (timeoutMs : Z) (w : W) :
  timeoutMs <= 0 ->
  exists tr,
    waitForAppReady W requestGet dateNow setTimeout (S fuel) timeoutMs w
      = Some (inr false, tr, w) /\
    requests tr = [] /\ sleeps tr = [].
Proof.
  intro Hno. unfold waitForAppReady. simpl.
  replace (dateNow w - dateNow w <? timeoutMs) with false
    by (symmetry; apply Z.ltb_ge; lia).
  simpl. eexists. repeat split.
Qed.

(** X11. When [waitForAppReady] returns, it has not thrown, and what it
    returns tells whether a response with status 200 was received. *)
Theorem waitForAppReady_result
  (W : Type) (requestGet : string -> W -> (exn + Z) * W) (dateNow : W -> Z)
  (setTimeout : Q -> W -> W) (fuel : nat) (timeoutMs : Z) (w : W)
  (x : exn + bool) (tr : list Event) (w' : W) :
  waitForAppReady W requestGet dateNow setTimeout fuel timeoutMs w
    = Some (x, tr, w') ->
  x = inr (existsb isOk (requests tr)).
Proof.
  unfold waitForAppReady.
  destruct (waitLoop _ _ _ _ _ _ _ _) as [[[x1 tr1] w1]|] eqn:Hrun;
    simpl; [|discriminate].
  intro H. injection H as <- <- <-.
  rewrite (waitLoop_result _ _ _ _ _ _ _ _ _ _ _ Hrun). reflexivity.
Qed.

(** X12. When no request sets the clock back and a pause of [ms]
    milliseconds lasts at least [ms], [waitForAppReady] returns within
    [timeoutMs / checkInterval] rounds of its loop, rounded up. *)
Theorem waitForAppReady_returns
  (W : Type) (requestGet : string -> W -> (exn + Z) * W) (dateNow : W -> Z)
  (setTimeout : Q -> W -> W) (fuel : nat) (timeoutMs : Z) (w : W) :
  (forall url w0, dateNow w0 <= dateNow (snd (requestGet url w0))) ->
  (forall ms w0, 0 <= ms ->
     dateNow w0 + ms <= dateNow (setTimeout (inject_Z ms) w0)) ->
  timeoutMs <= checkInterval * Z.of_nat fuel ->
  exists ready tr w',
    waitForAppReady W requestGet dateNow setTimeout (S fuel) timeoutMs w
      = Some (inr ready, tr, w').
Proof.
  intros Hget Hsleep Hfuel.
  destruct (waitLoop_total W requestGet dateNow setTimeout (S fuel)
              Hget Hsleep (dateNow w) timeoutMs w) as [[[x tr] w'] Hrun];
    [lia|lia|].
  pose proof (waitLoop_result _ _ _ _ _ _ _ _ _ _ _ Hrun) as ->.
  unfold waitForAppReady. rewrite Hrun. simpl. eauto.
Qed.

(** X13. Only readiness or the clock ends the wait: on a clock that stands
    still, facing an application that never answers 200, [waitForAppReady]
    with a positive timeout does not return, however many rounds it is
    given. *)
Theorem waitForAppReady_needs_clock
  (W : Type) (requestGet : string -> W -> (exn + Z) * W) (dateNow : W -> Z)
  (setTimeout : Q -> W -> W) (timeoutMs : Z) (w : W) :
  (forall url w0, isOk (fst (requestGet url w0)) = false) ->
  (forall url w0, dateNow (snd (requestGet url w0)) = dateNow w0) ->
  (forall d w0, dateNow (setTimeout d w0) = dateNow w0) ->
  0 < timeoutMs ->
  forall fuel,
    waitForAppReady W requestGet dateNow setTimeout fuel timeoutMs w = None.
Proof.
  intros Hdown Hget Hsleep Hsome fuel.
  unfold waitForAppReady.
  rewrite (waitLoop_frozen W requestGet dateNow setTimeout fuel
             Hdown Hget Hsleep); [reflexivity|lia].
Qed.

Lemma waitForAppReady_no_time_witness :
  exists tr,
    waitForAppReady (Z * nat) (warmingServer 1) clockOf elapse 1 0 (0, 0%nat)
      = Some (inr false, tr, (0, 0%nat)) /\
    requests tr = [] /\ sleeps tr = [].
Proof.
  apply (waitForAppReady_no_time (Z * nat) (warmingServer 1) clockOf elapse
           0 0 (0, 0%nat)).
  lia.
Defined.

Lemma waitForAppReady_result_witness :
  exists tr w',
    waitForAppReady (Z * nat) (warmingServer 4) clockOf elapse 16
      defaultTimeoutMs (0, 0%nat) = Some (inr true, tr, w') /\
    length (requests tr) = 5%nat /\
    @inr exn bool true = inr (existsb isOk (requests tr)).
Proof.
  do 2 eexists. split; [vm_compute; reflexivity|].
  split; [reflexivity|].
  eapply (waitForAppReady_result (Z * nat) (warmingServer 4) clockOf elapse
            16 defaultTimeoutMs (0, 0%nat)).
  vm_compute. reflexivity.
Defined.

Lemma waitForAppReady_returns_witness :
  exists ready tr w',
    waitForAppReady (Z * nat) (warmingServer 4) clockOf elapse 16
      defaultTimeoutMs (0, 0%nat) = Some (inr ready, tr, w').
Proof.
  apply (waitForAppReady_returns (Z * nat) (warmingServer 4) clockOf elapse
           15 defaultTimeoutMs (0, 0%nat)).
  - intros url [t n]. unfold clockOf. simpl. lia.
  - intros ms [t n] Hms. unfold clockOf, elapse. cbn [fst snd].
    rewrite Qfloor_Z. lia.
  - vm_compute. discriminate.
Defined.

Lemma waitForAppReady_needs_clock_witness :
  waitForAppReady (Z * nat) stalledServer clockOf frozen 1000
    defaultTimeoutMs (0, 0%nat) = None.
Proof.
  apply (waitForAppReady_needs_clock (Z * nat) stalledServer clockOf frozen
           defaultTimeoutMs (0, 0%nat)).
  - reflexivity.
  - reflexivity.
  - reflexivity.
  - reflexivity.
Defined.

End ReadinessMoreFacts.

(** ** The interface validator *)

Module AppInterfaceFacts.
Import Async JsString TooltipChecker AppInterface.

(** X14. [validateAppInterface] never throws. Its result is valid exactly
    when it lists no error, and only when the query input and the ask button
    were both seen visible and the count of loading indicators did not
    throw. When the three calls answer, the result is valid exactly when
    both controls are visible, and its errors are those of the controls that
    are not, in the order they are looked for. *)
Theorem validateAppInterface_verdict (W : Type) (page : Page W) (w : W) :
  exists r w',
    validateAppInterface page w = (inr r, w') /\
    (isValid r = true <-> errors r = []) /\
    (isValid r = true ->
       exists w1 w2 n,
         isVisible page queryInput w = (inr true, w1) /\
         isVisible page askButton w1 = (inr true, w2) /\
         count page loadingIndicators w2 = (inr n, w')) /\
    (forall hasInput w1 hasButton w2 n w3,
       isVisible page queryInput w = (inr hasInput, w1) ->
       isVisible page askButton w1 = (inr hasButton, w2) ->
       count page loadingIndicators w2 = (inr n, w3) ->
       isValid r = hasInput && hasButton /\
       errors r = missingControls hasInput hasButton /\ w' = w3).
Proof.
  unfold validateAppInterface, validateAppInterfaceTry,
    validateAppInterfaceCatch, tryCatch, bind, await, update, modify, result,
    consoleLog, ret, push. simpl.
  destruct (isVisible page queryInput w) as [[e1|[|]] w1] eqn:Hq1; simpl.
  all: destruct (isVisible page askButton w1) as [[e2|[|]] w2] eqn:Hq2; simpl.
  all: destruct (count page loadingIndicators w2) as [[e3|n] w3] eqn:Hq3;
    simpl; try (destruct (0 <? n)%nat; simpl).
  all: do 2 eexists; (split; [reflexivity|]); simpl.
  all: split; [split; [try discriminate; auto|try discriminate; auto]|].
  all: split;
    [ try discriminate; intros _; eexists w1, w2, _; rewrite Hq2, Hq3; auto
    | intros hasInput w1' hasButton w2' n' w3' H1 H2 H3;
      inversion H1; subst; rewrite ?Hq2 in H2; inversion H2; subst;
      rewrite ?Hq3 in H3; inversion H3; subst; auto ].
Qed.

(** Loading indicators are only reported on the console: they do not make
    the interface invalid. A missing button does. *)
Example validateAppInterface_samples :
  fst (validateAppInterface (controlsPage true true 3) tt)
    = inr {| isValid := true; errors := [] |} /\
  fst (validateAppInterface (controlsPage true false 0) tt)
    = inr {| isValid := false;
             errors := ["Ask/Submit button not found or not visible"%string] |}.
Proof. split; vm_compute; reflexivity. Qed.

End AppInterfaceFacts.


(** ** All sections *)

Module AllSectionsFacts.
Import Async JsString TooltipChecker AsyncLogic StringFacts SectionFacts
  AllSections.

Section Sections.
Variable W : Type.
Variable page : Page W.

Local Abbreviation named :=
  (fun (name : string) (r : SectionValidationResult.t) =>
     SectionValidationResult.sectionName r = name).

(** No step of [validateSection] renames the result. *)
Lemma validateSectionTry_name (selectors : list string) (minLength : Z)
  (name : string) :
  triple (named name) (validateSectionTry page selectors minLength)
    (fun _ => named name) (named name).
Proof.
  assert (Hset : forall (f : SectionValidationResult.t ->
                             SectionValidationResult.t),
            (forall r, SectionValidationResult.sectionName (f r)
                       = SectionValidationResult.sectionName r) ->
            triple (W := W) (named name) (update f) (fun _ => named name)
              (named name)).
  { intros f Hf. apply triple_update. intros r Hr. cbv beta.
    now rewrite Hf. }
  assert (Hget : triple (W := W) (named name) result (fun _ => named name)
                   (named name))
    by (intros w r Hr; exact Hr).
  unfold validateSectionTry.
  eapply triple_bind; [apply findSection_preserves|].
  intros [section|]; [|now apply Hset].
  eapply triple_bind; [apply triple_await|].
  intros [|]; simpl; [|now apply Hset].
  eapply triple_bind; [apply triple_await|].
  intro text. cbv beta.
  eapply triple_bind; [now apply Hset|].
  intros []. eapply triple_bind with (Mid := fun _ => named name).
  { exact Hget. }
  intro r0. eapply triple_bind; [now apply Hset|].
  intros []. eapply triple_bind with (Mid := fun _ => named name).
  { unfold checkContent.
    eapply triple_bind with (Mid := fun _ => named name).
    { exact Hget. }
    intro r1.
    repeat match goal with
           | |- triple _ (if ?b then _ else _) _ _ => destruct b
           end; now apply Hset. }
  intros []. eapply triple_bind with (Mid := fun _ => named name).
  { exact Hget. }
  intro r2. destruct (SectionValidationResult.isValid r2);
    apply triple_consoleLog; auto.
Qed.

Local Abbreviation explained :=
  (fun r : SectionValidationResult.t =>
     SectionValidationResult.isValid r = false ->
     SectionValidationResult.error r <> None).

(** A result that is returned invalid has an [error]. *)
Lemma validateSectionTry_explained (selectors : list string) (minLength : Z) :
  triple (fun _ => True) (validateSectionTry page selectors minLength)
    (fun _ => explained) (fun _ => True).
Proof.
  assert (Herr : forall msg,
            triple (W := W) (fun _ => True) (update (setError msg))
              (fun _ => explained) (fun _ => True)).
  { intro msg. apply triple_update. intros r _ _. simpl. discriminate. }
  assert (Hget : triple (W := W) explained result (fun _ => explained)
                   (fun _ => True))
    by (intros w r Hr; exact Hr).
  unfold validateSectionTry.
  eapply triple_bind; [apply findSection_preserves|].
  intros [section|]; [|apply Herr].
  eapply triple_bind; [apply triple_await|].
  intros [|]; simpl; [|apply Herr].
  eapply triple_bind; [apply triple_await|].
  intro text. cbv beta.
  eapply triple_bind with (Mid := fun _ _ => True);
    [apply triple_update; auto|].
  intros []. eapply triple_bind with (Mid := fun _ _ => True);
    [intros w r _; simpl; exact I|].
  intro r0. eapply triple_bind with (Mid := fun _ _ => True);
    [apply triple_update; auto|].
  intros []. eapply triple_bind with (Mid := fun _ => explained).
  { unfold checkContent.
    eapply triple_bind with (Mid := fun _ _ => True);
      [intros w r _; simpl; exact I|].
    intro r1.
    repeat match goal with
           | |- triple _ (if ?b then _ else _) _ _ => destruct b
           end; try apply Herr.
    apply triple_update. intros r _. simpl. discriminate. }
  intros []. eapply triple_bind; [exact Hget|].
  intro r2. destruct (SectionValidationResult.isValid r2);
    apply triple_consoleLog; auto.
Qed.

(** What [validateSection] gives [validateAllSections]: a result, under the
    name it was asked for, that is valid only for a meaningful text and
    that carries an error when it is not valid. *)
Lemma validateSection_result (name : string) (selectors : list string)
  (minLength : Z) (w : W) :
  exists r w',
    validateSection page name selectors minLength w = (inr r, w') /\
    SectionValidationResult.sectionName r = name /\
    (SectionValidationResult.isValid r = true -> meaningful minLength r) /\
    (SectionValidationResult.isValid r = false ->
     SectionValidationResult.error r <> None).
Proof.
  destruct (validateSection_post W page name selectors minLength w)
    as (r & w' & Hrun & _ & Hvalid).
  exists r, w'. split; [exact Hrun|].
  pose proof (returningResult_returns W _ (initialSectionResult name)
                (validateSectionTry page selectors minLength)
                (fun e => setError ("Error validating section: " ++ e))
                (named name) (named name) (named name) w eq_refl
                (validateSectionTry_name selectors minLength name))
    as (r1 & w1 & Hrun1 & Hname).
  pose proof (returningResult_returns W _ (initialSectionResult name)
                (validateSectionTry page selectors minLength)
                (fun e => setError ("Error validating section: " ++ e))
                (fun _ => True) explained (fun _ => True) w I
                (validateSectionTry_explained selectors minLength))
    as (r2 & w2 & Hrun2 & Hexpl).
  unfold validateSection in Hrun.
  unfold validateSectionCatch in Hrun.
  rewrite Hrun in Hrun1, Hrun2.
  injection Hrun1 as <- <-. injection Hrun2 as <- _.
  split; [|split].
  - destruct (validateSectionTry _ _ _ _) as [[e|[]] [w0 r0]];
      destruct Hname as [-> Hn]; simpl; exact Hn.
  - intro Hv. destruct (Hvalid Hv) as (text & Hc & Hlen & Hnone).
    exists text. repeat split; auto.
    intros phrase Hin Hsub.
    assert (somePatternIn sectionPlaceholderPatterns text = true)
      by (apply somePatternIn_spec; eauto).
    congruence.
  - destruct (validateSectionTry _ _ _ _) as [[e|[]] [w0 r0]].
    + destruct Hexpl as [-> _]. simpl. discriminate.
    + destruct Hexpl as [_ H]. exact H.
Qed.

Lemma validateSectionsLoop_run (todo : list (string * list string)) :
  forall results errors w,
  exists rs w',
    validateSectionsLoop page todo results errors w
      = (inr (results ++ rs, errors ++ errorLines rs), w') /\
    map SectionValidationResult.sectionName rs = map fst todo /\
    Forall (fun r => SectionValidationResult.isValid r = true ->
                     meaningful defaultMinLength r) rs /\
    Forall (fun r => SectionValidationResult.isValid r = false ->
                     SectionValidationResult.error r <> None) rs.
Proof.
  induction todo as [|[name selectors] todo IH]; intros results errors w.
  - exists [], w. simpl. rewrite !app_nil_r. auto.
  - simpl.
    destruct (validateSection_result name selectors defaultMinLength w)
      as (r & w1 & Hrun & Hname & Hvalid & Herr).
    rewrite Hrun.
    destruct (IH (results ++ [r])
                 (if negb (SectionValidationResult.isValid r)
                  then errors ++ [errorLine name r] else errors) w1)
      as (rs & w' & Hloop & Hnames & Hall & Hallerr).
    exists (r :: rs), w'. rewrite Hloop. simpl.
    split; [|split; [now rewrite Hname, Hnames|split; constructor; auto]].
    rewrite <- app_assoc. simpl. do 2 f_equal.
    unfold errorLines. simpl.
    destruct (SectionValidationResult.isValid r); simpl.
    + reflexivity.
    + rewrite <- app_assoc. simpl. now rewrite Hname.
Qed.

Lemma errorLines_nil (rs : list SectionValidationResult.t) :
  forallb SectionValidationResult.isValid rs = true <->
  errorLines rs = [].
Proof.
  unfold errorLines.
  induction rs as [|r rs IH]; simpl; [tauto|].
  destruct (SectionValidationResult.isValid r); simpl; [exact IH|].
  split; discriminate.
Qed.

Lemma validateAllSections_run (w : W) :
  exists r w',
    validateAllSections page w = (inr r, w') /\
    map SectionValidationResult.sectionName (results r) = sectionNames /\
    isValid r = forallb SectionValidationResult.isValid (results r) /\
    errors r = errorLines (results r) /\
    Forall (fun r => SectionValidationResult.isValid r = true ->
                     meaningful defaultMinLength r) (results r) /\
    Forall (fun r => SectionValidationResult.isValid r = false ->
                     SectionValidationResult.error r <> None) (results r).
Proof.
  unfold validateAllSections.
  destruct (validateSectionsLoop_run sections [] [] w)
    as (rs & w' & Hloop & Hnames & Hall & Herr).
  rewrite Hloop. simpl.
  eexists; eexists. split; [reflexivity|]. simpl. auto.
Qed.

End Sections.

(** X15. [validateAllSections] never throws. It returns one result per
    section, in the order of the list and under the section's name; it is
    valid exactly when every result is, which is exactly when it lists no
    error; its errors are one line per result that is not valid, in order,
    made of the section's name and the result's error, which is never
    missing. *)
Theorem validateAllSections_report (W : Type) (page : Page W) (w : W) :
  exists r w',
    validateAllSections page w = (inr r, w') /\
    map SectionValidationResult.sectionName (results r) = sectionNames /\
    isValid r = forallb SectionValidationResult.isValid (results r) /\
    errors r = errorLines (results r) /\
    (isValid r = true <-> errors r = []) /\
    Forall (fun r => SectionValidationResult.isValid r = false ->
                     SectionValidationResult.error r <> None) (results r).
Proof.
  destruct (validateAllSections_run W page w)
    as (r & w' & Hrun & Hnames & Hvalid & Herrors & _ & Herr).
  exists r, w'. repeat split; auto.
  - rewrite Hvalid, Herrors. apply errorLines_nil.
  - rewrite Hvalid, Herrors. apply errorLines_nil.
Qed.

(** X16. When [validateAllSections] reports valid, it has validated five
    sections, and the text extracted for each has at least 50 characters and
    contains no placeholder phrase, letter case apart. *)
Theorem validateAllSections_sound (W : Type) (page : Page W) (w : W) :
  exists r w',
    validateAllSections page w = (inr r, w') /\
    (isValid r = true ->
       length (results r) = 5%nat /\
       Forall (meaningful defaultMinLength) (results r)).
Proof.
  destruct (validateAllSections_run W page w)
    as (r & w' & Hrun & Hnames & Hvalid & _ & Hall & _).
  exists r, w'. split; [exact Hrun|]. intro Hv. split.
  - rewrite <- (length_map SectionValidationResult.sectionName), Hnames.
    reflexivity.
  - rewrite Hvalid in Hv. rewrite forallb_forall in Hv.
    rewrite Forall_forall in *. intros x Hx. apply (Hall x Hx), (Hv x Hx).
Qed.

(** X17. The scenarios wrap [validateTooltips] and [validateAllSections] in
    [retryValidation]. As these validators return their failures instead of
    throwing them, the wrapper invokes them once and returns their result,
    valid or not: it never retries and never suspends. *)
Theorem retryValidation_of_validators
  (Math_pow : JsNumber.number -> JsNumber.number -> JsNumber.number)
  (W : Type) (page : Page W) (setTimeout : JsNumber.number -> W -> W)
  (operationName : string) (options : RetryHelper.PartialRetryOptions)
  (w : W) :
  1 <= RetryHelper.maxRetries
         (RetryHelper.mergeOptions RetryHelper.DEFAULT_RETRY_OPTIONS options) ->
  (exists r w' tr,
     validateTooltips page w = (inr r, w') /\
     RetryHelper.retryValidation Math_pow (validateTooltips page) setTimeout
       operationName options w = Some (RetryHelper.Returned r, tr, w') /\
     RetryHelper.attempts tr = [(1, inr r)] /\ RetryHelper.sleeps tr = []) /\
  (exists r w' tr,
     validateAllSections page w = (inr r, w') /\
     RetryHelper.retryValidation Math_pow (validateAllSections page) setTimeout
       operationName options w = Some (RetryHelper.Returned r, tr, w') /\
     RetryHelper.attempts tr = [(1, inr r)] /\ RetryHelper.sleeps tr = []).
Proof.
  intro HN.
  assert (Hfirst : forall (T : Type) (operation : W -> (exn + T) * W) r w',
            operation w = (inr r, w') ->
            exists tr,
              RetryHelper.retryValidation Math_pow operation setTimeout
                operationName options w
                = Some (RetryHelper.Returned r, tr, w') /\
              RetryHelper.attempts tr = [(1, inr r)] /\
              RetryHelper.sleeps tr = []).
  { intros T operation r w' Hop.
    unfold RetryHelper.retryValidation. cbv zeta.
    set (config := RetryHelper.mergeOptions _ _) in *.
    unfold RetryHelper.loopFuel.
    cbn [RetryHelper.retryValidationLoop].
    replace (1 <=? RetryHelper.maxRetries config) with true
      by (symmetry; apply Z.leb_le; lia).
    rewrite Hop. simpl. eexists. repeat split. }
  split.
  - destruct (TooltipFacts.validateTooltips_returns W page w)
      as (r & w' & Hrun & _).
    destruct (Hfirst _ _ _ _ Hrun) as (tr & H).
    exists r, w', tr. auto.
  - destruct (validateAllSections_run W page w) as (r & w' & Hrun & _).
    destruct (Hfirst _ _ _ _ Hrun) as (tr & H).
    exists r, w', tr. auto.
Qed.

Lemma retryValidation_of_validators_witness :
  (exists r w' tr,
     validateTooltips closedPage tt = (inr r, w') /\
     RetryHelper.retryValidation JsNumber.productOfFactors
       (validateTooltips closedPage) (fun _ w => w) "Tooltip validation"
       RetryHelper.noOptions tt
       = Some (RetryHelper.Returned r, tr, w') /\
     RetryHelper.attempts tr = [(1, inr r)] /\ RetryHelper.sleeps tr = []) /\
  (exists r w' tr,
     validateAllSections closedPage tt = (inr r, w') /\
     RetryHelper.retryValidation JsNumber.productOfFactors
       (validateAllSections closedPage) (fun _ w => w) "Tooltip validation"
       RetryHelper.noOptions tt
       = Some (RetryHelper.Returned r, tr, w') /\
     RetryHelper.attempts tr = [(1, inr r)] /\ RetryHelper.sleeps tr = []).
Proof.
  apply (retryValidation_of_validators JsNumber.productOfFactors unit closedPage
    (fun _ w => w) "Tooltip validation" RetryHelper.noOptions tt).
  vm_compute. discriminate.
Defined.

(** A page whose sections all show [readyBody] is valid; one whose browser
    has gone gives five errors, one per section. *)
Example validateAllSections_samples :
  option_map isValid
    (match fst (validateAllSections (staticPage [] (Some readyBody)) tt) with
     | inr r => Some r | inl _ => None end) = Some true /\
  option_map errors
    (match fst (validateAllSections closedPage tt) with
     | inr r => Some r | inl _ => None end)
  = Some (map (fun name =>
                 (name ++ ": Error validating section: Error: Target closed")
                 %string) sectionNames).
Proof. split; vm_compute; reflexivity. Qed.

End AllSectionsFacts.


(** ** The record of the tooltips *)

Module TooltipRulesFacts.
Import Async JsString TooltipChecker AsyncLogic TooltipFacts TooltipRules
  SelectorFallback TooltipReading.
Import TooltipValidationResult.

Local Arguments somePatternIn : simpl never.
Local Arguments jsLength : simpl never.
Local Arguments trim : simpl never.

Section Tooltips.
Variable W : Type.
Variable page : Page W.

Local Abbreviation R := TooltipValidationResult.t.

Lemma falsy_length (s : string) : truthy s = false -> jsLength s = 0.
Proof.
  unfold truthy. destruct s; simpl; [reflexivity|discriminate].
Qed.

(** The rules are met exactly when no check fails. *)
Lemma brokenRule_none (term tooltip : string) :
  brokenRule term tooltip = None <->
  (2 <=? jsLength term)%Z && (15 <=? jsLength tooltip)%Z
  && negb (somePatternIn tooltipPlaceholderPatterns tooltip) = true.
Proof.
  unfold brokenRule.
  destruct (truthy term) eqn:Ht; cbn [negb].
  2:{ rewrite (falsy_length _ Ht). split; discriminate. }
  rewrite (Z.ltb_antisym 2), (Z.ltb_antisym 15).
  destruct (2 <=? jsLength term)%Z; cbn [negb andb]; [|split; discriminate].
  destruct (truthy tooltip) eqn:Hp; cbn [negb].
  2:{ rewrite (falsy_length _ Hp). split; discriminate. }
  destruct (15 <=? jsLength tooltip)%Z; cbn [negb andb]; [|split; discriminate].
  destruct (somePatternIn tooltipPlaceholderPatterns tooltip);
    cbn [negb]; split; (discriminate || reflexivity).
Qed.

Lemma filter_app_valid (ds : list TooltipDetail.t) (d : TooltipDetail.t) :
  filter TooltipDetail.isValid (ds ++ [d])
  = filter TooltipDetail.isValid ds
    ++ (if TooltipDetail.isValid d then [d] else []).
Proof. rewrite filter_app. reflexivity. Qed.

Lemma invalidLines_app (ds : list TooltipDetail.t) (d : TooltipDetail.t) :
  invalidLines (ds ++ [d])
  = invalidLines ds
    ++ (if TooltipDetail.isValid d then [] else [tooltipErrorLine d]).
Proof.
  unfold invalidLines. rewrite filter_app, map_app. simpl.
  now destruct (TooltipDetail.isValid d).
Qed.

(** One turn of the loop adds one detail, judged by the rules, and keeps the
    counters and the errors in step with the details. *)
Lemma validateOneTooltip_records (tooltip : Locator) (n k : nat) :
  triple (fun r => recorded n r /\ length (details r) = k)
    (validateOneTooltip W page tooltip)
    (fun _ r => recorded n r /\ length (details r) = S k)
    (fun r => recorded n r /\ length (details r) = k).
Proof.
  unfold validateOneTooltip.
  set (Pre := fun r : R => recorded n r /\ length (details r) = k).
  eapply triple_bind with (Mid := fun _ => Pre); [apply triple_await|].
  intro term. cbv beta.
  eapply triple_bind with (Mid := fun _ => Pre);
    [apply tooltipTextOf_preserves|].
  intro tooltipText. cbv beta.
  set (detail := {| TooltipDetail.term := trim (orEmpty term);
                    TooltipDetail.tooltip := trim tooltipText;
                    TooltipDetail.isValid := false;
                    TooltipDetail.error := None |}).
  eapply triple_bind with
    (Mid := fun d r =>
       judgedByRules d /\
       ((TooltipDetail.isValid d = true /\
         recorded n (pushDetail d r) /\ length (details r) = k /\
         errors r = invalidLines (details r)) \/
        (TooltipDetail.isValid d = false /\
         truthy (orEmpty (TooltipDetail.error d)) = true /\ Pre r))).
  { subst detail. unfold judgedByRules, meetsRules, brokenRule.
    cbn [TooltipDetail.term TooltipDetail.tooltip TooltipDetail.isValid
         TooltipDetail.error].
    repeat match goal with
           | |- triple _ (if ?b then _ else _) _ _ => destruct b eqn:?
           end.
    6:{ eapply triple_bind with
          (Mid := fun _ r =>
             isValid r = false /\ tooltipCount r = n /\
             Forall judgedByRules (details r) /\
             validTooltips r
               = S (length (filter TooltipDetail.isValid (details r))) /\
             errors r = invalidLines (details r) /\
             length (details r) = k).
        - apply triple_update. intros r [(Hv & Hn & Hall & Hc & He) Hk].
          simpl. rewrite Hc. repeat split; auto.
        - intros _. apply triple_ret.
          intros r (Hv & Hn & Hall & Hc & He & Hk). simpl.
          assert (Hjudged : judgedByRules
                    (markValid {| TooltipDetail.term := trim (orEmpty term);
                                  TooltipDetail.tooltip := trim tooltipText;
                                  TooltipDetail.isValid := false;
                                  TooltipDetail.error := None |})).
          { unfold judgedByRules, meetsRules, brokenRule. simpl.
            rewrite Heqb, Heqb0, Heqb1, Heqb2, Heqb3.
            rewrite Z.ltb_antisym in Heqb0, Heqb2.
            apply negb_false_iff in Heqb0, Heqb2.
            now rewrite Heqb0, Heqb2. }
          split; [exact Hjudged|]. left.
          split; [reflexivity|]. split; [|auto].
          unfold recorded. simpl.
          rewrite filter_app_valid, invalidLines_app, length_app. simpl.
          rewrite app_nil_r, Hc. repeat split; auto; [|lia].
          apply Forall_app. split; [exact Hall|].
          constructor; [exact Hjudged|constructor]. }
    all: apply triple_ret; intros r H; simpl.
    all: split; [split|right; repeat split; auto; apply H].
    all: rewrite ?Heqb, ?Heqb0, ?Heqb1, ?Heqb2, ?Heqb3; try reflexivity.
    - apply negb_true_iff in Heqb. rewrite (falsy_length _ Heqb). reflexivity.
    - rewrite Z.ltb_antisym in Heqb0. apply negb_true_iff in Heqb0.
      now rewrite Heqb0.
    - apply negb_true_iff in Heqb1. rewrite (falsy_length _ Heqb1).
      now rewrite andb_false_r.
    - rewrite Z.ltb_antisym in Heqb2. apply negb_true_iff in Heqb2.
      now rewrite Heqb2, andb_false_r.
    - now rewrite andb_false_r. }
  intro d. cbv beta.
  eapply triple_bind with
    (Mid := fun _ r => recorded n (pushDetail d r) /\ length (details r) = k).
  { destruct (TooltipDetail.isValid d) eqn:Hd; simpl.
    - apply triple_ret. intros r [_ [(_ & H & Hk & _)|(H & _)]];
        [auto|discriminate].
    - destruct (truthy (orEmpty (TooltipDetail.error d))) eqn:He.
      + apply triple_update.
        intros r [Hrule [(H & _)|(_ & _ & (Hv & Hn & Hall & Hc & Herr) & Hk)]];
          [discriminate|].
        split; [|exact Hk]. unfold recorded. simpl.
        rewrite filter_app_valid, invalidLines_app, Hd, app_nil_r.
        rewrite Herr. repeat split; auto.
        apply Forall_app. split; [exact Hall|].
        constructor; [exact Hrule|constructor].
      + apply triple_ret. intros r [_ [(H & _)|(_ & H & _)]]; discriminate. }
  intros _. apply triple_update. intros r [H Hk].
  split; [exact H|]. simpl. rewrite length_app. simpl. lia.
Qed.

Lemma validateEachTooltip_records (tooltips : Locator) (n remaining : nat) :
  forall i k,
  triple (fun r => recorded n r /\ length (details r) = k)
    (validateEachTooltip W page tooltips i remaining)
    (fun _ r => recorded n r /\ length (details r) = (k + remaining)%nat)
    (fun r => recorded n r /\ (length (details r) <= k + remaining)%nat).
Proof.
  induction remaining as [|remaining IH]; intros i k; simpl.
  - apply triple_ret. intros r [H Hk]. split; [exact H|lia].
  - eapply triple_bind.
    + eapply triple_weaken with
        (Q' := fun _ r => recorded n r /\ length (details r) = S k);
        [apply validateOneTooltip_records
        | auto
        | intros a r H; exact H
        | intros r [H Hk]; split; [exact H|lia] ].
    + intros []. eapply triple_weaken;
        [apply (IH (S i) (S k))
        | auto
        | intros a r [H Hk]; split; [exact H|lia]
        | intros r [H Hk]; split; [exact H|lia] ].
Qed.

Lemma invalidLines_nil (ds : list TooltipDetail.t) :
  invalidLines ds = [] <-> forallb TooltipDetail.isValid ds = true.
Proof.
  unfold invalidLines.
  induction ds as [|d ds IH]; simpl; [tauto|].
  destruct (TooltipDetail.isValid d); simpl; [exact IH|].
  split; discriminate.
Qed.

Lemma filter_all_valid (ds : list TooltipDetail.t) :
  forallb TooltipDetail.isValid ds = true ->
  filter TooltipDetail.isValid ds = ds.
Proof.
  induction ds as [|d ds IH]; simpl; [reflexivity|].
  destruct (TooltipDetail.isValid d); simpl; [|discriminate].
  intro H. now rewrite IH.
Qed.

Lemma validateTooltipsTry_records :
  triple (fun r => r = initialTooltipResult) (validateTooltipsTry page)
    (fun _ r =>
       (returnedRecord r ["No tooltips found in response"%string] /\
        isValid r = false /\ tooltipCount r = 0%nat) \/
       (returnedRecord r [] /\
        length (details r) = tooltipCount r /\ (0 < tooltipCount r)%nat /\
        isValid r = forallb TooltipDetail.isValid (details r)))
    (fun r => returnedRecord r [] /\ isValid r = false).
Proof.
  assert (Hweak : forall n (r : R),
            recorded n r -> (length (details r) <= n)%nat ->
            returnedRecord r [] /\ isValid r = false).
  { intros n r (Hv & Hn & Hall & Hc & He) Hk.
    unfold returnedRecord. rewrite app_nil_r, Hn. auto. }
  unfold validateTooltipsTry.
  eapply triple_bind with (Mid := fun _ r => r = initialTooltipResult).
  { eapply triple_weaken;
      [apply locateTooltips_result with (P := fun r => r = initialTooltipResult)
      | auto | intros a r H; exact (proj2 H) | ].
    intros r ->. unfold returnedRecord. simpl. repeat split; auto. }
  intro found. cbv beta. set (n := snd found).
  eapply triple_bind with
    (Mid := fun _ r => recorded n r /\ length (details r) = 0%nat).
  { apply triple_update. intros r ->. unfold recorded. simpl.
    repeat split; auto. }
  intros []. destruct (n =? 0)%nat eqn:Hn.
  - apply Nat.eqb_eq in Hn.
    apply triple_update. intros r [(Hv & Hc & Hall & Hvt & He) Hk].
    left. unfold returnedRecord. simpl. rewrite He, Hk. repeat split; auto;
      lia.
  - apply Nat.eqb_neq in Hn.
    eapply triple_bind with
      (Mid := fun _ r => recorded n r /\ length (details r) = 0%nat).
    { apply triple_consoleLog. auto. }
    intros []. eapply triple_bind with
      (Mid := fun _ r => recorded n r /\ length (details r) = n).
    { eapply triple_weaken;
        [apply (validateEachTooltip_records (fst found) n n 0%nat 0%nat)
        | auto | auto | ].
      intros r [H Hk]. apply (Hweak n); auto. }
    intros []. eapply triple_bind; [apply triple_result|].
    intro r0. cbv beta.
    set (Post := fun r : R =>
           returnedRecord r [] /\
           length (details r) = tooltipCount r /\ (0 < tooltipCount r)%nat /\
           isValid r = forallb TooltipDetail.isValid (details r)).
    eapply triple_bind with (Mid := fun _ => Post).
    { apply triple_update. intros r [-> [(Hv & Hc & Hall & Hvt & He) Hk]].
      unfold Post, returnedRecord. simpl.
      rewrite app_nil_r, Hc, Hk. repeat split; auto; try lia.
      rewrite He, Hvt.
      destruct (forallb TooltipDetail.isValid (details r)) eqn:Hf.
      - rewrite (filter_all_valid _ Hf), Hk.
        rewrite (proj2 (invalidLines_nil _) Hf). simpl.
        rewrite andb_true_r. apply Nat.ltb_lt. lia.
      - destruct (invalidLines (details r)) eqn:Hl.
        + apply invalidLines_nil in Hl. congruence.
        + simpl. apply andb_false_r. }
    intros []. eapply triple_bind; [apply triple_result|].
    intro r1. cbv beta.
    destruct (isValid r1); apply triple_consoleLog;
      intros r H; right; exact (proj2 H).
Qed.

End Tooltips.

(** *** A page that answers the same way at every moment *)

Section Steady.
Variable W : Type.
Variable page : Page W.
Variable cnt : Locator -> nat.
Variable text : Locator -> option string.
Variable attr : Locator -> string -> option string.
Hypothesis Hcount : forall l w, count page l w = (inr (cnt l), w).
Hypothesis Htext : forall l w, textContent page l w = (inr (text l), w).
Hypothesis Hattr :
  forall l name w, getAttribute page l name w = (inr (attr l name), w).

Local Abbreviation R := TooltipValidationResult.t.

Lemma locateTooltips_located (w : W) (r : R) :
  locateTooltips W page (w, r)
  = (inr (locatedBy cnt, locatedCount cnt), (w, r)).
Proof.
  unfold locateTooltips, bind, await, ret, locatedBy, locatedCount.
  cbn [fst snd]. rewrite !Hcount.
  destruct (cnt (PageLocator _) =? 0)%nat eqn:H1; cbn [fst snd].
  - rewrite !Hcount. cbn [fst snd].
    destruct (cnt (PageLocator "[data-tooltip]") =? 0)%nat eqn:H2;
      cbn [fst snd].
    + now rewrite !Hcount.
    + reflexivity.
  - now rewrite H1.
Qed.

Lemma tooltipTextOf_read (l : Locator) (w : W) (r : R) :
  tooltipTextOf W page l (w, r) = (inr (tooltipTextFrom (attr l)), (w, r)).
Proof.
  unfold tooltipTextOf, tooltipTextFrom, bind, await, ret. cbn [fst snd].
  rewrite Hattr.
  destruct (truthy (orEmpty (attr l "data-tooltip"))); [reflexivity|].
  cbn [fst snd]. rewrite Hattr.
  destruct (truthy (orEmpty (attr l "title"))); [reflexivity|].
  cbn [fst snd]. now rewrite Hattr.
Qed.

(** One turn of the loop adds the detail read off the element. *)
Lemma validateOneTooltip_read (l : Locator) (w : W) (r : R) :
  exists r',
    validateOneTooltip W page l (w, r) = (inr tt, (w, r')) /\
    details r' = details r ++ [detailOf (text l) (attr l)] /\
    tooltipCount r' = tooltipCount r.
Proof.
  unfold validateOneTooltip.
  unfold bind at 1. unfold await at 1. cbn [fst snd]. rewrite Htext.
  unfold bind at 1. rewrite tooltipTextOf_read.
  unfold detailOf, brokenRule.
  cbn [TooltipDetail.term TooltipDetail.tooltip].
  set (term := trim (orEmpty (text l))).
  set (tooltip := trim (tooltipTextFrom (attr l))).
  destruct (negb (truthy term));
    [|destruct (jsLength term <? 2);
      [|destruct (negb (truthy tooltip));
        [|destruct (jsLength tooltip <? 15);
          [|destruct (somePatternIn tooltipPlaceholderPatterns tooltip)]]]];
    eexists; repeat split; reflexivity.
Qed.

Lemma validateEachTooltip_read (tooltips : Locator) (remaining : nat) :
  forall i w r,
  exists r',
    validateEachTooltip W page tooltips i remaining (w, r)
      = (inr tt, (w, r')) /\
    details r'
    = details r
      ++ map (fun j => detailOf (text (Nth tooltips j)) (attr (Nth tooltips j)))
             (seq i remaining) /\
    tooltipCount r' = tooltipCount r.
Proof.
  induction remaining as [|remaining IH]; intros i w r.
  - exists r. split; [reflexivity|]. simpl. now rewrite app_nil_r.
  - destruct (validateOneTooltip_read (Nth tooltips i) w r)
      as (r1 & H1 & Hd1 & Hc1).
    destruct (IH (S i) w r1) as (r2 & H2 & Hd2 & Hc2).
    exists r2. split; [|split].
    + cbn [validateEachTooltip]. unfold bind at 1. now rewrite H1.
    + rewrite Hd2, Hd1, <- app_assoc. reflexivity.
    + congruence.
Qed.

(** On such a page nothing throws, the page is left as it was, and the
    details are those read off the elements located. *)
Lemma validateTooltips_read (w : W) :
  exists r,
    validateTooltips page w = (inr r, w) /\
    fst (validateTooltipsTry page (w, initialTooltipResult)) = inr tt /\
    details r = detailsRead cnt text attr /\
    tooltipCount r = locatedCount cnt.
Proof.
  assert (Htry : exists r,
            validateTooltipsTry page (w, initialTooltipResult)
              = (inr tt, (w, r)) /\
            details r = detailsRead cnt text attr /\
            tooltipCount r = locatedCount cnt).
  { unfold validateTooltipsTry. unfold bind at 1.
    rewrite locateTooltips_located. cbn [fst snd].
    unfold bind at 1. unfold update at 1, modify. cbn [fst snd].
    unfold detailsRead.
    destruct (locatedCount cnt =? 0)%nat eqn:Hn.
    - apply Nat.eqb_eq in Hn. rewrite Hn. eexists. repeat split; reflexivity.
    - unfold bind at 1. unfold consoleLog at 1, ret.
      unfold bind at 1.
      destruct (validateEachTooltip_read (locatedBy cnt) (locatedCount cnt)
                  0%nat w (setTooltipCount (locatedCount cnt)
                             initialTooltipResult)) as (r1 & -> & Hd & Hc).
      unfold bind, result, update, modify, consoleLog, ret. cbn [fst snd].
      match goal with
      | |- context [if ?b then _ else _] => destruct b
      end; eexists; (split; [reflexivity|split; [exact Hd|exact Hc]]). }
  destruct Htry as (r & Htry & Hd & Hc).
  exists r. unfold validateTooltips, returningResult, tryCatch.
  rewrite Htry. auto.
Qed.

End Steady.

(** X18. [validateTooltips] always returns a result. In it every detail is
    marked valid exactly when its term and text meet the rules (term of 2
    characters or more, text of 15 or more, no placeholder phrase) and
    carries the error of the first check it fails; [validTooltips] counts
    the details marked valid; [errors] holds one line per detail that is
    not, in order, followed by nothing, or by the line that no tooltip was
    found (then nothing was located and there is no detail), or by the
    error thrown inside (and by that only when something was thrown);
    there are no more details than tooltips located, and as many when
    nothing follows. The result is valid exactly when nothing follows and
    every detail is marked valid. On a page whose counts, text contents and
    attributes are the same at every moment, nothing is thrown, the page is
    left as it was, and the details are those of the elements the fallback
    chain locates, in order: the term is the trimmed text content, the text
    the trimmed first non-empty attribute among [data-tooltip], [title] and
    [aria-label]. *)
Theorem validateTooltips_record (W : Type) (page : Page W) (w : W) :
  exists r w' extra,
    validateTooltips page w = (inr r, w') /\
    Forall judgedByRules (details r) /\
    validTooltips r = length (filter TooltipDetail.isValid (details r)) /\
    errors r = invalidLines (details r) ++ extra /\
    (length (details r) <= tooltipCount r)%nat /\
    ((extra = [] /\
      length (details r) = tooltipCount r /\ (0 < tooltipCount r)%nat) \/
     (extra = ["No tooltips found in response"%string] /\
      tooltipCount r = 0%nat /\ details r = []) \/
     (exists e,
        fst (validateTooltipsTry page (w, initialTooltipResult)) = inl e /\
        extra = ["Error checking tooltips: " ++ e]%string)) /\
    (isValid r = true <->
       extra = [] /\ forallb TooltipDetail.isValid (details r) = true) /\
    (forall cnt text attr,
       (forall l w0, count page l w0 = (inr (cnt l), w0)) ->
       (forall l w0, textContent page l w0 = (inr (text l), w0)) ->
       (forall l name w0,
          getAttribute page l name w0 = (inr (attr l name), w0)) ->
       w' = w /\
       tooltipCount r = locatedCount cnt /\
       details r = detailsRead cnt text attr /\
       extra = (if (locatedCount cnt =? 0)%nat
                then ["No tooltips found in response"%string] else [])).
Proof.
  destruct (returningResult_returns W _ initialTooltipResult
              (validateTooltipsTry page)
              (fun e => pushError ("Error checking tooltips: " ++ e))
              (fun r => r = initialTooltipResult) _ _ w eq_refl
              (validateTooltipsTry_records W page))
    as (r & w' & Hrun & Hbody).
  exists r, w'.
  assert (Hsteady : forall cnt text attr,
            (forall l w0, count page l w0 = (inr (cnt l), w0)) ->
            (forall l w0, textContent page l w0 = (inr (text l), w0)) ->
            (forall l name w0,
               getAttribute page l name w0 = (inr (attr l name), w0)) ->
            w' = w /\
            fst (validateTooltipsTry page (w, initialTooltipResult)) = inr tt /\
            details r = detailsRead cnt text attr /\
            tooltipCount r = locatedCount cnt).
  { intros cnt text attr Hcount Htext Hattr.
    destruct (validateTooltips_read W page cnt text attr Hcount Htext Hattr w)
      as (r' & Hrun' & Htry & Hd & Hc).
    unfold validateTooltips, validateTooltipsCatch in Hrun'.
    rewrite Hrun in Hrun'. injection Hrun' as -> ->. auto. }
  destruct (validateTooltipsTry _ _) as [[e|[]] [w0 r0]].
  - destruct Hbody as [-> [(Hall & Hvt & He & Hk) Hv]].
    exists ["Error checking tooltips: " ++ e]%string.
    split; [exact Hrun|]. simpl. rewrite He, app_nil_r, Hv.
    split; [exact Hall|]. split; [exact Hvt|]. split; [reflexivity|].
    split; [exact Hk|]. split; [right; right; exists e; auto|].
    split; [split; [discriminate|intros [H _]; discriminate]|].
    intros cnt text attr Hc Ht Ha.
    destruct (Hsteady cnt text attr Hc Ht Ha) as (_ & Hnothrow & _).
    discriminate.
  - destruct Hbody as [-> [[(Hall & Hvt & He & Hk) (Hv & Hzero)]
                          |[(Hall & Hvt & He & Hk) (Hlen & Hpos & Hv)]]].
    + exists ["No tooltips found in response"%string].
      split; [exact Hrun|]. rewrite Hv.
      assert (Hnone : details r0 = [])
        by (destruct (details r0); [reflexivity|simpl in Hk; lia]).
      split; [exact Hall|]. split; [exact Hvt|]. split; [exact He|].
      split; [exact Hk|]. split; [right; left; auto|].
      split; [split; [discriminate|intros [H _]; discriminate]|].
      intros cnt text attr Hc Ht Ha.
      destruct (Hsteady cnt text attr Hc Ht Ha) as (Hw & _ & Hd & Hcnt).
      rewrite <- Hcnt, Hzero. auto.
    + exists []. split; [exact Hrun|]. rewrite Hv.
      split; [exact Hall|]. split; [exact Hvt|]. split; [exact He|].
      split; [exact Hk|]. split; [left; auto|].
      split; [tauto|].
      intros cnt text attr Hc Ht Ha.
      destruct (Hsteady cnt text attr Hc Ht Ha) as (Hw & _ & Hd & Hcnt).
      rewrite <- Hcnt. repeat split; auto.
      destruct (tooltipCount r0); [lia|reflexivity].
Qed.

Lemma validateTooltips_record_witness :
  exists r extra,
    validateTooltips (staticPage mixedTips None) tt = (inr r, tt) /\
    errors r = invalidLines (details r) ++ extra /\
    details r
    = detailsRead (staticCount mixedTips) (staticText mixedTips None)
        (staticAttr mixedTips) /\
    extra = [].
Proof.
  destruct (validateTooltips_record unit (staticPage mixedTips None) tt)
    as (r & w' & extra & Hrun & _ & _ & Herrors & _ & _ & _ & Hsteady).
  destruct (Hsteady (staticCount mixedTips) (staticText mixedTips None)
              (staticAttr mixedTips))
    as (-> & _ & Hdetails & Hextra).
  - intros l w0. reflexivity.
  - intros l w0. reflexivity.
  - intros l name w0. reflexivity.
  - exists r, extra. auto.
Defined.

(** The three details of the sample: the terms and texts read, the marks
    and the errors. *)
Example validateTooltips_mixed_details :
  detailsRead (staticCount mixedTips) (staticText mixedTips None)
    (staticAttr mixedTips)
  = [ {| TooltipDetail.term := "ROI";
         TooltipDetail.tooltip := "Return on investment measures gain";
         TooltipDetail.isValid := true;
         TooltipDetail.error := None |};
      {| TooltipDetail.term := "x";
         TooltipDetail.tooltip := "A variable that is yet to be determined";
         TooltipDetail.isValid := false;
         TooltipDetail.error :=
           Some "Term too short (minimum 2 characters)" |};
      {| TooltipDetail.term := "Risk";
         TooltipDetail.tooltip := "Loading... please stand by";
         TooltipDetail.isValid := false;
         TooltipDetail.error :=
           Some ("Tooltip contains placeholder text: " ++ dq
                 ++ "Loading... please stand by" ++ dq) |} ]%string.
Proof. vm_compute. reflexivity. Qed.

(** Three tooltips, of which two break a rule. *)
Example validateTooltips_mixed :
  option_map (fun r => (isValid r, tooltipCount r, validTooltips r, errors r))
    (match fst (validateTooltips (staticPage mixedTips None) tt) with
     | inr r => Some r | inl _ => None end)
  = Some (false, 3%nat, 1%nat,
          [ "x: Term too short (minimum 2 characters)"%string;
            ("Risk: Tooltip contains placeholder text: " ++ dq
             ++ "Loading... please stand by" ++ dq)%string ]).
Proof. vm_compute. reflexivity. Qed.

End TooltipRulesFacts.


(** ** Selector fallbacks *)

Module FallbackFacts.
Import Async JsString TooltipChecker AsyncLogic StringFacts TooltipFacts
  SelectorFallback.

Section Steady.
Variable W : Type.
Variable page : Page W.
Variable vis : Locator -> bool.
Variable txt : Locator -> option string.
Hypothesis Hvis : forall l w, isVisible page l w = (inr (vis l), w).
Hypothesis Htxt : forall l w, textContent page l w = (inr (txt l), w).

(** On a steady page the loop over the selectors stops at the first visible
    one; when none is visible it ends on the last. *)
Lemma findSection_steady (selectors : list string) :
  forall section s,
  findSection W page selectors section s
  = (inr (match firstVisible vis selectors with
          | Some selector => Some (First (PageLocator selector))
          | None => match selectors with
                    | [] => section
                    | _ => Some (First (PageLocator (last selectors ""%string)))
                    end
          end), s).
Proof.
  induction selectors as [|selector selectors IH]; intros section [w r].
  - reflexivity.
  - cbn [findSection]. unfold bind, await. cbn [fst snd]. rewrite Hvis.
    unfold firstVisible. cbn [find].
    destruct (vis (First (PageLocator selector))) eqn:Hv; [reflexivity|].
    rewrite IH. fold (firstVisible vis selectors).
    destruct (firstVisible vis selectors); [reflexivity|].
    destruct selectors; reflexivity.
Qed.

Lemma firstVisible_none (selectors : list string) :
  firstVisible vis selectors = None ->
  selectors <> [] ->
  vis (First (PageLocator (last selectors ""%string))) = false.
Proof.
  unfold firstVisible.
  induction selectors as [|a selectors IH]; [congruence|].
  cbn [find]. destruct (vis (First (PageLocator a))) eqn:Ha; [discriminate|].
  intros Hnone _. destruct selectors as [|b selectors]; [exact Ha|].
  apply IH; [exact Hnone|discriminate].
Qed.

Lemma firstVisible_some (selectors : list string) (selector : string) :
  firstVisible vis selectors = Some selector ->
  vis (First (PageLocator selector)) = true.
Proof.
  unfold firstVisible. intro H. apply find_some in H. apply H.
Qed.

End Steady.

Local Arguments somePatternIn : simpl never.
Local Arguments jsLength : simpl never.

(** X19. On a page that answers every visibility and text query the same
    way whatever happens, [validateSection] leaves the page as it is and
    judges the parent of the first selector, in the order given, whose
    element is visible. Without such a selector the section is reported as
    not found. With one, the result carries the parent's text and its
    length, and it is valid exactly when that text is not empty, has at
    least [minLength] characters and contains no placeholder phrase. *)
Theorem validateSection_steady
  (W : Type) (page : Page W) (vis : Locator -> bool)
  (txt : Locator -> option string) (name : string)
  (selectors : list string) (minLength : Z) (w : W) :
  (forall l w0, isVisible page l w0 = (inr (vis l), w0)) ->
  (forall l w0, textContent page l w0 = (inr (txt l), w0)) ->
  exists r,
    validateSection page name selectors minLength w = (inr r, w) /\
    match firstVisible vis selectors with
    | None =>
      SectionValidationResult.isValid r = false /\
      SectionValidationResult.content r = None /\
      SectionValidationResult.characterCount r = 0 /\
      SectionValidationResult.error r
        = Some "Section not found or not visible"%string
    | Some selector =>
      let text :=
        orEmpty (txt (SubLocator (First (PageLocator selector)) "..")) in
      SectionValidationResult.content r = Some text /\
      SectionValidationResult.characterCount r = jsLength text /\
      (SectionValidationResult.isValid r = true <->
       text <> ""%string /\ minLength <= jsLength text /\
       forall phrase, In phrase sectionPlaceholderPatterns ->
         ~ spec_containsIgnoringCase text phrase)
    end.
Proof.
  intros Hvis Htxt.
  unfold validateSection, returningResult, tryCatch, validateSectionTry, bind.
  rewrite (findSection_steady W page vis Hvis).
  destruct (firstVisible vis selectors) as [selector|] eqn:Hfirst.
  - unfold await. cbn [fst snd].
    rewrite Hvis, (firstVisible_some vis _ _ Hfirst). cbn [negb].
    rewrite Htxt.
    set (text := orEmpty (txt (SubLocator (First (PageLocator selector)) ".."))).
    unfold checkContent, bind, update, modify, result, consoleLog, ret.
    cbn [fst snd setContent setCharacterCount SectionValidationResult.content
         SectionValidationResult.characterCount initialSectionResult orEmpty].
    fold text.
    assert (Hempty : truthy text = false <-> text = ""%string).
    { unfold truthy. destruct text; simpl; split; congruence. }
    assert (Hplace : somePatternIn sectionPlaceholderPatterns text = false <->
                     forall phrase, In phrase sectionPlaceholderPatterns ->
                       ~ spec_containsIgnoringCase text phrase).
    { split.
      - intros Hno phrase Hin Hsub.
        assert (somePatternIn sectionPlaceholderPatterns text = true)
          by (apply somePatternIn_spec; eauto).
        congruence.
      - intro Hno.
        destruct (somePatternIn sectionPlaceholderPatterns text) eqn:Hs;
          [|reflexivity].
        apply somePatternIn_spec in Hs. destruct Hs as (phrase & Hin & Hsub).
        elim (Hno phrase Hin Hsub). }
    destruct (truthy text) eqn:Ht; cbn [negb];
      [destruct (jsLength text <? minLength) eqn:Hlen;
       [|destruct (somePatternIn sectionPlaceholderPatterns text) eqn:Hs]|];
      cbn; eexists; (split; [reflexivity|]); cbn;
      (split; [reflexivity|]); (split; [reflexivity|]).
    + apply Z.ltb_lt in Hlen. split; [discriminate|]. intros (_ & H & _). lia.
    + split; [discriminate|]. intros (_ & _ & H).
      apply Hplace in H. discriminate.
    + apply Z.ltb_ge in Hlen. split; [|reflexivity]. intros _.
      repeat split; auto.
      * intro H. apply Hempty in H. congruence.
      * now apply Hplace.
    + split; [discriminate|]. intros (H & _). elim H. now apply Hempty.
  - destruct selectors as [|a selectors].
    + cbn. eexists. split; [reflexivity|]. cbn. auto.
    + unfold await. cbn [fst snd]. rewrite Hvis.
      rewrite (firstVisible_none vis _ Hfirst); [|discriminate].
      cbn. eexists. split; [reflexivity|]. cbn. auto.
Qed.

Lemma validateSection_steady_witness :
  exists r,
    validateSection (staticPage [] (Some loadingBody)) "Strategy"
      strategySelectors 50 tt = (inr r, tt) /\
    match firstVisible (fun _ => true) strategySelectors with
    | None =>
      SectionValidationResult.isValid r = false /\
      SectionValidationResult.content r = None /\
      SectionValidationResult.characterCount r = 0 /\
      SectionValidationResult.error r
        = Some "Section not found or not visible"%string
    | Some selector =>
      let text :=
        orEmpty ((fun l => match l with
                           | Nth _ _ => None
                           | _ => Some loadingBody
                           end)
                   (SubLocator (First (PageLocator selector)) "..")) in
      SectionValidationResult.content r = Some text /\
      SectionValidationResult.characterCount r = jsLength text /\
      (SectionValidationResult.isValid r = true <->
       text <> ""%string /\ 50 <= jsLength text /\
       forall phrase, In phrase sectionPlaceholderPatterns ->
         ~ spec_containsIgnoringCase text phrase)
    end.
Proof.
  apply (validateSection_steady unit (staticPage [] (Some loadingBody))
           (fun _ => true)
           (fun l => match l with
                     | Nth _ _ => None
                     | _ => Some loadingBody
                     end) "Strategy" strategySelectors 50 tt).
  - intros l []. reflexivity.
  - intros l []. destruct l as [sel|l|l index|l sel]; try reflexivity.
    destruct index; reflexivity.
Defined.

End FallbackFacts.


Module TooltipFallbackFacts.
Import Async JsString TooltipChecker AsyncLogic TooltipFacts TooltipRules
  TooltipRulesFacts SelectorFallback.
Import TooltipValidationResult.

Section Counted.
Variable W : Type.
Variable page : Page W.
Variable cnt : Locator -> nat.
Hypothesis Hcnt : forall l w, fst (count page l w) = inr (cnt l).

Lemma count_steady (l : Locator) (w : W) :
  exists w', count page l w = (inr (cnt l), w').
Proof.
  specialize (Hcnt l w). destruct (count page l w) as [x w'].
  simpl in Hcnt. subst x. eauto.
Qed.

Lemma locateTooltips_steady (w : W) (r : TooltipValidationResult.t) :
  exists l w',
    locateTooltips W page (w, r) = (inr (l, locatedCount cnt), (w', r)).
Proof.
  unfold locateTooltips, bind, await, ret, locatedCount. cbn [fst snd].
  destruct (count_steady (PageLocator ("span[class*=" ++ dq ++ "tooltip"
                                       ++ dq ++ "]")) w) as [w1 ->].
  destruct (cnt (PageLocator _) =? 0)%nat eqn:H1; cbn [fst snd].
  - destruct (count_steady (PageLocator "[data-tooltip]") w1) as [w2 ->].
    cbn [fst snd].
    rewrite ?H1.
    destruct (cnt (PageLocator "[data-tooltip]") =? 0)%nat eqn:H2;
      cbn [fst snd].
    + destruct (count_steady (PageLocator "[title]") w2) as [w3 ->]. eauto.
    + eauto.
  - rewrite H1. eauto.
Qed.

End Counted.

Section Rest.
Variable W : Type.
Variable page : Page W.

(** What follows the fallbacks in the [try] block. *)
Local Abbreviation rest :=
  (fun found : Locator * nat =>
     let tooltips := fst found in
     let n := snd found in
     Async.bind (update (setTooltipCount n)) (fun _ =>
     if (n =? 0)%nat then
       update (pushError "No tooltips found in response")
     else
       Async.bind (consoleLog ("Found " ++ showZ (Z.of_nat n)
                               ++ " tooltip elements")) (fun _ =>
       Async.bind (validateEachTooltip W page tooltips 0 n) (fun _ =>
       Async.bind result (fun r =>
       Async.bind (update (setIsValid ((0 <? validTooltips r)%nat
                                       && (length (errors r) =? 0)%nat)))
         (fun _ =>
       Async.bind result (fun r =>
       if isValid r then
         consoleLog ("Tooltip validation passed: "
                     ++ showZ (Z.of_nat (validTooltips r)) ++ "/"
                     ++ showZ (Z.of_nat (tooltipCount r))
                     ++ " valid tooltips")
       else
         consoleLog ("Tooltip validation failed: "
                     ++ showZ (Z.of_nat (length (errors r)))
                     ++ " errors")))))))).

Lemma validateTooltipsTry_unfold :
  validateTooltipsTry page = Async.bind (locateTooltips W page) rest.
Proof. reflexivity. Qed.

Lemma rest_keeps_count (found : Locator * nat) :
  triple (fun r => r = initialTooltipResult) (rest found)
    (fun _ r => tooltipCount r = snd found)
    (fun r => tooltipCount r = snd found).
Proof.
  cbv beta zeta. set (n := snd found).
  eapply triple_bind with
    (Mid := fun _ r => recorded n r /\ length (details r) = 0%nat).
  { apply triple_update. intros r ->. unfold recorded. simpl.
    repeat split; auto. }
  intros []. destruct (n =? 0)%nat.
  - apply triple_update. intros r [(_ & Hc & _) _]. exact Hc.
  - eapply triple_bind with
      (Mid := fun _ r => recorded n r /\ length (details r) = 0%nat).
    { apply triple_consoleLog. auto. }
    intros []. eapply triple_bind with (Mid := fun _ r => tooltipCount r = n).
    { eapply triple_weaken;
        [apply (validateEachTooltip_records W page (fst found) n n 0%nat 0%nat)
        | auto
        | intros a r [(_ & Hc & _) _]; exact Hc
        | intros r [(_ & Hc & _) _]; exact Hc ]. }
    intros []. eapply triple_bind with (Mid := fun _ r => tooltipCount r = n).
    { intros w r H. exact H. }
    intro r0. eapply triple_bind with (Mid := fun _ r => tooltipCount r = n).
    { apply triple_update. intros r H. exact H. }
    intros []. eapply triple_bind with (Mid := fun _ r => tooltipCount r = n).
    { intros w r H. exact H. }
    intro r1. destruct (isValid r1); apply triple_consoleLog; auto.
Qed.

End Rest.

(** X20. On a page whose counts do not throw and do not change,
    [tooltipCount] is the count of the class selector when that is not 0,
    else that of the [data-tooltip] selector when that is not 0, else that
    of the [title] selector: a later selector counts only when the earlier
    ones match nothing. *)
Theorem validateTooltips_fallback_order
  (W : Type) (page : Page W) (cnt : Locator -> nat) (w : W) :
  (forall l w0, fst (count page l w0) = inr (cnt l)) ->
  exists r w',
    validateTooltips page w = (inr r, w') /\
    tooltipCount r = locatedCount cnt.
Proof.
  intro Hcnt.
  unfold validateTooltips, returningResult, tryCatch.
  rewrite validateTooltipsTry_unfold. unfold Async.bind at 1.
  destruct (locateTooltips_steady W page cnt Hcnt w initialTooltipResult)
    as (l & w1 & ->).
  pose proof (rest_keeps_count W page (l, locatedCount cnt) w1
                initialTooltipResult eq_refl) as Hrest.
  cbv beta zeta in Hrest. cbv beta zeta.
  cbn [fst snd] in *.
  match type of Hrest with
  | match ?c with _ => _ end => destruct c as [[e|[]] [w2 r2]]
  end; simpl; eauto.
Qed.

Lemma validateTooltips_fallback_order_witness :
  exists r w',
    validateTooltips titledPage tt = (inr r, w') /\
    tooltipCount r
    = locatedCount
        (fun l => match l with
                  | PageLocator sel =>
                    if (sel =? "[title]")%string then 2%nat else 0%nat
                  | _ => 0%nat
                  end).
Proof.
  apply (validateTooltips_fallback_order unit titledPage
           (fun l => match l with
                     | PageLocator sel =>
                       if (sel =? "[title]")%string then 2%nat else 0%nat
                     | _ => 0%nat
                     end) tt).
  intros l []. reflexivity.
Defined.

(** The two titled elements are found, and their titles are judged. *)
Example validateTooltips_by_title :
  option_map (fun r => (isValid r, tooltipCount r, validTooltips r))
    (match fst (validateTooltips titledPage tt) with
     | inr r => Some r | inl _ => None end)
  = Some (true, 2%nat, 2%nat).
Proof. vm_compute. reflexivity. Qed.

End TooltipFallbackFacts.


(** ** More on layout centering *)

Module LayoutMoreFacts.
Import Async JsString LayoutCenter LayoutFacts.
Import TooltipChecker(Locator, PageLocator, First, Nth, SubLocator).

Section Steady.
Variable W : Type.
Variable page : Page W.
Variable vis : Locator -> bool.
Hypothesis Hvis : forall l w, isVisible page l w = (inr (vis l), w).

Lemma findWrapper_steady (selectors : list string) (w : W) :
  findWrapper W page selectors w
  = (inr (option_map (fun s => First (PageLocator s))
            (find (fun s => vis (First (PageLocator s))) selectors)), w).
Proof.
  induction selectors as [|s selectors IH]; [reflexivity|].
  cbn [findWrapper find]. unfold bind. rewrite Hvis.
  destruct (vis (First (PageLocator s))); [reflexivity|exact IH].
Qed.

End Steady.

(** X21. On a page that answers every visibility query the same way
    whatever happens, the wrapper the layout tests measure is the first
    element of the first wrapper selector, in order, that is visible, and
    [body] when none is. *)
Theorem locateWrapper_first_visible
  (W : Type) (page : Page W) (vis : Locator -> bool) (w : W) :
  (forall l w0, isVisible page l w0 = (inr (vis l), w0)) ->
  locateWrapper W page w
  = (inr (match find (fun s => vis (First (PageLocator s))) wrapperSelectors
          with
          | Some s => First (PageLocator s)
          | None => PageLocator "body"
          end), w).
Proof.
  intro Hvis. unfold locateWrapper, bind.
  rewrite (findWrapper_steady W page vis Hvis).
  now destruct (find _ wrapperSelectors).
Qed.

Lemma locateWrapper_first_visible_witness :
  locateWrapper nat (reflowingPage tabletPortrait 760 4 4) 0%nat
  = (inr (match find (fun s =>
                        (fun l => match l with
                                  | First (PageLocator sel) =>
                                    (sel =? "main")%string
                                  | _ => false
                                  end) (First (PageLocator s)))
                  wrapperSelectors with
          | Some s => First (PageLocator s)
          | None => PageLocator "body"
          end), 0%nat).
Proof.
  apply (locateWrapper_first_visible nat
           (reflowingPage tabletPortrait 760 4 4)
           (fun l => match l with
                     | First (PageLocator sel) => (sel =? "main")%string
                     | _ => false
                     end) 0%nat).
  intros l w0. reflexivity.
Defined.

End LayoutMoreFacts.

